(** * Lucid 0.3.0: a shallow embedding of the rendering engine

    The development follows [src/publish/lucid-0.3.0.js] function by
    function.  The host platform (the DOM and the JavaScript string
    primitives the engine calls) is modelled first, then the engine, then
    the properties of the engine. *)

From Stdlib Require Import ZArith String Ascii List Bool Lia DecimalString.
From stdpp Require Import base option list strings gmap.

Set Warnings "-register-all".

Local Open Scope Z_scope.
Local Open Scope string_scope.

(** ** Outcomes of a computation

    A JavaScript call returns, throws, or does not come back.  [Timeout]
    is the fuel of the one [while] loop of the engine running out;
    [Unsupported] marks the places where the engine hands control to a part
    of the host that is outside this model (prototype members, host-object
    properties, a user function used as a replacer or printed as text,
    attribute names that the host rewrites or refuses, numbers beyond the
    safe integers). *)

Inductive Exception := JSError (name : string).

Definition TypeError : Exception := JSError "TypeError".
Definition HierarchyRequestError : Exception := JSError "HierarchyRequestError".

Inductive Res (A : Type) :=
| Ok (a : A)
| Throw (e : Exception)
| Timeout
| Unsupported.

Arguments Ok {A} a.
Arguments Throw {A} e.
Arguments Timeout {A}.
Arguments Unsupported {A}.

Definition bind {A B} (m : Res A) (k : A -> Res B) : Res B :=
  match m with
  | Ok a => k a
  | Throw e => Throw e
  | Timeout => Timeout
  | Unsupported => Unsupported
  end.

Notation "'let*' x ':=' m 'in' k" := (bind m (fun x => k))
  (at level 10, x pattern, m at level 100, k at level 200).

Definition is_Ok {A} (r : Res A) : Prop := exists a, r = Ok a.

(** ** JavaScript strings

    A string holds the bytes of the UTF-8 encoding of a text.  The engine
    cuts strings only at the positions of the ASCII markers it searched
    for, so the unit of indexing does not matter to it; [trim] is the one
    primitive it calls that looks at characters beyond the ASCII range. *)

Module JS.

Fixpoint prefixb (p s : string) : bool :=
  match p, s with
  | EmptyString, _ => true
  | String a p', String b s' => Ascii.eqb a b && prefixb p' s'
  | String _ _, EmptyString => false
  end.

(** [startsWith]: [key.startsWith("on")]. *)
Definition startsWith (s p : string) : bool := prefixb p s.

Fixpoint drop (n : nat) (s : string) : string :=
  match n, s with
  | O, _ => s
  | S n', String _ s' => drop n' s'
  | S _, EmptyString => EmptyString
  end.

Fixpoint take (n : nat) (s : string) : string :=
  match n, s with
  | S n', String c s' => String c (take n' s')
  | _, _ => EmptyString
  end.

(** First position, counted from [pos], at which [pat] occurs in [s]. *)
Fixpoint find (pat s : string) (pos : nat) : option nat :=
  if prefixb pat s then Some pos
  else match s with
       | EmptyString => None
       | String _ s' => find pat s' (S pos)
       end.

Definition len (s : string) : Z := Z.of_nat (String.length s).

Definition clamp (s : string) (i : Z) : Z := Z.min (Z.max i 0) (len s).

(** [text.indexOf(pat, from)], [-1] when there is no occurrence. *)
Definition indexOf (text pat : string) (from : Z) : Z :=
  let k := Z.to_nat (clamp text from) in
  match find pat (drop k text) k with
  | Some i => Z.of_nat i
  | None => -1
  end.

(** [text.substring(a, b)]: both ends clamped to the string, swapped when
    out of order. *)
Definition substring (text : string) (a b : Z) : string :=
  let a' := clamp text a in
  let b' := clamp text b in
  let lo := Z.min a' b' in
  let hi := Z.max a' b' in
  take (Z.to_nat (hi - lo)) (drop (Z.to_nat lo) text).

Definition is_lower (c : ascii) : bool :=
  let n := nat_of_ascii c in (97 <=? n)%nat && (n <=? 122)%nat.

Definition is_digit (c : ascii) : bool :=
  let n := nat_of_ascii c in (48 <=? n)%nat && (n <=? 57)%nat.

Fixpoint all (p : ascii -> bool) (s : string) : bool :=
  match s with
  | EmptyString => true
  | String c s' => p c && all p s'
  end.

Definition upper (c : ascii) : ascii :=
  if is_lower c then ascii_of_nat (nat_of_ascii c - 32) else c.

(** [toUpperCase] on the ASCII letters: the [tagName] of an HTML element. *)
Fixpoint toUpperCase (s : string) : string :=
  match s with
  | EmptyString => EmptyString
  | String c s' => String (upper c) (toUpperCase s')
  end.

(** [key.substr(2)]. *)
Definition substr (s : string) (from : nat) : string := drop from s.

(** [variable.split(".")]: never the empty list. *)
Fixpoint split_dot (s : string) : list string :=
  match s with
  | EmptyString => [EmptyString]
  | String c s' =>
      if Ascii.eqb c "."%char then EmptyString :: split_dot s'
      else match split_dot s' with
           | h :: t => String c h :: t
           | [] => [String c EmptyString]
           end
  end.

(** The white space of ECMAScript, each code point by the bytes of its
    encoding: the tabulations, line ends and the space of the ASCII range,
    U+00A0, U+1680, U+2000 to U+200A, U+2028, U+2029, U+202F, U+205F,
    U+3000 and U+FEFF. *)
Definition spaces : list (list ascii) :=
  List.map (List.map ascii_of_nat)
    [[9]; [10]; [11]; [12]; [13]; [32];
     [194; 160];
     [225; 154; 128];
     [226; 128; 128]; [226; 128; 129]; [226; 128; 130]; [226; 128; 131];
     [226; 128; 132]; [226; 128; 133]; [226; 128; 134]; [226; 128; 135];
     [226; 128; 136]; [226; 128; 137]; [226; 128; 138];
     [226; 128; 168]; [226; 128; 169];
     [226; 128; 175];
     [226; 129; 159];
     [227; 128; 128];
     [239; 187; 191]]%nat.

(** [after p l]: what follows [p] at the start of [l]. *)
Fixpoint after (p l : list ascii) : option (list ascii) :=
  match p, l with
  | [], _ => Some l
  | a :: p', b :: l' => if Ascii.eqb a b then after p' l' else None
  | _ :: _, [] => None
  end.

Fixpoint first_after (table : list (list ascii)) (l : list ascii)
  : option (list ascii) :=
  match table with
  | [] => None
  | p :: table' =>
      match after p l with
      | Some r => Some r
      | None => first_after table' l
      end
  end.

(** A byte [160] that belongs to no encoded character, as in a text given
    by its Latin-1 codes, is read as U+00A0.  At the start of a text no
    byte [160] belongs to a character; at the end of one, a byte [160]
    that follows an ASCII byte or nothing does not. *)
Definition nbsp : ascii := ascii_of_nat 160.

Definition is_ascii (c : ascii) : bool := (nat_of_ascii c <? 128)%nat.

(** The text after one white space character at its start. *)
Definition space_start (l : list ascii) : option (list ascii) :=
  first_after (spaces ++ [[nbsp]])%list l.

(** The same at the end of a text, on the reversed text. *)
Definition space_end (r : list ascii) : option (list ascii) :=
  match first_after (List.map (@List.rev ascii) spaces) r with
  | Some r' => Some r'
  | None =>
      match r with
      | a :: r' =>
          if Ascii.eqb a nbsp
             && match r' with [] => true | b :: _ => is_ascii b end
          then Some r'
          else None
      | [] => None
      end
  end.

(** [strip step n l]: [step] as long as it applies, [n] times at most. *)
Fixpoint strip (step : list ascii -> option (list ascii)) (n : nat)
  (l : list ascii) : list ascii :=
  match n with
  | O => l
  | S n' =>
      match step l with
      | Some r => strip step n' r
      | None => l
      end
  end.

Definition trim_start (l : list ascii) : list ascii :=
  strip space_start (List.length l) l.

Definition trim_end (l : list ascii) : list ascii :=
  List.rev (strip space_end (List.length l) (List.rev l)).

(** [nodeValue.trim()]: the white space at both ends is taken away. *)
Definition trim (s : string) : string :=
  string_of_list_ascii (trim_end (trim_start (list_ascii_of_string s))).

(** The replacement patterns of [String.prototype.replace] for a string
    pattern (no captures): [$$], [$&], [$`] and [$']. *)
Fixpoint getSubstitution (matched before after repl : string) : string :=
  match repl with
  | EmptyString => EmptyString
  | String c r =>
      if Ascii.eqb c "$"%char then
        match r with
        | String d r' =>
            if Ascii.eqb d "$"%char then
              String "$" (getSubstitution matched before after r')
            else if Ascii.eqb d "&"%char then
              matched ++ getSubstitution matched before after r'
            else if Ascii.eqb d "`"%char then
              before ++ getSubstitution matched before after r'
            else if Ascii.eqb d "'"%char then
              after ++ getSubstitution matched before after r'
            else String c (getSubstitution matched before after r)
        | EmptyString => String c EmptyString
        end
      else String c (getSubstitution matched before after r)
  end.

(** [text.replace(pat, repl)] for strings [pat] and [repl]: the first
    occurrence only. *)
Definition replace (text pat repl : string) : string :=
  match find pat text 0 with
  | None => text
  | Some i =>
      let before := take i text in
      let after := drop (i + String.length pat) text in
      before ++ getSubstitution pat before after repl ++ after
  end.

(** A property key that reads as an index: the decimal digits of a
    natural number, without a leading zero. *)
Definition isIndex (s : string) : bool :=
  match s with
  | EmptyString => false
  | String c s' =>
      is_digit c && all is_digit s'
      && (negb (Ascii.eqb c "0"%char) || String.eqb s' EmptyString)
  end.

(** The integers that a number holds exactly. *)
Definition isSafeInteger (z : Z) : bool := (Z.abs z <? 2 ^ 53)%Z.

(** Number to string, for a safe integer: its decimal digits. *)
Definition numberToString (z : Z) : string :=
  NilZero.string_of_int (Z.to_int z).

End JS.

(** ** JavaScript values and the object heap

    State records are objects: they live on a heap and values refer to
    them by address, so that two references to one record see each other's
    writes.  Numbers are the integers, followed as long as they are safe
    integers.  A user function stored in data is known by its name only; the
    engine never calls one outside the hooks. *)

Inductive JSVal :=
| VUndef
| VNull
| VBool (b : bool)
| VNum (z : Z)
| VStr (s : string)
| VObj (a : nat)
| VFun (f : string)
| VDom (n : nat).

Definition Obj := list (string * JSVal).

Fixpoint assoc {A} (k : string) (l : list (string * A)) : option A :=
  match l with
  | [] => None
  | (k', v) :: l' => if String.eqb k k' then Some v else assoc k l'
  end.

(** [o[k] = v] on a record: overwrite in place, or add at the end. *)
Fixpoint assoc_set {A} (k : string) (v : A) (l : list (string * A))
  : list (string * A) :=
  match l with
  | [] => [(k, v)]
  | (k', v') :: l' =>
      if String.eqb k k' then (k, v) :: l' else (k', v') :: assoc_set k v l'
  end.

(** The members every plain object inherits from [Object.prototype]. *)
Definition objectPrototype : list string :=
  ["constructor"; "hasOwnProperty"; "isPrototypeOf"; "propertyIsEnumerable";
   "toLocaleString"; "toString"; "valueOf"; "__proto__"; "__defineGetter__";
   "__defineSetter__"; "__lookupGetter__"; "__lookupSetter__"].

Definition inherited (p : string) : bool :=
  existsb (String.eqb p) objectPrototype.

(** A property that is not an own property of a plain record. *)
Definition missing (p : string) : Res JSVal :=
  if inherited p then Unsupported else Ok VUndef.

(** [v[p]]. *)
Definition getProp (h : list Obj) (v : JSVal) (p : string) : Res JSVal :=
  match v with
  | VUndef | VNull => Throw TypeError
  | VObj a =>
      match h !! a with
      | Some o => match assoc p o with
                  | Some x => Ok x
                  | None => missing p
                  end
      | None => Unsupported
      end
  | _ => Unsupported
  end.

(** [obj.p = v] on the record at address [a]. *)
Definition setProp (a : nat) (p : string) (v : JSVal) (h : list Obj)
  : list Obj :=
  match h !! a with
  | Some o => <[a := assoc_set p v o]> h
  | None => h
  end.

(** The assignment [target.p = v] of user code; [__proto__] is no data
    member. *)
Definition assignMember (target : JSVal) (p : string) (v : JSVal)
  (h : list Obj) : Res (list Obj) :=
  match target with
  | VUndef | VNull => Throw TypeError
  | VObj a =>
      match h !! a with
      | Some _ =>
          if String.eqb p "__proto__" then Unsupported
          else Ok (setProp a p v h)
      | None => Unsupported
      end
  | _ => Unsupported
  end.

Definition numberToStr (z : Z) : Res string :=
  if JS.isSafeInteger z then Ok (JS.numberToString z) else Unsupported.

(** The abstract operation [ToString]. *)
Definition toStr (h : list Obj) (v : JSVal) : Res string :=
  match v with
  | VUndef => Ok "undefined"
  | VNull => Ok "null"
  | VBool true => Ok "true"
  | VBool false => Ok "false"
  | VNum z => numberToStr z
  | VStr s => Ok s
  | VObj a =>
      match h !! a with
      | Some o =>
          match assoc "toString" o, assoc "valueOf" o with
          | None, None => Ok "[object Object]"
          | _, _ => Unsupported
          end
      | None => Unsupported
      end
  | VFun _ | VDom _ => Unsupported
  end.

(** The method call [v.toString()]. *)
Definition toStringMethod (v : JSVal) : Res string :=
  match v with
  | VUndef | VNull => Throw TypeError
  | VBool true => Ok "true"
  | VBool false => Ok "false"
  | VNum z => numberToStr z
  | VStr s => Ok s
  | _ => Unsupported
  end.

Definition isString (v : JSVal) : bool :=
  match v with VStr _ => true | _ => false end.

(** [ToNumber] on the primitives, [None] for [NaN]. *)
Definition toNumber (v : JSVal) : Res (option Z) :=
  match v with
  | VUndef => Ok None
  | VNull => Ok (Some 0)
  | VBool b => Ok (Some (if b then 1 else 0))
  | VNum z => Ok (Some z)
  | _ => Unsupported
  end.

(** [a + b], read as a property key: concatenation as soon as one side is
    a string, the sum of two numbers otherwise. *)
Definition add (h : list Obj) (a b : JSVal) : Res string :=
  if isString a || isString b then
    let* sa := toStr h a in
    let* sb := toStr h b in
    Ok (sa ++ sb)
  else
    let* na := toNumber a in
    let* nb := toNumber b in
    match na, nb with
    | Some x, Some y =>
        if JS.isSafeInteger x && JS.isSafeInteger y then numberToStr (x + y)
        else Unsupported
    | _, _ => Ok "NaN"
    end.

(** Truthiness of the values the engine tests. *)
Definition truthy (v : JSVal) : bool :=
  match v with
  | VUndef | VNull => false
  | VBool b => b
  | VNum z => negb (z =? 0)%Z
  | VStr s => negb (String.eqb s "")
  | _ => true
  end.

(** [text.replace(pat, v)]: a replacement that is not a function is
    converted to a string before the search; a function is called on a
    match only. *)
Definition replaceWith (h : list Obj) (text pat : string) (v : JSVal)
  : Res string :=
  match v with
  | VFun _ =>
      match JS.find pat text 0 with
      | None => Ok text
      | Some _ => Unsupported
      end
  | _ => let* r := toStr h v in Ok (JS.replace text pat r)
  end.

(** ** The host node tree

    Host nodes live in a store and are known by their index in it, which
    is their identity: a node that is updated in place keeps its index, a
    node that is created gets the next free one.  The temporary [div] the
    engine parses markup into is never attached and is not recorded. *)

Inductive NodeKind :=
| Element (tagName : string)
| Text (nodeValue : string).

(** The closure the engine subscribes for an event attribute: it holds the
    stored handler and the instance it will build the context of. *)
Record Listener := mkListener {
  l_type : string;
  l_handler : JSVal;
  l_name : JSVal;
  l_key : JSVal
}.

Record Node := mkNode {
  kind : NodeKind;
  attributes : list (string * string);
  childNodes : list nat;
  parentNode : option nat;
  listeners : list Listener
}.

Module Dom.

Definition newElement (tag : string) : Node :=
  mkNode (Element (JS.toUpperCase tag)) [] [] None [].

Definition newText (data : string) : Node :=
  mkNode (Text data) [] [] None [].

Definition isElement (n : Node) : bool :=
  match kind n with Element _ => true | Text _ => false end.

Definition with_children (cs : list nat) (n : Node) : Node :=
  mkNode (kind n) (attributes n) cs (parentNode n) (listeners n).

Definition with_parent (p : option nat) (n : Node) : Node :=
  mkNode (kind n) (attributes n) (childNodes n) p (listeners n).

Definition with_attributes (l : list (string * string)) (n : Node) : Node :=
  mkNode (kind n) l (childNodes n) (parentNode n) (listeners n).

Definition with_kind (k : NodeKind) (n : Node) : Node :=
  mkNode k (attributes n) (childNodes n) (parentNode n) (listeners n).

Definition with_listener (l : Listener) (n : Node) : Node :=
  mkNode (kind n) (attributes n) (childNodes n) (parentNode n)
         (listeners n ++ [l]).

Definition remove (x : nat) (l : list nat) : list nat :=
  List.filter (fun y => negb (Nat.eqb x y)) l.

(** An attached node leaves its parent. *)
Definition detach (c : nat) (ns : list Node) : list Node :=
  match ns !! c with
  | Some cn =>
      match parentNode cn with
      | Some p =>
          match ns !! p with
          | Some pn =>
              <[c := with_parent None cn]>
                (<[p := with_children (remove c (childNodes pn)) pn]> ns)
          | None => <[c := with_parent None cn]> ns
          end
      | None => ns
      end
  | None => ns
  end.

(** [parent.appendChild(child)].  The engine appends only nodes it has
    just created; of the host's hierarchy checks the model keeps the two
    such a call can meet: a text node takes no children and a node is not
    its own child. *)
Definition appendChild (p c : nat) (ns : list Node) : Res (list Node) :=
  match ns !! p, ns !! c with
  | Some pn, Some _ =>
      if negb (isElement pn) || Nat.eqb p c then Throw HierarchyRequestError
      else
        let ns1 := detach c ns in
        match ns1 !! p, ns1 !! c with
        | Some pn1, Some cn1 =>
            Ok (<[c := with_parent (Some p) cn1]>
                  (<[p := with_children (childNodes pn1 ++ [c]) pn1]> ns1))
        | _, _ => Throw TypeError
        end
  | _, _ => Throw TypeError
  end.

(** [dom.parentNode.removeChild(dom)]. *)
Definition removeFromParent (c : nat) (ns : list Node) : Res (list Node) :=
  match ns !! c with
  | Some cn =>
      match parentNode cn with
      | Some _ => Ok (detach c ns)
      | None => Throw TypeError
      end
  | None => Throw TypeError
  end.

(** The attribute names that [setAttribute] stores as they are: a
    lower-case letter, then lower-case letters, digits, hyphens and colons.
    Another name is put in lower case, or refused. *)
Definition plainName (name : string) : bool :=
  match name with
  | EmptyString => false
  | String c s =>
      JS.is_lower c
      && JS.all (fun x => JS.is_lower x || JS.is_digit x
                          || Ascii.eqb x "-"%char || Ascii.eqb x ":"%char) s
  end.

(** [elem.setAttribute(name, value)], a method of elements only. *)
Definition setAttribute (e : nat) (name value : string) (ns : list Node)
  : Res (list Node) :=
  match ns !! e with
  | Some n =>
      if isElement n then
        if plainName name then
          Ok (<[e := with_attributes (assoc_set name value (attributes n)) n]>
                ns)
        else Unsupported
      else Throw TypeError
  | None => Throw TypeError
  end.

(** [elem.getAttribute(name)], [null] when the attribute is absent. *)
Definition getAttribute (e : nat) (name : string) (ns : list Node) : JSVal :=
  match ns !! e with
  | Some n => match assoc name (attributes n) with
              | Some v => VStr v
              | None => VNull
              end
  | None => VNull
  end.

(** [elem.addEventListener(type, closure)]. *)
Definition addEventListener (e : nat) (l : Listener) (ns : list Node)
  : Res (list Node) :=
  match ns !! e with
  | Some n => Ok (<[e := with_listener l n]> ns)
  | None => Throw TypeError
  end.

(** [dom.nodeValue = value]: the data of a text node; no effect on an
    element. *)
Definition setNodeValue (d : nat) (value : string) (ns : list Node)
  : Res (list Node) :=
  match ns !! d with
  | Some n =>
      match kind n with
      | Text _ => Ok (<[d := with_kind (Text value) n]> ns)
      | Element _ => Ok ns
      end
  | None => Throw TypeError
  end.

(** [dom.firstChild], [None] for [null]. *)
Definition firstChild (d : nat) (ns : list Node) : option nat :=
  match ns !! d with
  | Some n => head (childNodes n)
  | None => None
  end.

Definition children (d : nat) (ns : list Node) : list nat :=
  match ns !! d with
  | Some n => childNodes n
  | None => []
  end.

Definition nodeValue (d : nat) (ns : list Node) : option string :=
  match ns !! d with
  | Some n => match kind n with Text v => Some v | Element _ => None end
  | None => None
  end.

Definition tagName (d : nat) (ns : list Node) : option string :=
  match ns !! d with
  | Some n => match kind n with Element t => Some t | Text _ => None end
  | None => None
  end.

Definition parent (d : nat) (ns : list Node) : option nat :=
  match ns !! d with
  | Some n => parentNode n
  | None => None
  end.

End Dom.

(** ** Skeletons, markup and the application

    [Markup] is what the host parser hands back for a markup string: the
    child nodes of the temporary container.  Every node that is not an
    element (text, comment) carries a [nodeValue]; every attribute of a
    parsed element is [specified]. *)

Inductive Markup :=
| MElement (tagName : string) (attrs : list (string * string))
           (children : list Markup)
| MCharData (nodeValue : string).

(** A skeleton is a string or a record [{tag, attrs, children}]; the
    attribute of an event holds what definition-time resolution returned. *)
Inductive Skeleton :=
| SText (text : string)
| SNode (tag : string) (attrs : list (string * JSVal))
        (children : list Skeleton).

(** An entry of [Lucid.app.page.elements]. *)
Record Entry := mkEntry {
  e_state : JSVal;
  e_dom : nat
}.

(** Everything the engine can change.  A key of [page_elements] holds an
    entry, or [None] for the [undefined] that [disconnectComponent] stores;
    [skeletons] holds the [skeleton] field of each component definition and
    [page_skeleton] that of the page; [log] is memory of the application
    itself, for hooks to write to. *)
Record World := mkWorld {
  nodes : list Node;
  heap : list Obj;
  page_elements : gmap string (option Entry);
  skeletons : gmap string Skeleton;
  page_skeleton : option Skeleton;
  log : list string
}.

Definition with_nodes (ns : list Node) (w : World) : World :=
  mkWorld ns (heap w) (page_elements w) (skeletons w) (page_skeleton w) (log w).

Definition with_heap (h : list Obj) (w : World) : World :=
  mkWorld (nodes w) h (page_elements w) (skeletons w) (page_skeleton w) (log w).

Definition with_elements (m : gmap string (option Entry)) (w : World)
  : World :=
  mkWorld (nodes w) (heap w) m (skeletons w) (page_skeleton w) (log w).

Definition with_skeletons (m : gmap string Skeleton) (w : World) : World :=
  mkWorld (nodes w) (heap w) (page_elements w) m (page_skeleton w) (log w).

Definition with_page_skeleton (s : option Skeleton) (w : World) : World :=
  mkWorld (nodes w) (heap w) (page_elements w) (skeletons w) s (log w).

Definition with_log (l : list string) (w : World) : World :=
  mkWorld (nodes w) (heap w) (page_elements w) (skeletons w) (page_skeleton w)
          l.

(** The object [getThisParameter] returns, without its [setState] member,
    which is the function [setState] below applied to this record. *)
Record This := mkThis {
  this_name : JSVal;
  this_key : JSVal;
  this_dom : option nat;
  this_state : JSVal
}.

(** A hook is user code: it receives its context and does what it wants to
    the world. *)
Definition Hook := This -> World -> Res World.

Record Hooks := mkHooks {
  created : option Hook;
  connected : option Hook;
  disconnected : option Hook;
  updated : option Hook
}.

(** What [createComponent] returns; [render] is given by the markup it
    produces. *)
Record Component := mkComponent {
  c_name : string;
  c_state : JSVal;
  c_methods : JSVal;
  c_render : list Markup;
  c_hooks : option Hooks;
  c_attributes : JSVal;
  c_watch : JSVal
}.

Definition createComponent (name : string) (state methods : JSVal)
  (render : list Markup) (hooks : option Hooks) (attributes watch : JSVal)
  : Component :=
  mkComponent name state methods render hooks attributes watch.

(** A page hook is called without a context. *)
Record PageHooks := mkPageHooks {
  p_created : option (World -> Res World);
  p_connected : option (World -> Res World)
}.

Record Page := mkPage {
  p_contents : list Markup;
  p_hooks : option PageHooks
}.

(** [createPage]: of its properties the engine reads [contents] and
    [hooks]; the registry [elements] it starts empty is part of the
    world. *)
Definition createPage (contents : list Markup) (hooks : option PageHooks)
  : Page :=
  mkPage contents hooks.

Record App := mkApp {
  page : Page;
  components : gmap string Component
}.

(** [createApp]: the value of [Lucid.app], whose member [run] is [run]
    below. *)
Definition createApp (page : Page) (components : gmap string Component)
  : App :=
  mkApp page components.

(** Reading a member of [table[k]] when [k] is no key of the table:
    [undefined] has no member, but a name that every object inherits finds
    an object of the host. *)
Definition absent {A} (k : string) : Res A :=
  if inherited k then Unsupported else Throw TypeError.

(** ** The engine *)

Section Engine.

Variable app : App.

(** [Lucid.app.components[componentName]], for reading a member. *)
Definition getComponent (name : JSVal) (w : World) : Res Component :=
  let* k := toStr (heap w) name in
  match components app !! k with
  | Some c => Ok c
  | None => absent k
  end.

(** [Lucid.app.page.elements[elementKey]], for reading a member. *)
Definition getEntry (elementKey : string) (w : World) : Res Entry :=
  match page_elements w !! elementKey with
  | Some (Some e) => Ok e
  | Some None => Throw TypeError
  | None => absent elementKey
  end.

(** A member of a registry entry [{state, dom}]. *)
Definition entryProp (e : Entry) (p : string) : Res JSVal :=
  if String.eqb p "state" then Ok (e_state e)
  else if String.eqb p "dom" then Ok (VDom (e_dom e))
  else missing p.

(** A member of a component definition. *)
Definition componentProp (c : Component) (p : string) : Res JSVal :=
  if String.eqb p "name" then Ok (VStr (c_name c))
  else if String.eqb p "state" then Ok (c_state c)
  else if String.eqb p "methods" then Ok (c_methods c)
  else if String.eqb p "attributes" then Ok (c_attributes c)
  else if String.eqb p "watch" then Ok (c_watch c)
  else if String.eqb p "render" || String.eqb p "hooks"
          || String.eqb p "skeleton" then Unsupported
  else missing p.

(** [for (i ...) tempObj = tempObj[properties[i]]] after the first
    step. *)
Fixpoint walk (h : list Obj) (v : JSVal) (properties : list string)
  : Res JSVal :=
  match properties with
  | [] => Ok v
  | p :: ps => let* v' := getProp h v p in walk h v' ps
  end.

(** The path lookup from a root object that is not a heap record. *)
Definition resolve {R} (root : Res R) (member : R -> string -> Res JSVal)
  (h : list Obj) (properties : list string) : Res JSVal :=
  match properties with
  | [] => Unsupported
  | p :: ps =>
      let* r := root in
      let* v := member r p in
      walk h v ps
  end.

(** The [while] loop of [convertTextVariables].  Both indices are reset to
    [0] at the end of the body, so the text is the only state it carries
    from one turn to the next. *)
Fixpoint interpolate (fuel : nat) (w : World) (elementKey : string)
  (text : string) : Res string :=
  let startIndex := JS.indexOf text "{{" 0 in
  if (startIndex >? -1)%Z then
    let endIndex := JS.indexOf text "}}" (startIndex + 2) in
    if (endIndex =? 0)%Z then Ok text
    else
      match fuel with
      | O => Timeout
      | S fuel' =>
          let variable := JS.substring text (startIndex + 2) endIndex in
          let properties := JS.split_dot variable in
          let* tempObj :=
            resolve (getEntry elementKey w) entryProp (heap w) properties in
          let* text' :=
            replaceWith (heap w) text ("{{" ++ variable ++ "}}") tempObj in
          interpolate fuel' w elementKey text'
      end
  else Ok text.

Definition convertTextVariables (fuel : nat) (text componentName
  componentKey : JSVal) (w : World) : Res JSVal :=
  let* componentKey := toStringMethod componentKey in
  if String.eqb componentKey "" then
    match text with
    | VStr text =>
        let startIndex := JS.indexOf text "{{" 0 in
        let endIndex := JS.indexOf text "}}" (startIndex + 2) in
        let variable := JS.substring text (startIndex + 2) endIndex in
        let properties := JS.split_dot variable in
        resolve (getComponent componentName w) componentProp (heap w)
                properties
    | VObj _ => Unsupported
    | _ => Throw TypeError
    end
  else
    let* elementKey := add (heap w) componentName (VStr componentKey) in
    match text with
    | VStr text =>
        let* text' := interpolate fuel w elementKey text in
        Ok (VStr text')
    | VObj _ => Unsupported
    | _ => Throw TypeError
    end.

(** [getThisParameter]: the bound context of an instance. *)
Definition getThisParameter (componentName componentKey : JSVal) (w : World)
  : Res This :=
  let* elementKey := add (heap w) componentName componentKey in
  let* e := getEntry elementKey w in
  Ok (mkThis componentName componentKey (Dom.firstChild (e_dom e) (nodes w))
             (e_state e)).

(** [hooks && hooks.h && hooks.h.call(getThisParameter(name, key))]. *)
Definition fireHook (h : Hooks -> option Hook) (componentName componentKey
  : JSVal) (w : World) : Res World :=
  let* c := getComponent componentName w in
  match c_hooks c with
  | None => Ok w
  | Some hs =>
      match h hs with
      | None => Ok w
      | Some f =>
          let* this := getThisParameter componentName componentKey w in
          f this w
      end
  end.

(** A method of the host tree, run on the nodes of the world. *)
Definition liftDom (f : list Node -> Res (list Node)) (w : World)
  : Res World :=
  let* ns := f (nodes w) in Ok (with_nodes ns w).

(** [document.createElement(tag)]: the new node is the next of the store.
    The engine passes [div] or the [tagName] of a parsed element, names
    that the host accepts. *)
Definition createElement (tag : string) (w : World) : nat * World :=
  (length (nodes w), with_nodes (nodes w ++ [Dom.newElement tag]) w).

Definition createTextNode (data : string) (w : World) : nat * World :=
  (length (nodes w), with_nodes (nodes w ++ [Dom.newText data]) w).

(** [for (...) body], the body run on each item in turn, the first failure
    ending the loop. *)
Definition forEach {A} (body : A -> World -> Res World)
  : list A -> World -> Res World :=
  fix each (l : list A) (w : World) : Res World :=
    match l with
    | [] => Ok w
    | x :: l' => let* w' := body x w in each l' w'
    end.

(** [for (i = 0; i < dom.childNodes.length; ++i)
      update(dom.childNodes[i], skeleton.children[i])]:
    the child list of the host is read anew at every turn; a host child
    without a skeleton child makes the callee read a member of
    [undefined]. *)
Definition forEachChild (update : nat -> Skeleton -> World -> Res World)
  (dom : nat) : list Skeleton -> nat -> World -> Res World :=
  fix each (l : list Skeleton) (i : nat) (w : World) : Res World :=
    match Dom.children dom (nodes w) !! i with
    | None => Ok w
    | Some child =>
        match l with
        | [] => Throw TypeError
        | c :: l' => let* w' := update child c w in each l' (S i) w'
        end
    end.

(** [skeleton.attrs[name] = value].  The keys of [attrs] are later visited
    in the order of their first assignment, but for a key that reads as an
    index, which is visited before the others; and an assignment to
    [__proto__] stores no key. *)
Definition storeAttr (name : string) (value : JSVal)
  (attrs : list (string * JSVal)) : Res (list (string * JSVal)) :=
  if JS.isIndex name || String.eqb name "__proto__" then Unsupported
  else Ok (assoc_set name value attrs).

Fixpoint createSkeleton (fuel : nat) (child : Markup) (componentName : JSVal)
  (w : World) : Res (option Skeleton) :=
  match child with
  | MCharData value =>
      let nodeValue := JS.trim value in
      if String.eqb nodeValue "" then Ok None else Ok (Some (SText nodeValue))
  | MElement tagName attributes childNodes =>
      let* attrs :=
        (fix each (l : list (string * string)) (acc : list (string * JSVal)) :=
           match l with
           | [] => Ok acc
           | (name, value) :: l' =>
               if JS.startsWith name "on" then
                 let* func :=
                   convertTextVariables fuel (VStr value) componentName
                                        VUndef w in
                 let* acc' := storeAttr name func acc in
                 each l' acc'
               else
                 let* acc' := storeAttr name (VStr value) acc in
                 each l' acc'
           end) attributes [] in
      let* children :=
        (fix each (l : list Markup) (acc : list Skeleton) :=
           match l with
           | [] => Ok acc
           | c :: l' =>
               let* childSkeleton := createSkeleton fuel c componentName w in
               match childSkeleton with
               | Some s => each l' (acc ++ [s])%list
               | None => each l' acc
               end
           end) childNodes [] in
      Ok (Some (SNode tagName attrs children))
  end.

(** [for (i ...) if (elem.childNodes[i].nodeType === Node.ELEMENT_NODE)]:
    the first element among the parsed nodes. *)
Fixpoint firstElement (l : list Markup) : option Markup :=
  match l with
  | [] => None
  | MElement t a c :: _ => Some (MElement t a c)
  | MCharData _ :: l' => firstElement l'
  end.

(** [Lucid.app.components[componentName].skeleton]: the field of the
    definition registered under that name, [None] for [undefined]. *)
Definition cachedSkeleton (componentName : JSVal) (w : World)
  : Res (option Skeleton) :=
  let* _ := getComponent componentName w in
  let* k := toStr (heap w) componentName in
  Ok (skeletons w !! k).

(** The block [if (!Lucid.app.components[componentName].skeleton) {...}],
    which [renderComponent] and [connectPage] both open with. *)
Definition buildSkeleton (fuel : nat) (componentName : JSVal) (w : World)
  : Res World :=
  let* cached := cachedSkeleton componentName w in
  match cached with
  | Some _ => Ok w
  | None =>
      let* c := getComponent componentName w in
      let* k := toStr (heap w) componentName in
      match firstElement (c_render c) with
      | Some child =>
          let* s := createSkeleton fuel child componentName w in
          match s with
          | Some sk => Ok (with_skeletons (<[k := sk]> (skeletons w)) w)
          | None => Ok w
          end
      | None => Ok w
      end
  end.

(** The cached skeleton passed on as an argument: an absent one makes the
    callee throw on its first member access. *)
Definition getSkeleton (componentName : JSVal) (w : World) : Res Skeleton :=
  let* cached := cachedSkeleton componentName w in
  match cached with
  | Some sk => Ok sk
  | None => Throw TypeError
  end.

(** The body of [for (const key in skeleton.attrs)] in
    [connectComponent]. *)
Definition connectAttr (fuel : nat) (elem : nat) (componentName componentKey
  : JSVal) (attr : string * JSVal) (w : World) : Res World :=
  let (key, value) := attr in
  if JS.startsWith key "on" then
    liftDom (Dom.addEventListener elem
               (mkListener (JS.substr key 2) value componentName componentKey))
            w
  else
    let* result := convertTextVariables fuel value componentName
                                        componentKey w in
    let* s := toStr (heap w) result in
    liftDom (Dom.setAttribute elem key s) w.

Fixpoint connectComponent (fuel : nat) (dom : nat) (skeleton : Skeleton)
  (componentName componentKey : JSVal) (w : World) : Res World :=
  match skeleton with
  | SText text =>
      let* v := convertTextVariables fuel (VStr text) componentName
                                     componentKey w in
      let* data := toStr (heap w) v in
      let (textNode, w1) := createTextNode data w in
      liftDom (Dom.appendChild dom textNode) w1
  | SNode tag attrs children =>
      let (elem, w1) := createElement tag w in
      let* w2 :=
        forEach (connectAttr fuel elem componentName componentKey) attrs w1 in
      let* w3 :=
        forEach (fun c => connectComponent fuel elem c componentName
                                           componentKey) children w2 in
      liftDom (Dom.appendChild dom elem) w3
  end.

Definition renderComponent (fuel : nat) (dom : nat) (componentName
  componentKey : JSVal) (w : World) : Res World :=
  let* w := buildSkeleton fuel componentName w in
  let (elem, w) := createElement "div" w in
  let* name := toStr (heap w) componentName in
  let* w := liftDom (Dom.setAttribute elem "lucid-component" name) w in
  let* key := toStr (heap w) componentKey in
  let* w := liftDom (Dom.setAttribute elem "lucid-key" key) w in
  let* elementKey := add (heap w) componentName componentKey in
  let* c := getComponent componentName w in
  let w := with_elements
             (<[elementKey := Some (mkEntry (c_state c) elem)]>
                (page_elements w)) w in
  let* w := fireHook created componentName componentKey w in
  let* skeleton := getSkeleton componentName w in
  let* w := connectComponent fuel elem skeleton componentName componentKey w in
  let* w := liftDom (Dom.appendChild dom elem) w in
  fireHook connected componentName componentKey w.

(** [Lucid.app.page.elements[elementKey] = undefined].  The registry is a
    plain object, and its key [__proto__] names its prototype: an entry
    assigned to that key is what the key reads afterwards, but an
    assignment of [undefined] to it is ignored. *)
Definition clearEntry (elementKey : string) (w : World) : World :=
  if String.eqb elementKey "__proto__" then w
  else with_elements (<[elementKey := None]> (page_elements w)) w.

Definition disconnectComponent (componentName componentKey : JSVal)
  (w : World) : Res World :=
  let* elementKey := add (heap w) componentName componentKey in
  let* e := getEntry elementKey w in
  let* w := liftDom (Dom.removeFromParent (e_dom e)) w in
  let* w := fireHook disconnected componentName componentKey w in
  Ok (clearEntry elementKey w).

(** What the [nodeValue] setter stores: the empty string for [null] and
    [undefined]. *)
Definition nodeValueOf (h : list Obj) (v : JSVal) : Res string :=
  match v with
  | VUndef | VNull => Ok ""
  | _ => toStr h v
  end.

Definition isFunction (v : JSVal) : bool :=
  match v with VFun _ => true | _ => false end.

(** [dom.setAttribute(key, result)] on a [dom] that may be [null]. *)
Definition setAttributeOf (dom : option nat) (key s : string) (w : World)
  : Res World :=
  match dom with
  | Some d => liftDom (Dom.setAttribute d key s) w
  | None => Throw TypeError
  end.

(** The body of [for (const key in skeleton.attrs)] in
    [updateComponent]. *)
Definition updateAttr (fuel : nat) (dom : option nat) (componentName
  componentKey : JSVal) (attr : string * JSVal) (w : World) : Res World :=
  let (key, value) := attr in
  if isFunction value then Ok w
  else
    let* result := convertTextVariables fuel value componentName
                                        componentKey w in
    let* s := toStr (heap w) result in
    setAttributeOf dom key s w.

(** [updateComponent]; [dom] is [None] for [null]. *)
Fixpoint updateComponent (fuel : nat) (dom : option nat) (skeleton : Skeleton)
  (componentName componentKey : JSVal) (w : World) : Res World :=
  match skeleton with
  | SText text =>
      let* v := convertTextVariables fuel (VStr text) componentName
                                     componentKey w in
      let* s := nodeValueOf (heap w) v in
      match dom with
      | Some d => liftDom (Dom.setNodeValue d s) w
      | None => Throw TypeError
      end
  | SNode tag attrs children =>
      let* w1 :=
        forEach (updateAttr fuel dom componentName componentKey) attrs w in
      match dom with
      | None => Throw TypeError
      | Some d =>
          forEachChild
            (fun child c => updateComponent fuel (Some child) c componentName
                                            componentKey)
            d children O w1
      end
  end.

(** The [setState] member of the context [this]. *)
Definition setState (fuel : nat) (this : This) (newState : JSVal) (w : World)
  : Res World :=
  let componentName := this_name this in
  let componentKey := this_key this in
  let* elementKey := add (heap w) componentName componentKey in
  let* e := getEntry elementKey w in
  let w := with_elements
             (<[elementKey := Some (mkEntry newState (e_dom e))]>
                (page_elements w)) w in
  let* e := getEntry elementKey w in
  let* skeleton := getSkeleton componentName w in
  let* w := updateComponent fuel (Dom.firstChild (e_dom e) (nodes w)) skeleton
                            componentName componentKey w in
  let* c := getComponent componentName w in
  match c_hooks c with
  | None => Ok w
  | Some hs =>
      match updated hs with
      | None => Ok w
      | Some f => f this w
      end
  end.

(** The branch of [connectPage] for a lucid component. *)
Definition connectPlaceholder (fuel : nat) (elem : nat) (componentName
  componentKey : JSVal) (w : World) : Res World :=
  let* w := buildSkeleton fuel componentName w in
  let* elementKey := add (heap w) componentName componentKey in
  let* c := getComponent componentName w in
  let w := with_elements
             (<[elementKey := Some (mkEntry (c_state c) elem)]>
                (page_elements w)) w in
  let* w := fireHook created componentName componentKey w in
  let* e := getEntry elementKey w in
  let* skeleton := getSkeleton componentName w in
  let* w := connectComponent fuel (e_dom e) skeleton componentName
                             componentKey w in
  fireHook connected componentName componentKey w.

(** The body of [for (const key in skeleton.attrs)] in [connectPage]. *)
Definition pageAttr (elem : nat) (attr : string * JSVal) (w : World)
  : Res World :=
  let (key, value) := attr in
  let* s := toStr (heap w) value in
  liftDom (Dom.setAttribute elem key s) w.

Fixpoint connectPage (fuel : nat) (dom : nat) (skeleton : Skeleton)
  (w : World) : Res World :=
  match skeleton with
  | SText text =>
      let (textNode, w1) := createTextNode text w in
      liftDom (Dom.appendChild dom textNode) w1
  | SNode tag attrs children =>
      let (elem, w1) := createElement tag w in
      let* w2 := forEach (pageAttr elem) attrs w1 in
      let componentName := Dom.getAttribute elem "lucid-component" (nodes w2) in
      let componentKey := Dom.getAttribute elem "lucid-key" (nodes w2) in
      let* w3 :=
        if truthy componentName || truthy componentKey
        then connectPlaceholder fuel elem componentName componentKey w2
        else Ok w2 in
      let* w4 := forEach (fun c => connectPage fuel elem c) children w3 in
      liftDom (Dom.appendChild dom elem) w4
  end.

Definition firePageHook (h : PageHooks -> option (World -> Res World))
  (w : World) : Res World :=
  match p_hooks (page app) with
  | None => Ok w
  | Some hs =>
      match h hs with
      | None => Ok w
      | Some f => f w
      end
  end.

(** [Lucid.app.run(containerId)], given the node the host finds under that
    identifier. *)
Definition run (fuel : nat) (container : nat) (w : World) : Res World :=
  match firstElement (p_contents (page app)) with
  | Some child =>
      let* s := createSkeleton fuel child VUndef w in
      let w := with_page_skeleton s w in
      let* w := firePageHook p_created w in
      match page_skeleton w with
      | Some skeleton =>
          let* w := connectPage fuel container skeleton w in
          firePageHook p_connected w
      | None => Throw TypeError
      end
  | None => Ok w
  end.

End Engine.

(** * The vocabulary of the properties *)

Definition StructuralMismatchError : Exception :=
  JSError "StructuralMismatchError".

(** [raisesOnly e r]: if [r] is an exception, it is [e]. *)
Definition raisesOnly {A} (e0 : Exception) (r : Res A) : Prop :=
  forall e, r = Throw e -> e = e0.

(** What of a node an update pass must leave alone: its tag, its children,
    its parent and its event subscriptions. *)
Definition shape (n : Node)
  : option string * list nat * option nat * list Listener :=
  (match kind n with Element t => Some t | Text _ => None end,
   childNodes n, parentNode n, listeners n).

Definition sameShape (ns ns' : list Node) : Prop :=
  shape <$> ns' = shape <$> ns.

(** [domOnly w w']: only the node store differs. *)
Definition domOnly (w w' : World) : Prop := w' = with_nodes (nodes w') w.

(** [updates w w']: only texts and attributes of existing nodes differ. *)
Definition updates (w w' : World) : Prop :=
  domOnly w w' /\ sameShape (nodes w) (nodes w').

(** [sameRegistry w w']: the object heap and the registry are the same. *)
Definition sameRegistry (w w' : World) : Prop :=
  heap w' = heap w /\ page_elements w' = page_elements w.

(** A hook is quiet when it leaves the heap and the registry as it found
    them. *)
Definition quietHook (h : option Hook) : Prop :=
  forall f this w w', h = Some f -> f this w = Ok w' -> sameRegistry w w'.

Definition quietRecord (hs : Hooks) : Prop :=
  quietHook (created hs) /\ quietHook (connected hs)
  /\ quietHook (disconnected hs) /\ quietHook (updated hs).

Definition quietApp (app : App) : Prop :=
  forall k c hs,
    components app !! k = Some c -> c_hooks c = Some hs -> quietRecord hs.

(** [mounts app fuel name key root w w']: the instance [(name, key)] is
    mounted from [w] to [w'] on one of the two paths of the engine, by
    [renderComponent] into some container, with a new wrapper for host
    root, or for a placeholder of the page, with the element [root] of the
    placeholder for host root. *)
Definition mounts (app : App) (fuel : nat) (name key : JSVal) (root : nat)
  (w w' : World) : Prop :=
  (exists dom, renderComponent app fuel dom name key w = Ok w'
               /\ root = length (nodes w))
  \/ connectPlaceholder app fuel root name key w = Ok w'.

Definition noHooks (app : App) : Prop :=
  forall k c, components app !! k = Some c -> c_hooks c = None.

(** ** The applications and worlds of the scenarios *)

Definition emptyApp : App := createApp (createPage [] None) ∅.

(** A component with no methods and no hooks that renders
    [<span>text</span>]. *)
Definition spanComponent (name text : string) (state : JSVal) : Component :=
  createComponent name state VUndef [MElement "SPAN" [] [MCharData text]]
                  None VUndef VUndef.

Definition spanApp (name text : string) (state : JSVal) : App :=
  createApp (createPage [] None)
            {[ name := spanComponent name text state ]}.

(** The skeleton of [<span>{{state.count}}</span>]. *)
Definition spanSkeleton : Skeleton :=
  SNode "SPAN" [] [SText "{{state.count}}"].

(** A container [div], the record [{count: 0}] at address [0] and the
    record [{count: 5}] at address [1]. *)
Definition startWorld : World :=
  mkWorld [Dom.newElement "div"]
          [[("count", VNum 0)]; [("count", VNum 5)]] ∅ ∅ None [].

(** Two components the names of which collide with suitable keys. *)
Definition pairApp : App :=
  createApp (createPage [] None)
        {[ "a" := spanComponent "a" "{{state.count}}" (VObj 0);
           "ab" := spanComponent "ab" "{{state.count}}" (VObj 1) ]}.

Definition orElse {A} (r : Res A) (d : A) : A :=
  match r with Ok a => a | _ => d end.

(** The world after the mount of [('a', 'bc')], then of [('ab', 'c')]. *)
Definition afterFirst : World :=
  Eval vm_compute in
    orElse (renderComponent pairApp 1 0 (VStr "a") (VStr "bc") startWorld)
           startWorld.

Definition afterSecond : World :=
  Eval vm_compute in
    orElse (renderComponent pairApp 1 0 (VStr "ab") (VStr "c") afterFirst)
           startWorld.

(** The same second mount, for a placeholder of the page that is the
    node [0]. *)
Definition afterPlaceholder : World :=
  Eval vm_compute in
    orElse (connectPlaceholder pairApp 1 0 (VStr "ab") (VStr "c") afterFirst)
           startWorld.

(** The context of the pair [('a', 'bc')] after the second mount, the
    world after a [setState] through it, and the world after a disconnect
    of that pair. *)
Definition pairThis : This :=
  Eval vm_compute in
    orElse (getThisParameter (VStr "a") (VStr "bc") afterSecond)
           (mkThis VUndef VUndef None VUndef).

Definition pairSet : World :=
  Eval vm_compute in
    orElse (setState pairApp 1 pairThis (VObj 0) afterSecond) startWorld.

Definition pairGone : World :=
  Eval vm_compute in
    orElse (disconnectComponent pairApp (VStr "a") (VStr "bc") pairSet)
           startWorld.

(** The world after two mounts of the one component of [spanApp]. *)
Definition counterApp : App := spanApp "counter" "{{state.count}}" (VObj 0).

Definition oneInstance : World :=
  Eval vm_compute in
    orElse (renderComponent counterApp 1 0 (VStr "counter") (VStr "k")
                            startWorld)
           startWorld.

(** The context of the instance of [oneInstance]. *)
Definition counterThis : This :=
  mkThis (VStr "counter") (VStr "k") (Some 2%nat) (VObj 0).

Definition twoInstances : World :=
  Eval vm_compute in
    orElse (renderComponent counterApp 1 0 (VStr "counter") (VStr "j")
                            oneInstance)
           startWorld.

(** Two elements, and two instances of that component mounted for them as
    for placeholders of the page; the context of the first instance. *)
Definition twoSlots : World :=
  mkWorld [Dom.newElement "div"; Dom.newElement "div"]
          [[("count", VNum 0)]; [("count", VNum 5)]] ∅ ∅ None [].

Definition onePlaceholder : World :=
  Eval vm_compute in
    orElse (connectPlaceholder counterApp 1 0 (VStr "counter") (VStr "k")
                               twoSlots)
           startWorld.

Definition twoPlaceholders : World :=
  Eval vm_compute in
    orElse (connectPlaceholder counterApp 1 1 (VStr "counter") (VStr "j")
                               onePlaceholder)
           startWorld.

Definition placeholderThis : This :=
  Eval vm_compute in
    orElse (getThisParameter (VStr "counter") (VStr "k") twoPlaceholders)
           (mkThis VUndef VUndef None VUndef).

Definition placeholderSet : World :=
  Eval vm_compute in
    orElse (setState counterApp 1 placeholderThis (VObj 1) twoPlaceholders)
           startWorld.

(** The world after a [setState] through the first of the two instances of
    [twoInstances]. *)
Definition sharedSet : World :=
  Eval vm_compute in
    orElse (setState counterApp 1 counterThis (VObj 1) twoInstances)
           startWorld.

(** A component whose methods hold [increment], and the world with the
    record of its methods at address [0]. *)
Definition methodsApp : App :=
  createApp (createPage [] None)
            {[ "counter" := createComponent "counter" VUndef (VObj 0) [] None
                                            VUndef VUndef ]}.

Definition methodsWorld : World :=
  mkWorld [] [[("increment", VFun "increment")]] ∅ ∅ None [].

(** A [span] that has lost one of the two text nodes it was mounted
    with. *)
Definition staleHost : World :=
  mkWorld [mkNode (Element "SPAN") [] [1%nat] None [];
           mkNode (Text "a") [] [] (Some 0%nat) []]
          [] ∅ ∅ None [].

(** Mount an instance, take its context, replace its state. *)
Definition mountThenSetState (app : App) (fuel : nat) (dom : nat)
  (componentName componentKey newState : JSVal) (w : World)
  : Res (World * World) :=
  let* w1 := renderComponent app fuel dom componentName componentKey w in
  let* this := getThisParameter componentName componentKey w1 in
  let* w2 := setState app fuel this newState w1 in
  Ok (w1, w2).

(** C7 in the words of the specification: a divergence of the child counts
    is answered by a [StructuralMismatchError]. *)
Definition checksChildCount (app : App) : Prop :=
  forall fuel d tag attrs cs name key w,
    length (Dom.children d (nodes w)) <> length cs ->
    updateComponent app fuel (Some d) (SNode tag attrs cs) name key w
    = Throw StructuralMismatchError.


(** The links of a node: its children and its parent. *)
Definition links (n : Node) : list nat * option nat :=
  (childNodes n, parentNode n).

Definition linkMap (w : World) : list (list nat * option nat) :=
  links <$> nodes w.

Definition addChildren (ids : list nat) (l : list nat * option nat)
  : list nat * option nat :=
  ((fst l ++ ids)%list, snd l).

(** [grows d ids L L']: the node [d] has the children [ids] after those
    it had, the other nodes of [L] have the links they had. *)
Definition grows (d : nat) (ids : list nat)
  (L L' : list (list nat * option nat)) : Prop :=
  (d < length L)%nat /\ (length L <= length L')%nat
  /\ L' !! d = addChildren ids <$> L !! d
  /\ forall j, (j < length L)%nat -> j <> d -> L' !! j = L !! j.

(** [appended d L L']: the first node created after [L] is the new last
    child of [d]. *)
Definition appended (d : nat) (L L' : list (list nat * option nat)) : Prop :=
  grows d [length L] L L' /\ (length L < length L')%nat
  /\ snd <$> L' !! length L = Some (Some d).

(** [registered w k]: the registry holds an entry under the key [k]. *)
Definition registered (w : World) (k : string) : Prop :=
  exists e, page_elements w !! k = Some (Some e).

(** The host root of the instance registered under the key [k]. *)
Definition rootOf (w : World) (k : string) : option nat :=
  match page_elements w !! k with
  | Some (Some e) => Some (e_dom e)
  | _ => None
  end.

(** [extends w w']: what was cached is cached, what was registered is
    registered. *)
Definition extends (w w' : World) : Prop :=
  (forall k sk, skeletons w !! k = Some sk -> skeletons w' !! k = Some sk)
  /\ (forall k, registered w k -> registered w' k).

(** C4 in the words of the specification: the page children of a
    placeholder are not mounted, the root of the instance is the only child
    of the placeholder. *)
Definition placeholderChildrenSkipped (app : App) : Prop :=
  forall fuel d tag name key cs w w',
    connectPage app fuel d
      (SNode tag [("lucid-component", VStr name); ("lucid-key", VStr key)] cs)
      w = Ok w' ->
    Dom.children (length (nodes w)) (nodes w') = [S (length (nodes w))].

(** The page [<div lucid-component="counter" lucid-key="k">inside</div>]
    mounted into the container of [startWorld]. *)
Definition placeholderPage : Skeleton :=
  SNode "DIV" [("lucid-component", VStr "counter"); ("lucid-key", VStr "k")]
        [SText "inside"].

Definition pageMounted : World :=
  Eval vm_compute in
    orElse (connectPage counterApp 1 0 placeholderPage startWorld) startWorld.

(** ** Hooks that write to the log *)

Definition logHook (label : string) : Hook :=
  fun _ w => Ok (with_log (log w ++ [label]) w).

(** A hook that writes the [count] it reads through [this.state]. *)
Definition countHook (label : string) : Hook :=
  fun this w =>
    let* v := getProp (heap w) (this_state this) "count" in
    let* s := toStr (heap w) v in
    Ok (with_log (log w ++ [label ++ s]) w).

(** A component with an [updated] hook that writes the count it sees, an
    instance of it, and the context of that instance. *)
Definition watchedComponent : Component :=
  createComponent "counter" (VObj 0) VUndef
    [MElement "SPAN" [] [MCharData "{{state.count}}"]]
    (Some (mkHooks None None None (Some (countHook "updated "))))
    VUndef VUndef.

Definition watchedApp : App :=
  createApp (createPage [] None) {[ "counter" := watchedComponent ]}.

Definition watched : World :=
  Eval vm_compute in
    orElse (renderComponent watchedApp 1 0 (VStr "counter") (VStr "k")
                            startWorld)
           startWorld.

Definition watchedThis : This :=
  Eval vm_compute in
    orElse (getThisParameter (VStr "counter") (VStr "k") watched)
           (mkThis VUndef VUndef None VUndef).

(** The world the update pass of [setState] leaves, from [watched] and the
    new state [{count: 5}], before the hook runs. *)
Definition watchedSet : World :=
  Eval vm_compute in
    orElse (updateComponent watchedApp 1 (Some 2%nat) spanSkeleton
              (VStr "counter") (VStr "k")
              (with_elements
                 (<["counterk" := Some (mkEntry (VObj 1) 1)]>
                    (page_elements watched)) watched))
           startWorld.

(** What a hook sees of its instance: whether the host root, the parent of
    the rendered root [this.dom], has a parent itself. *)
Definition attachment (this : This) (w : World) : string :=
  match this_dom this with
  | Some root =>
      match Dom.parent root (nodes w) with
      | Some hostRoot =>
          match Dom.parent hostRoot (nodes w) with
          | Some _ => "attached"
          | None => "detached"
          end
      | None => "no host root"
      end
  | None => "no root"
  end.

Definition connectedHook : Hook :=
  fun this w => Ok (with_log (log w ++ ["connected " ++ attachment this w]) w).

Definition hookedComponent : Component :=
  createComponent "counter" (VObj 0) VUndef
    [MElement "SPAN" [] [MCharData "{{state.count}}"]]
    (Some (mkHooks (Some (logHook "created")) (Some connectedHook) None None))
    VUndef VUndef.

(** The page [<div lucid-component="counter" lucid-key="k"></div>]. *)
Definition hookedApp : App :=
  createApp
    (createPage [MElement "DIV" [("lucid-component", "counter");
                                 ("lucid-key", "k")] []] None)
    {[ "counter" := hookedComponent ]}.

(** C1 in the words of the specification, for the render output
    [<span>text</span>]: after the mount and the [setState], the host root
    of the instance has the same [span] for first child as before, and the
    text node under it reads [5]. *)
Definition stateReplaced (text : string) : Prop :=
  exists w1 w2 hostRoot span textNode,
    mountThenSetState (spanApp "counter" text (VObj 0)) 1 0
                      (VStr "counter") (VStr "k") (VObj 1) startWorld
    = Ok (w1, w2)
    /\ rootOf w1 "counterk" = Some hostRoot
    /\ Dom.firstChild hostRoot (nodes w1) = Some span
    /\ Dom.tagName span (nodes w1) = Some "SPAN"
    /\ Dom.firstChild hostRoot (nodes w2) = Some span
    /\ Dom.tagName span (nodes w2) = Some "SPAN"
    /\ Dom.children span (nodes w2) = [textNode]
    /\ Dom.nodeValue textNode (nodes w2) = Some "5".

(** * The vocabulary of further properties *)

(** The number of host nodes a mount creates for a skeleton: one for a
    text, one for an element and those of its children. *)
Fixpoint size (sk : Skeleton) : nat :=
  match sk with
  | SText _ => 1
  | SNode _ _ children => S (sum_list (map size children))
  end.

(** [mountedUnder d n ns ns']: [ns'] is [ns] followed by [n] new nodes, of
    which the first is the new last child of [d]; but for that child of
    [d], no node of [ns] has changed. *)
Definition mountedUnder (d n : nat) (ns ns' : list Node) : Prop :=
  exists dn root new,
    ns !! d = Some dn
    /\ ns' = (<[d := Dom.with_children (childNodes dn ++ [length ns]) dn]> ns
              ++ root :: new)%list
    /\ S (length new) = n
    /\ parentNode root = Some d.

(** The world after a second mount of the instance of [oneInstance]. *)
Definition remounted : World :=
  Eval vm_compute in
    orElse (renderComponent counterApp 1 0 (VStr "counter") (VStr "k")
                            oneInstance)
           startWorld.

(** A component the name of which makes the registry key [__proto__]
    with the instance key [__], and the world after the mount of that
    instance. *)
Definition protoApp : App := spanApp "__proto" "{{state.count}}" (VObj 0).

Definition protoMounted : World :=
  Eval vm_compute in
    orElse (renderComponent protoApp 1 0 (VStr "__proto") (VStr "__")
                            startWorld)
           startWorld.

(** What [createSkeleton] lets through: a text that is not empty and has
    no white space at its ends; an element of which every attribute is a
    string, under a name that is not the name of an event. *)
Definition plainAttr (a : string * JSVal) : bool :=
  negb (JS.startsWith (fst a) "on") && isString (snd a).

Fixpoint built (sk : Skeleton) : bool :=
  match sk with
  | SText t => negb (String.eqb t "") && String.eqb (JS.trim t) t
  | SNode _ attrs children =>
      forallb plainAttr attrs && forallb built children
  end.

(** An event attribute somewhere in a markup. *)
Fixpoint hasEvent (m : Markup) : bool :=
  match m with
  | MCharData _ => false
  | MElement _ attrs children =>
      existsb (fun a => JS.startsWith (fst a) "on") attrs
      || existsb hasEvent children
  end.

(** The attribute names that a record of attributes stores in the order
    of their assignment. *)
Definition storableName (name : string) : bool :=
  negb (JS.isIndex name || String.eqb name "__proto__").

Fixpoint storable (m : Markup) : bool :=
  match m with
  | MCharData _ => true
  | MElement _ attrs children =>
      forallb (fun a => storableName (fst a)) attrs
      && forallb storable children
  end.

(** A node of a markup that carries no text: white space only. *)
Definition blank (m : Markup) : bool :=
  match m with
  | MCharData v => String.eqb (JS.trim v) ""
  | MElement _ _ _ => false
  end.

(** The two loops of [createSkeleton], under a name: the one over
    [child.attributes], given what resolves the value of an event
    attribute, and the one over [child.childNodes], given what builds the
    skeleton of a child. *)
Definition attributeLoop (resolveEvent : string -> Res JSVal)
  : list (string * string) -> list (string * JSVal)
    -> Res (list (string * JSVal)) :=
  fix each (l : list (string * string)) (acc : list (string * JSVal)) :=
    match l with
    | [] => Ok acc
    | (name, value) :: l' =>
        if JS.startsWith name "on" then
          let* func := resolveEvent value in
          let* acc' := storeAttr name func acc in
          each l' acc'
        else
          let* acc' := storeAttr name (VStr value) acc in
          each l' acc'
    end.

Definition childLoop (create : Markup -> Res (option Skeleton))
  : list Markup -> list Skeleton -> Res (list Skeleton) :=
  fix each (l : list Markup) (acc : list Skeleton) :=
    match l with
    | [] => Ok acc
    | c :: l' =>
        let* childSkeleton := create c in
        match childSkeleton with
        | Some s => each l' (acc ++ [s])%list
        | None => each l' acc
        end
    end.

(** A skeleton in which no element carries a marker attribute. *)
Definition isMarker (a : string * JSVal) : bool :=
  String.eqb (fst a) "lucid-component" || String.eqb (fst a) "lucid-key".

Fixpoint noMarkers (sk : Skeleton) : bool :=
  match sk with
  | SText _ => true
  | SNode _ attrs children =>
      negb (existsb isMarker attrs) && forallb noMarkers children
  end.

(** A skeleton with something to interpolate at a mount: a text, or an
    attribute that is not an event attribute. *)
Fixpoint hasContent (sk : Skeleton) : bool :=
  match sk with
  | SText _ => true
  | SNode _ attrs children =>
      existsb (fun a => negb (JS.startsWith (fst a) "on")) attrs
      || existsb hasContent children
  end.

(** A button that asks for a method of its component, as the contents of
    the page and as the render output of the component [counter]. *)
Definition buttonMarkup : Markup :=
  MElement "BUTTON" [("class", "b"); ("onclick", "{{methods.increment}}")]
           [MCharData "+"].

Definition buttonApp : App :=
  createApp (createPage [MCharData " "; buttonMarkup] None)
            {[ "counter" := createComponent "counter" (VObj 0) VUndef
                                           [buttonMarkup] None VUndef VUndef ]}.

(** A skeleton on which a mount and an update pass agree: on an element
    the names of the attributes are distinct, and the value under the name
    of an event is a function, which the update pass leaves alone. *)
Fixpoint uniqueKeys {A} (l : list (string * A)) : bool :=
  match l with
  | [] => true
  | (k, _) :: l' =>
      negb (existsb (fun a => String.eqb (fst a) k) l') && uniqueKeys l'
  end.

Definition settledAttr (a : string * JSVal) : bool :=
  if JS.startsWith (fst a) "on" then isFunction (snd a) else true.

Fixpoint settled (sk : Skeleton) : bool :=
  match sk with
  | SText _ => true
  | SNode _ attrs children =>
      uniqueKeys attrs && forallb settledAttr attrs
      && forallb settled children
  end.

Fixpoint pairwise {A B} (R : A -> B -> Prop) (l : list A) (l' : list B)
  : Prop :=
  match l, l' with
  | [], [] => True
  | a :: l, b :: l' => R a b /\ pairwise R l l'
  | _, _ => False
  end.

(** [renderedAttr ... w n a]: the attribute [a] of a skeleton node is a
    function, or its interpolation in [w] is the value the host node [n]
    has under its name. *)
Definition renderedAttr (app : App) (fuel : nat) (name key : JSVal)
  (w : World) (n : Node) (a : string * JSVal) : Prop :=
  isFunction (snd a) = true
  \/ exists s,
       Dom.plainName (fst a) = true
       /\ convertTextVariables app fuel (snd a) name key w = Ok (VStr s)
       /\ assoc (fst a) (attributes n) = Some s.

(** [rendered ... w sk node]: the subtree of the host node [node] shows
    what the skeleton [sk] gives for the instance in the world [w]. *)
Fixpoint rendered (app : App) (fuel : nat) (name key : JSVal) (w : World)
  (sk : Skeleton) (node : nat) : Prop :=
  match sk with
  | SText text =>
      exists n s,
        nodes w !! node = Some n /\ kind n = Text s
        /\ convertTextVariables app fuel (VStr text) name key w = Ok (VStr s)
  | SNode _ attrs children =>
      exists n,
        nodes w !! node = Some n /\ Dom.isElement n = true
        /\ Forall (renderedAttr app fuel name key w n) attrs
        /\ pairwise (fun c child =>
                       (node < child)%nat
                       /\ rendered app fuel name key w c child)
                    children (childNodes n)
  end.

(** The skeleton of [<span class="c{{state.count}}">{{state.count}}</span>],
    in which an attribute and a text carry a placeholder. *)
Definition badgeSkeleton : Skeleton :=
  SNode "SPAN" [("class", VStr "c{{state.count}}")] [SText "{{state.count}}"].

(** A world in which the instance [("counter", "k")] is registered with a
    wrapper, the node [1], under which nothing has been mounted. *)
Definition justRegistered : World :=
  mkWorld [Dom.newElement "div"; Dom.newElement "div"]
          [[("count", VNum 0)]]
          {[ "counterk" := Some (mkEntry (VObj 0) 1) ]} ∅ None [].

(** * Properties *)

(** ** The string primitives on the inputs of the engine *)

Example indexOf_open : JS.indexOf "a{{b}}" "{{" 0 = 1.
Proof. reflexivity. Qed.

Example indexOf_none : JS.indexOf "{{x" "}}" 2 = -1.
Proof. reflexivity. Qed.

Example substring_swap : JS.substring "{{x" 2 (-1) = "{{".
Proof. reflexivity. Qed.

Example split_path : JS.split_dot "state.count" = ["state"; "count"].
Proof. reflexivity. Qed.

Example replace_first :
  JS.replace "a{{x}}b{{x}}" "{{x}}" "$&!" = "a{{x}}!b{{x}}".
Proof. reflexivity. Qed.

Example trim_both : JS.trim "  a b  " = "a b".
Proof. reflexivity. Qed.

Example number_neg : JS.numberToString (-12) = "-12".
Proof. reflexivity. Qed.

(** ** Reasoning about outcomes *)

Lemma bind_Ok {A B} (m : Res A) (k : A -> Res B) (b : B) :
  bind m k = Ok b -> exists a, m = Ok a /\ k a = Ok b.
Proof. destruct m; simpl; intros H; try discriminate. eauto. Qed.

Ltac inv_bind H :=
  let a := fresh "x" in
  let Ha := fresh "E" in
  apply bind_Ok in H; destruct H as (a & Ha & H).

Tactic Notation "split_bind" hyp(H) "as" ident(a) ident(Ha) :=
  apply bind_Ok in H; destruct H as (a & Ha & H).

Lemma Skeleton_nested_ind (P : Skeleton -> Prop) :
  (forall s, P (SText s)) ->
  (forall tag attrs cs, Forall P cs -> P (SNode tag attrs cs)) ->
  forall s, P s.
Proof.
  intros text_case node_case. fix IH 1. intros [t | tag attrs cs].
  - apply text_case.
  - apply node_case. induction cs as [|c cs IHcs]; constructor.
    + apply IH.
    + apply IHcs.
Qed.

Lemma sameShape_refl ns : sameShape ns ns.
Proof. reflexivity. Qed.

Lemma sameShape_trans a b c : sameShape a b -> sameShape b c -> sameShape a c.
Proof. unfold sameShape. congruence. Qed.

Lemma sameShape_insert ns d n n' :
  ns !! d = Some n -> shape n' = shape n -> sameShape ns (<[d := n']> ns).
Proof.
  intros H E. unfold sameShape. rewrite list_fmap_insert, E.
  apply list_insert_id. rewrite list_lookup_fmap, H. reflexivity.
Qed.

Lemma setNodeValue_shape d s ns ns' :
  Dom.setNodeValue d s ns = Ok ns' -> sameShape ns ns'.
Proof.
  unfold Dom.setNodeValue. destruct (ns !! d) as [n|] eqn:E; [|discriminate].
  destruct (kind n) eqn:K; intros [= <-].
  - apply sameShape_refl.
  - apply (sameShape_insert _ _ n); [done|]. unfold shape. simpl.
    rewrite K. done.
Qed.

Lemma setAttribute_shape d k s ns ns' :
  Dom.setAttribute d k s ns = Ok ns' -> sameShape ns ns'.
Proof.
  unfold Dom.setAttribute. destruct (ns !! d) as [n|] eqn:E; [|discriminate].
  destruct (Dom.isElement n), (Dom.plainName k); intros [= <-].
  apply (sameShape_insert _ _ n); done.
Qed.

Lemma sameShape_children ns ns' d :
  sameShape ns ns' -> Dom.children d ns' = Dom.children d ns.
Proof.
  intros H. unfold Dom.children.
  assert (shape <$> (ns' !! d) = shape <$> (ns !! d)) as E.
  { rewrite <- !list_lookup_fmap. by rewrite H. }
  destruct (ns' !! d), (ns !! d); simpl in E; try discriminate; [|done].
  injection E. unfold shape. congruence.
Qed.

Lemma domOnly_refl w : domOnly w w.
Proof. by destruct w. Qed.

Lemma domOnly_trans a b c : domOnly a b -> domOnly b c -> domOnly a c.
Proof.
  unfold domOnly. intros E1 E2. rewrite E2 at 1. rewrite E1 at 1. reflexivity.
Qed.

Lemma domOnly_with_nodes ns w : domOnly w (with_nodes ns w).
Proof. by destruct w. Qed.

Lemma updates_refl w : updates w w.
Proof. split; [apply domOnly_refl | apply sameShape_refl]. Qed.

Lemma updates_trans a b c : updates a b -> updates b c -> updates a c.
Proof.
  intros [E1 S1] [E2 S2].
  split; [by eapply domOnly_trans | by eapply sameShape_trans].
Qed.

Lemma liftDom_updates f w w' :
  (forall ns', f (nodes w) = Ok ns' -> sameShape (nodes w) ns') ->
  liftDom f w = Ok w' -> updates w w'.
Proof.
  intros Hf H. unfold liftDom in H. inv_bind H. injection H as <-.
  split; [apply domOnly_with_nodes | simpl; auto].
Qed.

Lemma forEach_preserves {A} (R : World -> World -> Prop)
  (body : A -> World -> Res World) (l : list A) :
  (forall w, R w w) -> (forall a b c, R a b -> R b c -> R a c) ->
  Forall (fun x => forall w w', body x w = Ok w' -> R w w') l ->
  forall w w', forEach body l w = Ok w' -> R w w'.
Proof.
  intros Hrefl Htrans Hall. induction Hall as [|x l Hx _ IH]; intros w w' H.
  - injection H as <-. apply Hrefl.
  - simpl in H. inv_bind H. eauto.
Qed.

Lemma forEachChild_preserves (R : World -> World -> Prop)
  (update : nat -> Skeleton -> World -> Res World) d (l : list Skeleton) :
  (forall w, R w w) -> (forall a b c, R a b -> R b c -> R a c) ->
  Forall (fun c => forall child w w', update child c w = Ok w' -> R w w') l ->
  forall i w w', forEachChild update d l i w = Ok w' -> R w w'.
Proof.
  intros Hrefl Htrans Hall. induction Hall as [|c l Hc _ IH]; intros i w w' H;
    simpl in H; destruct (Dom.children d (nodes w) !! i);
    try discriminate; try (injection H as <-; apply Hrefl).
  inv_bind H. eauto.
Qed.

Lemma updateAttr_updates app fuel dom name key attr w w' :
  updateAttr app fuel dom name key attr w = Ok w' -> updates w w'.
Proof.
  destruct attr as [k v]. unfold updateAttr.
  destruct (isFunction v); [intros [= <-]; apply updates_refl|].
  intros H. inv_bind H. inv_bind H. destruct dom as [d|]; [|discriminate].
  eapply liftDom_updates; [|exact H]. intros; by eapply setAttribute_shape.
Qed.

Lemma updateComponent_updates app fuel sk :
  forall dom name key w w',
    updateComponent app fuel dom sk name key w = Ok w' -> updates w w'.
Proof.
  induction sk as [text | tag attrs cs IH] using Skeleton_nested_ind;
    intros dom name key w w' H.
  - simpl in H. inv_bind H. inv_bind H. destruct dom as [d|]; [|discriminate].
    eapply liftDom_updates; [|exact H]. intros; by eapply setNodeValue_shape.
  - simpl in H. inv_bind H. destruct dom as [d|]; [|discriminate].
    eapply updates_trans.
    + eapply (forEach_preserves updates);
        [apply updates_refl | apply updates_trans | | exact E].
      apply Forall_forall. intros; by eapply updateAttr_updates.
    + eapply (forEachChild_preserves updates);
        [apply updates_refl | apply updates_trans | | exact H].
      eapply Forall_impl; [exact IH|]. simpl. eauto.
Qed.

(** *** The only exception the update engine raises *)

Lemma raisesOnly_Ok {A} e0 (a : A) : raisesOnly e0 (Ok a).
Proof. intros e H; discriminate. Qed.

Lemma raisesOnly_Timeout {A} e0 : raisesOnly e0 (@Timeout A).
Proof. intros e H; discriminate. Qed.

Lemma raisesOnly_Unsupported {A} e0 : raisesOnly e0 (@Unsupported A).
Proof. intros e H; discriminate. Qed.

Lemma raisesOnly_Throw {A} e0 : raisesOnly e0 (@Throw A e0).
Proof. intros e H; congruence. Qed.

Lemma raisesOnly_bind {A B} e0 (m : Res A) (k : A -> Res B) :
  raisesOnly e0 m -> (forall a, m = Ok a -> raisesOnly e0 (k a)) ->
  raisesOnly e0 (bind m k).
Proof.
  intros Hm Hk. destruct m; simpl; auto.
  - intros e' [= <-]. by apply Hm.
  - apply raisesOnly_Timeout.
  - apply raisesOnly_Unsupported.
Qed.

Create HintDb raises.

(** [raises] takes a computation apart along its binds and its case
    distinctions and leaves the calls to the lemmas of [raises]. *)
Ltac raises :=
  repeat match goal with
    | |- raisesOnly _ (Ok _) => apply raisesOnly_Ok
    | |- raisesOnly _ Timeout => apply raisesOnly_Timeout
    | |- raisesOnly _ Unsupported => apply raisesOnly_Unsupported
    | |- raisesOnly ?e (Throw ?e) => apply raisesOnly_Throw
    | |- raisesOnly _ (bind _ _) => apply raisesOnly_bind; [|intros ? ?]
    | |- raisesOnly _ (match ?x with _ => _ end) => destruct x
    | |- raisesOnly _ (if ?x then _ else _) => destruct x
    | |- raisesOnly _ (let (_, _) := ?x in _) => destruct x
    end;
  auto with raises.

Lemma numberToStr_raises z : raisesOnly TypeError (numberToStr z).
Proof. unfold numberToStr. raises. Qed.

#[local] Hint Resolve numberToStr_raises : raises.

Lemma toStr_raises h v : raisesOnly TypeError (toStr h v).
Proof. unfold toStr. raises. Qed.

Lemma toStringMethod_raises v : raisesOnly TypeError (toStringMethod v).
Proof. unfold toStringMethod. raises. Qed.

Lemma getProp_raises h v p : raisesOnly TypeError (getProp h v p).
Proof. unfold getProp, missing. raises. Qed.

#[local] Hint Resolve toStr_raises toStringMethod_raises getProp_raises
  : raises.

Lemma walk_raises h ps : forall v, raisesOnly TypeError (walk h v ps).
Proof. induction ps as [|p ps IH]; intros v; simpl; raises. Qed.

Lemma add_raises h a b : raisesOnly TypeError (add h a b).
Proof. unfold add, toNumber. raises. Qed.

Lemma replaceWith_raises h t p v : raisesOnly TypeError (replaceWith h t p v).
Proof. unfold replaceWith. destruct v; raises. Qed.

Lemma absent_raises {A} k : raisesOnly TypeError (@absent A k).
Proof. unfold absent. raises. Qed.

#[local] Hint Resolve absent_raises : raises.

Lemma getEntry_raises k w : raisesOnly TypeError (getEntry k w).
Proof. unfold getEntry. raises. Qed.

Lemma getComponent_raises app n w :
  raisesOnly TypeError (getComponent app n w).
Proof. unfold getComponent. raises. Qed.

Lemma absent_Ok {A} k (x : A) : absent k = Ok x -> False.
Proof. unfold absent. destruct (inherited k); discriminate. Qed.

Lemma getComponent_Ok app name w c :
  getComponent app name w = Ok c ->
  exists n, toStr (heap w) name = Ok n /\ components app !! n = Some c.
Proof.
  intros H. unfold getComponent in H. split_bind H as n En. exists n.
  split; [exact En|].
  destruct (components app !! n) as [c'|]; [by injection H as <-|].
  by apply absent_Ok in H.
Qed.

Lemma getEntry_Ok k w e :
  getEntry k w = Ok e -> page_elements w !! k = Some (Some e).
Proof.
  unfold getEntry. intros H.
  destruct (page_elements w !! k) as [[e'|]|];
    [by injection H as <- | discriminate | by apply absent_Ok in H].
Qed.

Lemma entryProp_raises e p : raisesOnly TypeError (entryProp e p).
Proof. unfold entryProp, missing. raises. Qed.

Lemma componentProp_raises c p : raisesOnly TypeError (componentProp c p).
Proof. unfold componentProp, missing. raises. Qed.

#[local] Hint Resolve walk_raises add_raises replaceWith_raises
  getEntry_raises getComponent_raises entryProp_raises componentProp_raises
  : raises.

Lemma resolve_raises {R} (root : Res R) member h ps :
  raisesOnly TypeError root ->
  (forall r p, raisesOnly TypeError (member r p)) ->
  raisesOnly TypeError (resolve root member h ps).
Proof. intros Hr Hm. unfold resolve. destruct ps; raises. Qed.

#[local] Hint Resolve resolve_raises : raises.

Lemma interpolate_raises fuel w k :
  forall text, raisesOnly TypeError (interpolate fuel w k text).
Proof. induction fuel as [|fuel IH]; intros text; simpl; raises. Qed.

#[local] Hint Resolve interpolate_raises : raises.

Lemma convertTextVariables_raises app fuel text name key w :
  raisesOnly TypeError (convertTextVariables app fuel text name key w).
Proof.
  unfold convertTextVariables. apply raisesOnly_bind; [auto with raises|].
  intros ck _. destruct text; raises.
Qed.

Lemma liftDom_raises f w :
  raisesOnly TypeError (f (nodes w)) -> raisesOnly TypeError (liftDom f w).
Proof. intros H. unfold liftDom. raises. Qed.

Lemma setNodeValue_raises d s ns :
  raisesOnly TypeError (Dom.setNodeValue d s ns).
Proof. unfold Dom.setNodeValue. raises. Qed.

Lemma setAttribute_raises d k s ns :
  raisesOnly TypeError (Dom.setAttribute d k s ns).
Proof. unfold Dom.setAttribute. raises. Qed.

#[local] Hint Resolve convertTextVariables_raises liftDom_raises
  setNodeValue_raises setAttribute_raises : raises.

Lemma forEach_raises {A} (body : A -> World -> Res World) l :
  Forall (fun x => forall w, raisesOnly TypeError (body x w)) l ->
  forall w, raisesOnly TypeError (forEach body l w).
Proof. induction 1 as [|x l Hx _ IH]; intros w; simpl; raises. Qed.

Lemma forEachChild_raises update d l :
  Forall (fun c => forall child w, raisesOnly TypeError (update child c w)) l ->
  forall i w, raisesOnly TypeError (forEachChild update d l i w).
Proof. induction 1 as [|c l Hc _ IH]; intros i w; simpl; raises. Qed.

Lemma updateAttr_raises app fuel dom name key attr w :
  raisesOnly TypeError (updateAttr app fuel dom name key attr w).
Proof. destruct attr as [k v]. unfold updateAttr, setAttributeOf. raises. Qed.

Lemma updateComponent_raises app fuel sk :
  forall dom name key w,
    raisesOnly TypeError (updateComponent app fuel dom sk name key w).
Proof.
  induction sk as [text | tag attrs cs IH] using Skeleton_nested_ind;
    intros dom name key w; simpl.
  - raises. unfold nodeValueOf. raises.
  - apply raisesOnly_bind.
    + apply forEach_raises, Forall_forall. intros; apply updateAttr_raises.
    + intros w1 _. destruct dom as [d|]; raises.
      apply forEachChild_raises. eapply Forall_impl; [exact IH|]. simpl. eauto.
Qed.

Lemma updates_children w w' d :
  updates w w' -> Dom.children d (nodes w') = Dom.children d (nodes w).
Proof. intros [_ H]. by apply sameShape_children. Qed.

Lemma forEachChild_surplus_host update d l :
  (forall child c w w', update child c w = Ok w' -> updates w w') ->
  forall i w, (i + length l < length (Dom.children d (nodes w)))%nat ->
    ~ is_Ok (forEachChild update d l i w).
Proof.
  intros Hup. induction l as [|c l IH]; intros i w Hlen [w' H]; simpl in *;
    destruct (lookup_lt_is_Some_2 (Dom.children d (nodes w)) i) as [child E];
    try lia; rewrite E in H; [discriminate|].
  inv_bind H. apply (IH (S i) x); [|by exists w'].
  rewrite (updates_children w x) by eauto. lia.
Qed.

Lemma forEachChild_surplus_skeleton update d l extra :
  (forall child c w w', update child c w = Ok w' -> updates w w') ->
  forall i w, (length (Dom.children d (nodes w)) <= i + length l)%nat ->
    forEachChild update d (l ++ extra) i w = forEachChild update d l i w.
Proof.
  intros Hup. induction l as [|c l IH]; intros i w Hlen; simpl in *.
  - rewrite (lookup_ge_None_2 (Dom.children d (nodes w)) i) by lia.
    destruct extra; simpl; by rewrite (lookup_ge_None_2 _ i) by lia.
  - destruct (Dom.children d (nodes w) !! i) as [child|]; [|done].
    destruct (update child c w) as [w1| | |] eqn:E; simpl; try done.
    apply IH. rewrite (updates_children w w1) by eauto. lia.
Qed.


(** ** Interpolation *)

Lemma bind_Ok_eq {A B} (m : Res A) (k : A -> Res B) a :
  m = Ok a -> bind m k = k a.
Proof. by intros ->. Qed.

(** One step of a run on concrete data: the next call is evaluated and its
    result handed to the rest. *)
Ltac run_step :=
  erewrite bind_Ok_eq by (vm_compute; reflexivity); cbv beta.

(** With an opening marker and no closing one the text comes out of a turn
    of the loop as it went in. *)
Lemma interpolate_unterminated fuel w elementKey e :
  page_elements w !! elementKey = Some (Some e) ->
  interpolate fuel w elementKey "{{x" = Timeout.
Proof.
  intros H. induction fuel as [|fuel IH]; [reflexivity|].
  simpl. unfold getEntry. rewrite H. simpl. exact IH.
Qed.

Lemma convertTextVariables_unterminated app fuel name key w e :
  key <> "" ->
  page_elements w !! (name ++ key) = Some (Some e) ->
  convertTextVariables app fuel (VStr "{{x") (VStr name) (VStr key) w
  = Timeout.
Proof.
  intros Hk He. unfold convertTextVariables. simpl.
  destruct (String.eqb_spec key ""); [done|]. simpl.
  by rewrite (interpolate_unterminated fuel w _ e).
Qed.

(** C2 (the code departs from it).  A component that renders
    [<span>{{x</span>] is mounted under the name [counter] and the key [k]:
    whatever the number of turns allowed to the loop of
    [convertTextVariables], the mount has not returned; the loop does not
    stop at the missing closing marker. *)
Theorem mount_unterminated_never_returns fuel :
  renderComponent (spanApp "counter" "{{x" (VObj 0)) fuel 0
                  (VStr "counter") (VStr "k") startWorld = Timeout.
Proof.
  unfold renderComponent.
  run_step. unfold createElement. cbv iota beta.
  do 8 run_step.
  simpl connectComponent.
  erewrite convertTextVariables_unterminated;
    [reflexivity | discriminate | vm_compute; reflexivity].
Qed.

(** C3 (the code departs from it).  Called without an instance key, as
    [createSkeleton] calls it for an event attribute, [convertTextVariables]
    throws on its first statement, whatever the text and the component; so
    does the construction of a skeleton from any element whose first
    attribute is an event attribute. *)
Theorem definition_time_mode_throws app fuel text name w :
  convertTextVariables app fuel text name VUndef w = Throw TypeError
  /\ forall tag event value rest childNodes,
       createSkeleton app fuel
         (MElement tag (("on" ++ event, value) :: rest) childNodes) name w
       = Throw TypeError.
Proof.
  split; [reflexivity|]. intros. reflexivity.
Qed.

(** The branch is reached by a key whose string is empty, and then does
    what it is meant to: the first path is looked up in the definition and
    the value found is the result. *)
Example definition_time_branch_empty_key :
  convertTextVariables methodsApp 0
    (VStr "a {{methods.increment}} b {{methods.decrement}}")
    (VStr "counter") (VStr "") methodsWorld
  = Ok (VFun "increment").
Proof. reflexivity. Qed.

(** ** The update engine *)

Lemma C7_counterexample : ~ checksChildCount emptyApp.
Proof.
  intros H.
  specialize (H 0%nat 0%nat "SPAN" [] [SText "a"; SText "b"]
                (VStr "c") (VStr "k")
                staleHost).
  vm_compute in H.
  assert (1 <> 2)%nat as N by lia. specialize (H N). discriminate.
Qed.

(** C7, amended.  When the child count of the host node differs from that
    of the skeleton node, the update pass raises no
    [StructuralMismatchError]: any exception it raises is a [TypeError];
    with more host children than skeleton children it does not complete;
    with fewer, the skeleton children beyond the host's are not visited and
    the pass is the pass for the skeleton cut to the host's count. *)
Theorem update_child_count_unchecked app fuel d tag attrs cs name key w :
  length (Dom.children d (nodes w)) <> length cs ->
  let pass sk := updateComponent app fuel (Some d) sk name key w in
  let n := length (Dom.children d (nodes w)) in
  raisesOnly TypeError (pass (SNode tag attrs cs))
  /\ ((length cs < n)%nat -> ~ is_Ok (pass (SNode tag attrs cs)))
  /\ ((n < length cs)%nat ->
      pass (SNode tag attrs cs) = pass (SNode tag attrs (take n cs))).
Proof.
  intros _. cbv zeta.
  assert (forall w1, forEach (updateAttr app fuel (Some d) name key) attrs w
                     = Ok w1 -> updates w w1) as Hattrs.
  { intros w1 E.
    eapply (forEach_preserves updates);
      [apply updates_refl | apply updates_trans | | exact E].
    apply Forall_forall. intros; by eapply updateAttr_updates. }
  assert (forall child c w0 w0',
            updateComponent app fuel (Some child) c name key w0 = Ok w0' ->
            updates w0 w0') as Hchild.
  { intros child c w0 w0'. apply updateComponent_updates. }
  split; [|split].
  - apply updateComponent_raises.
  - intros Hlen [w' H]. simpl in H. inv_bind H.
    eapply (forEachChild_surplus_host _ d cs); [exact Hchild | | by exists w'].
    simpl. by rewrite (updates_children w x) by auto.
  - intros Hlen.
    rewrite <- (take_drop (length (Dom.children d (nodes w))) cs) at 1.
    simpl. destruct (forEach _ attrs w) as [w1| | |] eqn:E; simpl; try done.
    apply forEachChild_surplus_skeleton; [exact Hchild|].
    simpl. rewrite (updates_children w w1) by auto.
    rewrite length_take. lia.
Qed.

Lemma update_child_count_unchecked_witness :
  let pass sk :=
    updateComponent emptyApp 0 (Some 0%nat) sk (VStr "c") (VStr "k") staleHost
  in
  raisesOnly TypeError (pass (SNode "SPAN" [] [SText "a"; SText "b"]))
  /\ ((2 < 1)%nat -> ~ is_Ok (pass (SNode "SPAN" [] [SText "a"; SText "b"])))
  /\ ((1 < 2)%nat ->
      pass (SNode "SPAN" [] [SText "a"; SText "b"])
      = pass (SNode "SPAN" [] (take 1 [SText "a"; SText "b"]))).
Proof.
  apply (update_child_count_unchecked emptyApp 0 0 "SPAN" []
           [SText "a"; SText "b"] (VStr "c") (VStr "k") staleHost).
  vm_compute. lia.
Defined.

(** ** The registry *)








(** ** State replacement *)

Lemma domOnly_heap w w' : domOnly w w' -> heap w' = heap w.
Proof. intros ->. reflexivity. Qed.

Lemma domOnly_elements w w' :
  domOnly w w' -> page_elements w' = page_elements w.
Proof. intros ->. reflexivity. Qed.

Lemma domOnly_skeletons w w' : domOnly w w' -> skeletons w' = skeletons w.
Proof. intros ->. reflexivity. Qed.

Lemma getComponent_heap app name w w' :
  heap w' = heap w -> getComponent app name w' = getComponent app name w.
Proof. intros E. unfold getComponent. by rewrite E. Qed.

Lemma cachedSkeleton_frame app name w w' :
  heap w' = heap w -> skeletons w' = skeletons w ->
  cachedSkeleton app name w' = cachedSkeleton app name w.
Proof.
  intros E1 E2. unfold cachedSkeleton.
  by rewrite (getComponent_heap app name w w'), E1, E2.
Qed.

Lemma getThisParameter_context name key k e w :
  add (heap w) name key = Ok k ->
  page_elements w !! k = Some (Some e) ->
  getThisParameter name key w
  = Ok (mkThis name key (Dom.firstChild (e_dom e) (nodes w)) (e_state e)).
Proof.
  intros Hk He. unfold getThisParameter. rewrite Hk. simpl.
  unfold getEntry. by rewrite He.
Qed.

(** The sequence of [setState]: it stores the new state as it is in the
    entry of the instance, in the place of the old one; then runs the
    update engine on the cached skeleton of the definition and the first
    child of the instance's host root, in the world that holds the new
    state; then, if the definition has an [updated] hook, calls it on the
    context [setState] was called on, in the world the update pass left,
    where the entry still holds the new state. *)
Lemma setState_sequence app fuel this newState w elementKey e skeleton c :
  add (heap w) (this_name this) (this_key this) = Ok elementKey ->
  page_elements w !! elementKey = Some (Some e) ->
  getComponent app (this_name this) w = Ok c ->
  cachedSkeleton app (this_name this) w = Ok (Some skeleton) ->
  let stored :=
    with_elements
      (<[elementKey := Some (mkEntry newState (e_dom e))]> (page_elements w))
      w in
  let pass :=
    updateComponent app fuel (Dom.firstChild (e_dom e) (nodes w)) skeleton
                    (this_name this) (this_key this) stored in
  page_elements stored !! elementKey
  = Some (Some (mkEntry newState (e_dom e)))
  /\ setState app fuel this newState w
     = (let* w' := pass in
        match c_hooks c ≫= updated with
        | Some hook => hook this w'
        | None => Ok w'
        end)
  /\ forall w', pass = Ok w' ->
       page_elements w' !! elementKey
       = Some (Some (mkEntry newState (e_dom e)))
       /\ sameShape (nodes w) (nodes w').
Proof.
  intros Hk He Hc Hs stored pass.
  assert (page_elements stored !! elementKey
          = Some (Some (mkEntry newState (e_dom e)))) as Hstored.
  { subst stored. simpl. apply lookup_insert_eq. }
  split; [exact Hstored|]. split.
  - unfold setState. rewrite Hk. simpl.
    unfold getEntry at 1. rewrite He. simpl.
    fold stored. unfold getEntry. rewrite Hstored. simpl.
    unfold getSkeleton.
    rewrite (cachedSkeleton_frame app _ w stored), Hs by reflexivity. simpl.
    fold pass. destruct pass as [w'| | |] eqn:P; simpl; try reflexivity.
    apply updateComponent_updates in P. destruct P as [D _].
    rewrite (getComponent_heap app _ stored w') by (by apply domOnly_heap).
    rewrite (getComponent_heap app _ w stored), Hc by reflexivity. simpl.
    destruct (c_hooks c) as [hs|]; simpl; [|reflexivity].
    destruct (updated hs); reflexivity.
  - intros w' P. apply updateComponent_updates in P. destruct P as [D S].
    split; [|exact S].
    rewrite (domOnly_elements stored w') by exact D. exact Hstored.
Qed.

(** C5 (the code departs from it).  The [updated] hook is not called on a
    context of its own.  When [setState] is called on the context of an
    instance, as [getThisParameter] builds it, the state is stored and the
    update pass runs as the claim says, but the hook is then called on that
    same context, which still holds the state and the rendered root the
    instance had before the call: a context built for the instance in the
    world the hook runs in, as the other hooks get one, holds the new
    state. *)
Theorem updated_hook_sees_old_state app fuel name key k e c hs hook skeleton
  this newState w w1 :
  add (heap w) name key = Ok k ->
  page_elements w !! k = Some (Some e) ->
  getComponent app name w = Ok c ->
  c_hooks c = Some hs -> updated hs = Some hook ->
  cachedSkeleton app name w = Ok (Some skeleton) ->
  getThisParameter name key w = Ok this ->
  updateComponent app fuel (Dom.firstChild (e_dom e) (nodes w)) skeleton
                  name key
                  (with_elements
                     (<[k := Some (mkEntry newState (e_dom e))]>
                        (page_elements w)) w) = Ok w1 ->
  setState app fuel this newState w = hook this w1
  /\ this_state this = e_state e
  /\ exists fresh,
       getThisParameter name key w1 = Ok fresh
       /\ this_state fresh = newState.
Proof.
  intros Hk He Hc Hhs Hhook Hs Ht Hu.
  rewrite (getThisParameter_context name key k e w Hk He) in Ht.
  injection Ht as <-. simpl.
  destruct (setState_sequence app fuel
              (mkThis name key (Dom.firstChild (e_dom e) (nodes w))
                      (e_state e))
              newState w k e skeleton c Hk He Hc Hs) as (_ & Heq & Hafter).
  cbn [this_name this_key] in Heq, Hafter. rewrite Hu in Heq.
  cbn [bind] in Heq. rewrite Hhs in Heq. cbn [mbind option_bind] in Heq.
  rewrite Hhook in Heq.
  split; [exact Heq|]. split; [reflexivity|].
  destruct (Hafter w1 Hu) as [L _].
  apply updateComponent_updates in Hu as [D _].
  eexists.
  rewrite (getThisParameter_context name key k _ w1
             (eq_trans (f_equal (fun h => add h name key)
                                (domOnly_heap _ _ D)) Hk) L).
  by split.
Qed.

Lemma updated_hook_sees_old_state_witness :
  (setState watchedApp 1 watchedThis (VObj 1) watched
   = countHook "updated " watchedThis watchedSet
   /\ this_state watchedThis = VObj 0
   /\ exists fresh,
        getThisParameter (VStr "counter") (VStr "k") watchedSet = Ok fresh
        /\ this_state fresh = VObj 1)
  /\ (exists w, setState watchedApp 1 watchedThis (VObj 1) watched = Ok w
                /\ Dom.nodeValue 3 (nodes w) = Some "5"
                /\ log w = ["updated 0"]).
Proof.
  split.
  - apply (updated_hook_sees_old_state watchedApp 1 (VStr "counter")
             (VStr "k") "counterk" (mkEntry (VObj 0) 1) watchedComponent
             (mkHooks None None None (Some (countHook "updated ")))
             (countHook "updated ") spanSkeleton watchedThis (VObj 1)
             watched watchedSet).
    + vm_compute. reflexivity.
    + vm_compute. reflexivity.
    + reflexivity.
    + reflexivity.
    + reflexivity.
    + vm_compute. reflexivity.
    + vm_compute. reflexivity.
    + vm_compute. reflexivity.
  - eexists. split; [vm_compute; reflexivity|]. by split.
Defined.

(** ** Mounting leaves the data alone *)

Lemma sameRegistry_refl w : sameRegistry w w.
Proof. by split. Qed.

Lemma sameRegistry_trans a b c :
  sameRegistry a b -> sameRegistry b c -> sameRegistry a c.
Proof. intros [? ?] [? ?]. split; congruence. Qed.

Lemma domOnly_sameRegistry w w' : domOnly w w' -> sameRegistry w w'.
Proof. intros ->. by split. Qed.

Lemma liftDom_domOnly f w w' : liftDom f w = Ok w' -> domOnly w w'.
Proof.
  unfold liftDom. intros H. inv_bind H. injection H as <-.
  apply domOnly_with_nodes.
Qed.

Lemma connectAttr_domOnly app fuel elem name key attr w w' :
  connectAttr app fuel elem name key attr w = Ok w' -> domOnly w w'.
Proof.
  destruct attr as [k v]. unfold connectAttr.
  destruct (JS.startsWith k "on"); intros H.
  - by eapply liftDom_domOnly.
  - inv_bind H. inv_bind H. by eapply liftDom_domOnly.
Qed.

Lemma connectComponent_domOnly app fuel sk :
  forall dom name key w w',
    connectComponent app fuel dom sk name key w = Ok w' -> domOnly w w'.
Proof.
  induction sk as [text | tag attrs cs IH] using Skeleton_nested_ind;
    intros dom name key w w' H; simpl in H.
  - inv_bind H. inv_bind H.
    eapply domOnly_trans; [|by eapply liftDom_domOnly].
    apply domOnly_with_nodes.
  - split_bind H as w2 E2. split_bind H as w3 E3.
    eapply domOnly_trans; [apply domOnly_with_nodes|].
    eapply domOnly_trans; [|by eapply liftDom_domOnly].
    eapply domOnly_trans.
    + eapply (forEach_preserves domOnly);
        [apply domOnly_refl | apply domOnly_trans | | exact E2].
      apply Forall_forall. intros; by eapply connectAttr_domOnly.
    + eapply (forEach_preserves domOnly);
        [apply domOnly_refl | apply domOnly_trans | | exact E3].
      eapply Forall_impl; [exact IH|]. simpl. eauto.
Qed.

Lemma buildSkeleton_frame app fuel name w w' :
  buildSkeleton app fuel name w = Ok w' ->
  sameRegistry w w' /\ nodes w' = nodes w.
Proof.
  unfold buildSkeleton. intros H. split_bind H as cached Ec.
  destruct cached;
    [injection H as <-; split; [apply sameRegistry_refl | done]|].
  split_bind H as c Ecomp. split_bind H as k Ek.
  destruct (firstElement (c_render c)) as [child|];
    [|injection H as <-; split; [apply sameRegistry_refl | done]].
  split_bind H as s Es.
  destruct s; injection H as <-; split; try done; apply sameRegistry_refl.
Qed.

Lemma fireHook_absent app h name key n c w :
  toStr (heap w) name = Ok n -> components app !! n = Some c ->
  c_hooks c = None -> fireHook app h name key w = Ok w.
Proof.
  intros Hn Hc Hh. unfold fireHook, getComponent.
  rewrite Hn. simpl. rewrite Hc. simpl. by rewrite Hh.
Qed.

Lemma noHooks_quiet app : noHooks app -> quietApp app.
Proof. intros Hno k c hs Hc Hh. rewrite (Hno k c Hc) in Hh. discriminate. Qed.

Section QuietHooks.

Variable app : App.
Hypothesis quiet : quietApp app.

Lemma fireHook_quiet (h : Hooks -> option Hook) name key w w' :
  (forall hs, quietRecord hs -> quietHook (h hs)) ->
  fireHook app h name key w = Ok w' -> sameRegistry w w'.
Proof.
  intros Hh H. unfold fireHook in H. split_bind H as c' Ec.
  apply getComponent_Ok in Ec as (n & _ & L).
  destruct (c_hooks c') as [hs|] eqn:Hs;
    [|injection H as <-; apply sameRegistry_refl].
  destruct (h hs) as [f|] eqn:Hf;
    [|injection H as <-; apply sameRegistry_refl].
  split_bind H as this Et.
  by apply (Hh hs (quiet n c' hs L Hs) f this w w').
Qed.

Lemma created_quiet name key w w' :
  fireHook app created name key w = Ok w' -> sameRegistry w w'.
Proof. apply fireHook_quiet. by intros hs (? & _). Qed.

Lemma connected_quiet name key w w' :
  fireHook app connected name key w = Ok w' -> sameRegistry w w'.
Proof. apply fireHook_quiet. by intros hs (_ & ? & _). Qed.

(** A mount by [renderComponent] writes one entry, the state field of
    which is the [state] of the definition itself, and leaves the rest of
    the registry and the heap as they were. *)
Lemma renderComponent_registers fuel dom name key n c elementKey w w' :
  toStr (heap w) name = Ok n -> components app !! n = Some c ->
  add (heap w) name key = Ok elementKey ->
  renderComponent app fuel dom name key w = Ok w' ->
  heap w' = heap w
  /\ page_elements w'
     = <[elementKey := Some (mkEntry (c_state c) (length (nodes w)))]>
         (page_elements w).
Proof.
  intros Hn Hc Hk H. unfold renderComponent in H.
  split_bind H as wb Eb.
  apply buildSkeleton_frame in Eb as ((Eh & Ee) & En).
  unfold createElement in H. cbv beta iota in H.
  split_bind H as sname Ename. split_bind H as w1 E1.
  apply liftDom_domOnly in E1.
  split_bind H as skey Ekey. split_bind H as w2 E2.
  apply liftDom_domOnly in E2.
  split_bind H as ek Eek. split_bind H as c' Ec.
  assert (heap w2 = heap w) as Hh2.
  { rewrite (domOnly_heap _ _ E2), (domOnly_heap _ _ E1). exact Eh. }
  assert (page_elements w2 = page_elements w) as He2.
  { rewrite (domOnly_elements _ _ E2), (domOnly_elements _ _ E1). exact Ee. }
  rewrite Hh2, Hk in Eek. injection Eek as <-.
  unfold getComponent in Ec. rewrite Hh2, Hn in Ec. simpl in Ec.
  rewrite Hc in Ec. injection Ec as <-.
  split_bind H as w3 E3. apply created_quiet in E3.
  split_bind H as sk Esk. split_bind H as w4 E4.
  apply connectComponent_domOnly, domOnly_sameRegistry in E4.
  split_bind H as w5 E5. apply liftDom_domOnly, domOnly_sameRegistry in E5.
  apply connected_quiet in H.
  destruct (sameRegistry_trans _ _ _ E3
              (sameRegistry_trans _ _ _ E4 (sameRegistry_trans _ _ _ E5 H)))
    as [Hheap Hreg].
  simpl in Hheap, Hreg. rewrite Hheap, Hreg, He2, En. by split.
Qed.

Lemma connectPlaceholder_registers fuel elem name key n c elementKey w w' :
  toStr (heap w) name = Ok n -> components app !! n = Some c ->
  add (heap w) name key = Ok elementKey ->
  connectPlaceholder app fuel elem name key w = Ok w' ->
  heap w' = heap w
  /\ page_elements w'
     = <[elementKey := Some (mkEntry (c_state c) elem)]> (page_elements w).
Proof.
  intros Hn Hc Hk H. unfold connectPlaceholder in H.
  split_bind H as wb Eb.
  apply buildSkeleton_frame in Eb as ((Eh & Ee) & En).
  split_bind H as ek Eek. split_bind H as c' Ec.
  rewrite Eh, Hk in Eek. injection Eek as <-.
  unfold getComponent in Ec. rewrite Eh, Hn in Ec. simpl in Ec.
  rewrite Hc in Ec. injection Ec as <-.
  split_bind H as w1 E1. apply created_quiet in E1.
  split_bind H as e He. split_bind H as sk Esk.
  split_bind H as w3 E3.
  apply connectComponent_domOnly, domOnly_sameRegistry in E3.
  apply connected_quiet in H.
  destruct (sameRegistry_trans _ _ _ E1 (sameRegistry_trans _ _ _ E3 H))
    as [Hheap Hreg].
  simpl in Hheap, Hreg. rewrite Hheap, Hreg, Eh, Ee. by split.
Qed.

(** [setState] leaves the new state in the entry. *)
Lemma setState_stores fuel this newState elementKey w w' :
  add (heap w) (this_name this) (this_key this) = Ok elementKey ->
  setState app fuel this newState w = Ok w' ->
  exists e, page_elements w !! elementKey = Some (Some e)
            /\ page_elements w'
               = <[elementKey := Some (mkEntry newState (e_dom e))]>
                   (page_elements w)
            /\ heap w' = heap w.
Proof.
  intros Hk H. unfold setState in H. rewrite Hk in H. simpl in H.
  split_bind H as e Ee. exists e.
  apply getEntry_Ok in Ee. split; [exact Ee|].
  split_bind H as e1 Ee1. split_bind H as sk Esk. split_bind H as w1 Ew1.
  apply updateComponent_updates in Ew1 as [D _].
  split_bind H as c' Ec. apply getComponent_Ok in Ec as (n & _ & Lc).
  assert (sameRegistry w1 w') as [Hheap Hreg].
  { destruct (c_hooks c') as [hs|] eqn:Hs;
      [|injection H as <-; apply sameRegistry_refl].
    destruct (updated hs) as [f|] eqn:Hf;
      [|injection H as <-; apply sameRegistry_refl].
    destruct (quiet n c' hs Lc Hs) as (_ & _ & _ & Hq).
    by apply (Hq f this w1 w'). }
  by rewrite Hreg, Hheap, (domOnly_elements _ _ D), (domOnly_heap _ _ D).
Qed.

End QuietHooks.

(** ** Registry keys *)

Lemma add_strings h a b : add h (VStr a) (VStr b) = Ok (a ++ b).
Proof. reflexivity. Qed.

Lemma getThisParameter_entry name key elementKey w :
  add (heap w) name key = Ok elementKey ->
  getThisParameter name key w
  = let* e := getEntry elementKey w in
    Ok (mkThis name key (Dom.firstChild (e_dom e) (nodes w)) (e_state e)).
Proof. intros H. unfold getThisParameter. by rewrite H. Qed.

(** What a disconnect that returns leaves in the registry, when the hooks
    leave it alone: [undefined] under the key of the instance, or, under
    the key [__proto__], what there was. *)
Lemma disconnectComponent_clears app name key elementKey w w' :
  quietApp app ->
  add (heap w) name key = Ok elementKey ->
  disconnectComponent app name key w = Ok w' ->
  heap w' = heap w
  /\ page_elements w'
     = if String.eqb elementKey "__proto__" then page_elements w
       else <[elementKey := None]> (page_elements w).
Proof.
  intros Hq Hk H. unfold disconnectComponent in H. rewrite Hk in H.
  simpl in H.
  split_bind H as e Ee. split_bind H as w1 E1. split_bind H as w2 E2.
  injection H as <-. apply liftDom_domOnly in E1.
  assert (sameRegistry w1 w2) as [Hh Hr].
  { revert E2. apply (fireHook_quiet app Hq). by intros hs (_ & _ & ? & _). }
  unfold clearEntry.
  destruct (String.eqb elementKey "__proto__"); simpl;
    by rewrite Hh, Hr, (domOnly_heap _ _ E1), (domOnly_elements _ _ E1).
Qed.

(** One mount on either path writes one entry, with the [state] of the
    definition and the host root of the instance. *)
Lemma mounts_registers app fuel name key n c elementKey root w w' :
  quietApp app ->
  toStr (heap w) name = Ok n -> components app !! n = Some c ->
  add (heap w) name key = Ok elementKey ->
  mounts app fuel name key root w w' ->
  heap w' = heap w
  /\ page_elements w'
     = <[elementKey := Some (mkEntry (c_state c) root)]> (page_elements w).
Proof.
  intros Hq Hn Hc Hk [(dom & H & ->) | H].
  - by apply (renderComponent_registers app Hq fuel dom name key n).
  - by apply (connectPlaceholder_registers app Hq fuel root name key n).
Qed.

(** C9.  The registry key of an instance is the concatenation of its
    component name and its instance key.  For two pairs with one
    concatenation (and hooks that leave the registry alone): a mount of
    the second pair, by [renderComponent] or for a placeholder of the page,
    leaves its own entry under the key of the first; in every world the
    context of the one pair is built from the entry the other reads, and it
    fails when the other fails; a state set through the first pair is the
    state the second reads; and a disconnect through the first pair takes
    the entry away from the second, whose context then throws a
    [TypeError].  The key [__proto__] is the exception to the last: there
    the entry stays. *)
Theorem shared_registry_key app fuel n1 k1 n2 k2 c2 root w w1 t1 newState
  wa wb wc wd :
  quietApp app ->
  n1 ++ k1 = n2 ++ k2 ->
  components app !! n2 = Some c2 ->
  mounts app fuel (VStr n2) (VStr k2) root w w1 ->
  this_name t1 = VStr n1 -> this_key t1 = VStr k1 ->
  setState app fuel t1 newState wa = Ok wb ->
  disconnectComponent app (VStr n1) (VStr k1) wc = Ok wd ->
  (forall h, add h (VStr n1) (VStr k1) = add h (VStr n2) (VStr k2))
  /\ page_elements w1 !! (n1 ++ k1) = Some (Some (mkEntry (c_state c2) root))
  /\ (forall w0,
        getThisParameter (VStr n2) (VStr k2) w0
        = let* t := getThisParameter (VStr n1) (VStr k1) w0 in
          Ok (mkThis (VStr n2) (VStr k2) (this_dom t) (this_state t)))
  /\ (exists t2, getThisParameter (VStr n2) (VStr k2) wb = Ok t2
                 /\ this_state t2 = newState)
  /\ (n1 ++ k1 <> "__proto__" ->
      getThisParameter (VStr n2) (VStr k2) wd = Throw TypeError)
  /\ (n1 ++ k1 = "__proto__" ->
      page_elements wd !! (n2 ++ k2) = page_elements wc !! (n2 ++ k2)).
Proof.
  intros Hq Hkey Hc2 Hmount Hn Hk Hset Hdis.
  split; [intros h; by rewrite !add_strings, Hkey|].
  split.
  { destruct (mounts_registers app fuel (VStr n2) (VStr k2) n2 c2 (n2 ++ k2)
                root w w1) as [_ ->]; try done.
    rewrite Hkey. apply lookup_insert_eq. }
  split.
  { intros w0.
    rewrite (getThisParameter_entry (VStr n1) (VStr k1) (n1 ++ k1))
      by reflexivity.
    rewrite (getThisParameter_entry (VStr n2) (VStr k2) (n2 ++ k2))
      by reflexivity.
    rewrite <- Hkey. by destruct (getEntry (n1 ++ k1) w0). }
  split.
  { destruct (setState_stores app Hq fuel t1 newState (n1 ++ k1) wa wb)
      as (e & _ & He & _); [by rewrite Hn, Hk | done |].
    rewrite (getThisParameter_entry (VStr n2) (VStr k2) (n2 ++ k2))
      by reflexivity.
    rewrite <- Hkey. unfold getEntry. rewrite He, lookup_insert_eq. simpl.
    eexists. by split. }
  destruct (disconnectComponent_clears app (VStr n1) (VStr k1) (n1 ++ k1)
              wc wd Hq eq_refl Hdis) as [_ Hreg].
  split.
  - intros Hne.
    rewrite (getThisParameter_entry (VStr n2) (VStr k2) (n2 ++ k2))
      by reflexivity.
    rewrite <- Hkey. unfold getEntry. rewrite Hreg.
    destruct (String.eqb_spec (n1 ++ k1) "__proto__"); [done|].
    by rewrite lookup_insert_eq.
  - intros Hp. rewrite Hreg, Hp. reflexivity.
Qed.

Lemma shared_registry_key_witness :
  ((forall h, add h (VStr "a") (VStr "bc") = add h (VStr "ab") (VStr "c"))
   /\ page_elements afterSecond !! ("a" ++ "bc")
      = Some (Some (mkEntry (VObj 1) (length (nodes afterFirst))))
   /\ (forall w0,
         getThisParameter (VStr "ab") (VStr "c") w0
         = let* t := getThisParameter (VStr "a") (VStr "bc") w0 in
           Ok (mkThis (VStr "ab") (VStr "c") (this_dom t) (this_state t)))
   /\ (exists t2, getThisParameter (VStr "ab") (VStr "c") pairSet = Ok t2
                  /\ this_state t2 = VObj 0)
   /\ ("a" ++ "bc" <> "__proto__" ->
       getThisParameter (VStr "ab") (VStr "c") pairGone = Throw TypeError)
   /\ ("a" ++ "bc" = "__proto__" ->
       page_elements pairGone !! ("ab" ++ "c")
       = page_elements pairSet !! ("ab" ++ "c")))
  /\ page_elements afterPlaceholder !! ("a" ++ "bc")
     = Some (Some (mkEntry (VObj 1) 0)).
Proof.
  assert (quietApp pairApp) as Hq.
  { apply noHooks_quiet. intros k c Hk. unfold pairApp in Hk. simpl in Hk.
    apply lookup_insert_Some in Hk as [[_ <-] | [_ Hk]]; [reflexivity|].
    apply lookup_singleton_Some in Hk as [_ <-]. reflexivity. }
  split.
  - apply (shared_registry_key pairApp 1 "a" "bc" "ab" "c"
             (spanComponent "ab" "{{state.count}}" (VObj 1))
             (length (nodes afterFirst)) afterFirst afterSecond
             pairThis (VObj 0) afterSecond pairSet pairSet pairGone).
    + exact Hq.
    + reflexivity.
    + vm_compute. reflexivity.
    + left. exists 0%nat. split; [vm_compute; reflexivity | reflexivity].
    + reflexivity.
    + reflexivity.
    + vm_compute. reflexivity.
    + vm_compute. reflexivity.
  - apply (shared_registry_key pairApp 1 "a" "bc" "ab" "c"
             (spanComponent "ab" "{{state.count}}" (VObj 1))
             0 afterFirst afterPlaceholder
             pairThis (VObj 0) afterSecond pairSet pairSet pairGone).
    + exact Hq.
    + reflexivity.
    + vm_compute. reflexivity.
    + right. vm_compute. reflexivity.
    + reflexivity.
    + reflexivity.
    + vm_compute. reflexivity.
    + vm_compute. reflexivity.
Defined.

(** ** The state object of a definition *)

Lemma assoc_set_same {A} k (v : A) l : assoc k (assoc_set k v l) = Some v.
Proof.
  induction l as [|[k' v'] l IH]; simpl.
  - by rewrite String.eqb_refl.
  - destruct (String.eqb k k') eqn:E; simpl; rewrite ?E, ?String.eqb_refl; auto.
Qed.

Lemma spanApp_noHooks name text state : noHooks (spanApp name text state).
Proof.
  intros k c Hk. unfold spanApp in Hk. simpl in Hk.
  apply lookup_singleton_Some in Hk as [_ <-]. reflexivity.
Qed.

Lemma getProp_assigned target p v h h' :
  assignMember target p v h = Ok h' -> getProp h' target p = Ok v.
Proof.
  unfold assignMember, getProp, setProp.
  destruct target as [| | | | |a| |]; try discriminate.
  destruct (h !! a) as [o|] eqn:E; [|discriminate].
  destruct (String.eqb p "__proto__"); [discriminate|]. intros [= <-].
  rewrite list_lookup_insert_eq by (by eapply lookup_lt_Some).
  by rewrite assoc_set_same.
Qed.

(** C10.  A mount, by [renderComponent] or for a placeholder of the page,
    registers the instance with the [state] of the definition itself (the
    hooks leaving the registry alone).  Two instances of a component,
    mounted on either path, therefore read one object: a member assigned
    through the context of the one is read through the context of the
    other.  A [setState] on the one replaces the reference of that one
    only. *)
Theorem instances_share_state app fuel name k1 k2 c r1 r2 w w1 w2 t1 p v h
  newState w3 :
  quietApp app ->
  components app !! name = Some c ->
  name ++ k1 <> name ++ k2 ->
  mounts app fuel (VStr name) (VStr k1) r1 w w1 ->
  mounts app fuel (VStr name) (VStr k2) r2 w1 w2 ->
  getThisParameter (VStr name) (VStr k1) w2 = Ok t1 ->
  assignMember (this_state t1) p v (heap w2) = Ok h ->
  setState app fuel t1 newState w2 = Ok w3 ->
  page_elements w1 !! (name ++ k1) = Some (Some (mkEntry (c_state c) r1))
  /\ page_elements w2 !! (name ++ k1) = Some (Some (mkEntry (c_state c) r1))
  /\ page_elements w2 !! (name ++ k2) = Some (Some (mkEntry (c_state c) r2))
  /\ this_state t1 = c_state c
  /\ (exists t2,
        getThisParameter (VStr name) (VStr k2) w2 = Ok t2
        /\ this_state t2 = c_state c)
  /\ (exists t2,
        getThisParameter (VStr name) (VStr k2) (with_heap h w2) = Ok t2
        /\ getProp h (this_state t2) p = Ok v)
  /\ (exists t1' t2,
        getThisParameter (VStr name) (VStr k1) w3 = Ok t1'
        /\ getThisParameter (VStr name) (VStr k2) w3 = Ok t2
        /\ this_state t1' = newState /\ this_state t2 = c_state c).
Proof.
  intros Hq Hc Hne H1 H2 Ht1 Ha Hs.
  destruct (mounts_registers app fuel (VStr name) (VStr k1) name c
              (name ++ k1) r1 w w1) as [Hh1 He1]; try done.
  destruct (mounts_registers app fuel (VStr name) (VStr k2) name c
              (name ++ k2) r2 w1 w2) as [Hh2 He2]; try done.
  assert (page_elements w1 !! (name ++ k1)
          = Some (Some (mkEntry (c_state c) r1))) as L0.
  { rewrite He1. apply lookup_insert_eq. }
  assert (page_elements w2 !! (name ++ k1)
          = Some (Some (mkEntry (c_state c) r1))) as L1.
  { by rewrite He2, lookup_insert_ne by congruence. }
  assert (page_elements w2 !! (name ++ k2)
          = Some (Some (mkEntry (c_state c) r2))) as L2.
  { rewrite He2. apply lookup_insert_eq. }
  assert (forall k e w0, page_elements w0 !! (name ++ k) = Some (Some e) ->
            getThisParameter (VStr name) (VStr k) w0
            = Ok (mkThis (VStr name) (VStr k)
                         (Dom.firstChild (e_dom e) (nodes w0)) (e_state e)))
    as G.
  { intros k e w0 L.
    rewrite (getThisParameter_entry _ _ (name ++ k)) by reflexivity.
    unfold getEntry. by rewrite L. }
  rewrite (G k1 _ w2 L1) in Ht1. injection Ht1 as <-. simpl in Ha.
  split; [exact L0|]. split; [exact L1|]. split; [exact L2|].
  split; [reflexivity|]. split; [|split].
  - eexists. rewrite (G k2 _ w2 L2). by split.
  - eexists. rewrite (G k2 _ (with_heap h w2) L2). split; [done|].
    simpl. by eapply getProp_assigned.
  - match type of Hs with
    | setState _ _ ?t _ _ = _ =>
        pose proof (setState_stores app Hq fuel t newState (name ++ k1)
                      w2 w3 eq_refl Hs) as (e & Le & He3 & _)
    end.
    do 2 eexists. rewrite (G k1 (mkEntry newState (e_dom e)) w3),
      (G k2 (mkEntry (c_state c) r2) w3).
    + by repeat split.
    + rewrite He3, lookup_insert_ne by congruence. exact L2.
    + rewrite He3. apply lookup_insert_eq.
Qed.

Lemma instances_share_state_witness :
  (page_elements oneInstance !! ("counter" ++ "k")
   = Some (Some (mkEntry (VObj 0) 1))
   /\ page_elements twoInstances !! ("counter" ++ "k")
      = Some (Some (mkEntry (VObj 0) 1))
   /\ page_elements twoInstances !! ("counter" ++ "j")
      = Some (Some (mkEntry (VObj 0) 4))
   /\ this_state counterThis = VObj 0
   /\ (exists t2,
         getThisParameter (VStr "counter") (VStr "j") twoInstances = Ok t2
         /\ this_state t2 = VObj 0)
   /\ (exists t2,
         getThisParameter (VStr "counter") (VStr "j")
                          (with_heap [[("count", VNum 7)]; [("count", VNum 5)]]
                                     twoInstances) = Ok t2
         /\ getProp [[("count", VNum 7)]; [("count", VNum 5)]]
                    (this_state t2) "count" = Ok (VNum 7))
   /\ (exists t1' t2,
         getThisParameter (VStr "counter") (VStr "k") sharedSet = Ok t1'
         /\ getThisParameter (VStr "counter") (VStr "j") sharedSet = Ok t2
         /\ this_state t1' = VObj 1 /\ this_state t2 = VObj 0))
  /\ (page_elements onePlaceholder !! ("counter" ++ "k")
      = Some (Some (mkEntry (VObj 0) 0))
      /\ page_elements twoPlaceholders !! ("counter" ++ "k")
         = Some (Some (mkEntry (VObj 0) 0))
      /\ page_elements twoPlaceholders !! ("counter" ++ "j")
         = Some (Some (mkEntry (VObj 0) 1))
      /\ this_state placeholderThis = VObj 0
      /\ (exists t2,
            getThisParameter (VStr "counter") (VStr "j") twoPlaceholders
            = Ok t2
            /\ this_state t2 = VObj 0)
      /\ (exists t2,
            getThisParameter (VStr "counter") (VStr "j")
              (with_heap [[("count", VNum 7)]; [("count", VNum 5)]]
                         twoPlaceholders) = Ok t2
            /\ getProp [[("count", VNum 7)]; [("count", VNum 5)]]
                       (this_state t2) "count" = Ok (VNum 7))
      /\ (exists t1' t2,
            getThisParameter (VStr "counter") (VStr "k") placeholderSet
            = Ok t1'
            /\ getThisParameter (VStr "counter") (VStr "j") placeholderSet
               = Ok t2
            /\ this_state t1' = VObj 1 /\ this_state t2 = VObj 0)).
Proof.
  split.
  - apply (instances_share_state counterApp 1 "counter" "k" "j"
             (spanComponent "counter" "{{state.count}}" (VObj 0))
             1 4 startWorld oneInstance twoInstances counterThis
             "count" (VNum 7) [[("count", VNum 7)]; [("count", VNum 5)]]
             (VObj 1) sharedSet).
    + apply noHooks_quiet, spanApp_noHooks.
    + reflexivity.
    + discriminate.
    + left. exists 0%nat. split; [vm_compute; reflexivity | reflexivity].
    + left. exists 0%nat. split; [vm_compute; reflexivity | reflexivity].
    + vm_compute. reflexivity.
    + vm_compute. reflexivity.
    + vm_compute. reflexivity.
  - apply (instances_share_state counterApp 1 "counter" "k" "j"
             (spanComponent "counter" "{{state.count}}" (VObj 0))
             0 1 twoSlots onePlaceholder twoPlaceholders placeholderThis
             "count" (VNum 7) [[("count", VNum 7)]; [("count", VNum 5)]]
             (VObj 1) placeholderSet).
    + apply noHooks_quiet, spanApp_noHooks.
    + reflexivity.
    + discriminate.
    + right. vm_compute. reflexivity.
    + right. vm_compute. reflexivity.
    + vm_compute. reflexivity.
    + vm_compute. reflexivity.
    + vm_compute. reflexivity.
Defined.

(** ** The links of the host tree during a mount *)

Lemma grows_refl d L : (d < length L)%nat -> grows d [] L L.
Proof.
  intros H. split; [lia|]. split; [lia|]. split; [|done].
  destruct (L !! d) as [[cs p]|]; simpl; [|done].
  unfold addChildren. simpl. by rewrite app_nil_r.
Qed.

Lemma grows_trans d ids1 ids2 L1 L2 L3 :
  grows d ids1 L1 L2 -> grows d ids2 L2 L3 ->
  grows d (ids1 ++ ids2)%list L1 L3.
Proof.
  intros (Hd & Hl & H1 & O1) (_ & Hl' & H2 & O2).
  split; [lia|]. split; [lia|]. split.
  - rewrite H2, H1. destruct (L1 !! d) as [[cs p]|]; simpl; [|done].
    unfold addChildren. simpl. by rewrite app_assoc.
  - intros j Hj Hne. rewrite O2, O1; auto. lia.
Qed.

Lemma linkMap_length w : length (linkMap w) = length (nodes w).
Proof. apply length_fmap. Qed.

Lemma links_lookup (ns : list Node) (d : nat) :
  (links <$> ns) !! d = links <$> (ns !! d).
Proof. apply list_lookup_fmap. Qed.

Lemma setAttribute_links d k s (ns ns' : list Node) :
  Dom.setAttribute d k s ns = Ok ns' -> links <$> ns' = links <$> ns.
Proof.
  unfold Dom.setAttribute. destruct (ns !! d) as [n|] eqn:E; [|discriminate].
  destruct (Dom.isElement n), (Dom.plainName k); intros [= <-].
  rewrite list_fmap_insert. apply list_insert_id.
  by rewrite links_lookup, E.
Qed.

Lemma addEventListener_links d l (ns ns' : list Node) :
  Dom.addEventListener d l ns = Ok ns' -> links <$> ns' = links <$> ns.
Proof.
  unfold Dom.addEventListener.
  destruct (ns !! d) as [n|] eqn:E; [|discriminate].
  intros [= <-]. rewrite list_fmap_insert. apply list_insert_id.
  by rewrite links_lookup, E.
Qed.

Lemma appendChild_links d c (ns ns' : list Node) cs_d p_d cs_c :
  (links <$> ns) !! d = Some (cs_d, p_d) ->
  (links <$> ns) !! c = Some (cs_c, None) ->
  Dom.appendChild d c ns = Ok ns' ->
  d <> c
  /\ links <$> ns'
     = <[c := (cs_c, Some d)]>
         (<[d := ((cs_d ++ [c])%list, p_d)]> (links <$> ns)).
Proof.
  rewrite !links_lookup. intros Hd Hc H. unfold Dom.appendChild in H.
  destruct (ns !! d) as [dn|] eqn:Ed; [|discriminate].
  destruct (ns !! c) as [cn|] eqn:Ec; [|discriminate].
  injection Hd as Hd1 Hd2. injection Hc as Hc1 Hc2.
  destruct (negb (Dom.isElement dn) || (d =? c)%nat) eqn:G; [discriminate|].
  apply orb_false_elim in G as [_ G]. apply Nat.eqb_neq in G.
  assert (Dom.detach c ns = ns) as D.
  { unfold Dom.detach. by rewrite Ec, Hc2. }
  rewrite D, Ed, Ec in H. injection H as <-. split; [exact G|].
  rewrite !list_fmap_insert. unfold links. simpl. by rewrite Hd1, Hd2, Hc1.
Qed.

Lemma liftDom_links f w w' :
  (forall ns', f (nodes w) = Ok ns' -> links <$> ns' = links <$> nodes w) ->
  liftDom f w = Ok w' -> linkMap w' = linkMap w.
Proof.
  intros Hf H. unfold liftDom in H.
  destruct (f (nodes w)) as [ns'| | |] eqn:E; try discriminate.
  injection H as <-. unfold linkMap. simpl. by apply Hf.
Qed.

Lemma linkMap_created w n :
  links n = ([], None) ->
  linkMap (with_nodes (nodes w ++ [n]) w) = (linkMap w ++ [([], None)])%list.
Proof.
  intros H. unfold linkMap. simpl. by rewrite fmap_app; simpl; rewrite H.
Qed.

(** The assembly of an element: created, decorated, filled, appended. *)
Lemma element_appended d ids w w4 w' :
  (d < length (nodes w))%nat ->
  grows (length (nodes w)) ids (linkMap w ++ [([], None)])%list (linkMap w4) ->
  liftDom (Dom.appendChild d (length (nodes w))) w4 = Ok w' ->
  appended d (linkMap w) (linkMap w')
  /\ linkMap w' !! length (nodes w) = Some (ids, Some d)
  /\ forall j, j <> d -> j <> length (nodes w) ->
       linkMap w' !! j = linkMap w4 !! j.
Proof.
  rewrite <- (linkMap_length w). set (L := linkMap w).
  intros Hd (He & Hl & Hids & O) H.
  rewrite length_app in *. simpl in *.
  rewrite lookup_app_r, Nat.sub_diag in Hids by lia. simpl in Hids.
  assert (linkMap w4 !! d = L !! d) as Hd4.
  { rewrite O by lia. by apply lookup_app_l. }
  destruct (lookup_lt_is_Some_2 L d Hd) as [[cs_d p_d] Ld].
  rewrite Ld in Hd4.
  unfold liftDom in H.
  destruct (Dom.appendChild d (length L) (nodes w4)) as [ns'| | |] eqn:A;
    try discriminate.
  injection H as <-.
  destruct (appendChild_links _ _ _ _ _ _ _ Hd4 Hids A) as [Hne EL].
  change (linkMap (with_nodes ns' w4)) with (links <$> ns'). rewrite !EL.
  fold (linkMap w4).
  split; [|split].
  - split; [|split].
    + split; [exact Hd|]. split; [rewrite !length_insert; lia|]. split.
      * rewrite list_lookup_insert_ne, list_lookup_insert_eq, Ld by lia. done.
      * intros j Hj Hjd. rewrite !list_lookup_insert_ne by lia.
        rewrite O by lia. by apply lookup_app_l.
    + rewrite !length_insert. lia.
    + rewrite list_lookup_insert_eq by (rewrite length_insert; lia). done.
  - rewrite list_lookup_insert_eq by (rewrite length_insert; lia). done.
  - intros j Hjd Hje. by rewrite !list_lookup_insert_ne by lia.
Qed.

Lemma forEach_grows {A} (body : A -> World -> Res World) elem l :
  Forall (fun x => forall w w', body x w = Ok w' ->
            (elem < length (nodes w))%nat ->
            appended elem (linkMap w) (linkMap w')) l ->
  forall w w', forEach body l w = Ok w' -> (elem < length (nodes w))%nat ->
    exists ids, length ids = length l
                /\ grows elem ids (linkMap w) (linkMap w').
Proof.
  induction 1 as [|x l Hx _ IH]; intros w w' H Hlt; simpl in H.
  - injection H as <-. exists []. split; [done|].
    apply grows_refl. by rewrite linkMap_length.
  - split_bind H as w1 E1. destruct (Hx _ _ E1 Hlt) as (G1 & Hl & _).
    rewrite !linkMap_length in Hl.
    destruct (IH _ _ H) as (ids & Hn & G2); [lia|].
    exists (length (linkMap w) :: ids). split; [simpl; lia|].
    apply (grows_trans _ [_] ids _ _ _ G1 G2).
Qed.

Lemma forEach_links {A} (body : A -> World -> Res World) l :
  (forall x w w', body x w = Ok w' -> linkMap w' = linkMap w) ->
  forall w w', forEach body l w = Ok w' -> linkMap w' = linkMap w.
Proof.
  intros Hb.
  apply (forEach_preserves (fun a b => linkMap b = linkMap a));
    [done | congruence | apply Forall_forall; eauto].
Qed.

Lemma connectAttr_links app fuel elem name key attr w w' :
  connectAttr app fuel elem name key attr w = Ok w' -> linkMap w' = linkMap w.
Proof.
  destruct attr as [k v]. unfold connectAttr.
  destruct (JS.startsWith k "on"); intros H.
  - eapply liftDom_links; [|exact H]. intros; by eapply addEventListener_links.
  - inv_bind H. inv_bind H.
    eapply liftDom_links; [|exact H]. intros; by eapply setAttribute_links.
Qed.

Lemma pageAttr_links elem attr w w' :
  pageAttr elem attr w = Ok w' -> linkMap w' = linkMap w.
Proof.
  destruct attr as [k v]. unfold pageAttr. intros H. inv_bind H.
  eapply liftDom_links; [|exact H]. intros; by eapply setAttribute_links.
Qed.

Lemma connectComponent_appended app fuel sk :
  forall d name key w w',
    connectComponent app fuel d sk name key w = Ok w' ->
    (d < length (nodes w))%nat ->
    appended d (linkMap w) (linkMap w').
Proof.
  induction sk as [text | tag attrs cs IH] using Skeleton_nested_ind;
    intros d name key w w' H Hd; simpl in H.
  - inv_bind H. inv_bind H. unfold createTextNode in H.
    eapply (element_appended d []); [exact Hd | | exact H].
    rewrite linkMap_created by done. apply grows_refl.
    rewrite length_app, linkMap_length. simpl. lia.
  - unfold createElement in H.
    split_bind H as w2 E2. split_bind H as w3 E3.
    apply (forEach_links _ _ (connectAttr_links app fuel _ name key)) in E2.
    rewrite linkMap_created in E2 by done.
    eapply forEach_grows in E3 as (ids & _ & G).
    + rewrite E2 in G.
      by apply (element_appended d ids w w3 w' Hd G).
    + eapply Forall_impl; [exact IH|]. simpl. eauto.
    + rewrite <- (linkMap_length w2), E2, length_app, linkMap_length.
      simpl. lia.
Qed.

Lemma buildSkeleton_nodes app fuel name w w' :
  buildSkeleton app fuel name w = Ok w' -> nodes w' = nodes w.
Proof. intros H. by apply buildSkeleton_frame in H as [_ H]. Qed.

Lemma extends_refl w : extends w w.
Proof. by split. Qed.

Lemma extends_trans a b c : extends a b -> extends b c -> extends a c.
Proof. intros [S1 E1] [S2 E2]. split; eauto. Qed.

Lemma domOnly_extends w w' : domOnly w w' -> extends w w'.
Proof. intros ->. by split. Qed.

Lemma buildSkeleton_extends app fuel name w w' :
  buildSkeleton app fuel name w = Ok w' -> extends w w'.
Proof.
  unfold buildSkeleton. intros H. split_bind H as cached Ec.
  unfold cachedSkeleton in Ec. split_bind Ec as c0 Ec0.
  split_bind Ec as k Ek. injection Ec as <-.
  destruct (skeletons w !! k) as [sk0|] eqn:L;
    [injection H as <-; apply extends_refl|].
  split_bind H as c Ecomp. split_bind H as k' Ek'.
  rewrite Ek in Ek'. injection Ek' as <-.
  destruct (firstElement (c_render c)) as [child|];
    [|injection H as <-; apply extends_refl].
  split_bind H as s Es.
  destruct s as [sk|]; injection H as <-; [|apply extends_refl].
  split; simpl; [|done]. intros k' sk' L'.
  destruct (decide (k = k')) as [<-|Hne]; [congruence|].
  by rewrite lookup_insert_ne.
Qed.

Lemma register_extends k e w :
  extends w (with_elements (<[k := Some e]> (page_elements w)) w).
Proof.
  split; simpl; [done|]. intros k' [e' Hk']. unfold registered. simpl.
  destruct (decide (k = k')) as [<-|Hne].
  - exists e. apply lookup_insert_eq.
  - exists e'. by rewrite lookup_insert_ne.
Qed.

Lemma setAttribute_last (ns : list Node) n k v :
  Dom.isElement n = true -> Dom.plainName k = true ->
  Dom.setAttribute (length ns) k v (ns ++ [n])
  = Ok (ns ++ [Dom.with_attributes (assoc_set k v (attributes n)) n])%list.
Proof.
  intros He Hk. unfold Dom.setAttribute.
  rewrite (list_lookup_middle ns [] n (length ns)) by done. rewrite He, Hk.
  by rewrite insert_app_r_alt, Nat.sub_diag by lia.
Qed.

Lemma getAttribute_last (ns : list Node) n k :
  Dom.getAttribute (length ns) k (ns ++ [n])
  = match assoc k (attributes n) with Some v => VStr v | None => VNull end.
Proof.
  unfold Dom.getAttribute.
  by rewrite (list_lookup_middle ns [] n (length ns)).
Qed.

Lemma children_of_links w d cs p :
  linkMap w !! d = Some (cs, p) ->
  Dom.children d (nodes w) = cs /\ Dom.parent d (nodes w) = p.
Proof.
  unfold linkMap, Dom.children, Dom.parent. rewrite links_lookup.
  destruct (nodes w !! d) as [n|]; [|discriminate]. by intros [= <- <-].
Qed.

Lemma parent_of_links w d p :
  snd <$> linkMap w !! d = Some p -> Dom.parent d (nodes w) = p.
Proof.
  unfold linkMap, Dom.parent. rewrite links_lookup.
  destruct (nodes w !! d) as [n|]; [|discriminate]. by intros [= <-].
Qed.

(** *** Page-level mounting when no component has hooks *)

Section WithoutHooks.

Variable app : App.
Variable fuel : nat.
Hypothesis no_hooks : noHooks app.

Lemma fireHook_noHooks h name key w w' :
  fireHook app h name key w = Ok w' -> w' = w.
Proof.
  intros H. unfold fireHook in H. split_bind H as c' Ec.
  apply getComponent_Ok in Ec as (n & _ & L).
  rewrite (no_hooks n c' L) in H. by injection H.
Qed.

Lemma connectPlaceholder_appended elem name key w w' :
  connectPlaceholder app fuel elem name key w = Ok w' ->
  (elem < length (nodes w))%nat ->
  appended elem (linkMap w) (linkMap w').
Proof.
  intros H Hlt. unfold connectPlaceholder in H.
  split_bind H as wb Eb. apply buildSkeleton_nodes in Eb.
  split_bind H as ek Eek. split_bind H as c Ec.
  split_bind H as w1 E1. apply fireHook_noHooks in E1.
  subst w1. split_bind H as e Ee.
  unfold getEntry in Ee. simpl in Ee.
  rewrite lookup_insert_eq in Ee.
  injection Ee as <-. simpl in H.
  split_bind H as sk Esk. split_bind H as w3 E3.
  apply fireHook_noHooks in H. subst w'.
  apply connectComponent_appended in E3; [|simpl; by rewrite Eb].
  unfold linkMap in *. simpl in E3. by rewrite Eb in E3.
Qed.

Lemma connectPage_node d tag attrs cs w w' :
  Forall (fun c => forall d w w',
            connectPage app fuel d c w = Ok w' ->
            (d < length (nodes w))%nat ->
            appended d (linkMap w) (linkMap w')) cs ->
  (d < length (nodes w))%nat ->
  connectPage app fuel d (SNode tag attrs cs) w = Ok w' ->
  let elem := length (nodes w) in
  exists w2 w3 w4 first rest,
    forEach (pageAttr elem) attrs
            (with_nodes (nodes w ++ [Dom.newElement tag]) w) = Ok w2
    /\ forEach (fun c => connectPage app fuel elem c) cs w3 = Ok w4
    /\ liftDom (Dom.appendChild d elem) w4 = Ok w'
    /\ (if truthy (Dom.getAttribute elem "lucid-component" (nodes w2))
           || truthy (Dom.getAttribute elem "lucid-key" (nodes w2))
        then connectPlaceholder app fuel elem
               (Dom.getAttribute elem "lucid-component" (nodes w2))
               (Dom.getAttribute elem "lucid-key" (nodes w2)) w2
             = Ok w3 /\ first = [S elem]
             /\ snd <$> linkMap w3 !! S elem = Some (Some elem)
        else w3 = w2 /\ first = [])
    /\ length rest = length cs
    /\ (S elem <= length (nodes w3))%nat
    /\ appended d (linkMap w) (linkMap w')
    /\ linkMap w' !! elem = Some ((first ++ rest)%list, Some d)
    /\ forall j, (j < length (nodes w3))%nat -> j <> d -> j <> elem ->
         linkMap w' !! j = linkMap w3 !! j.
Proof.
  intros IH Hd H elem. simpl in H. unfold createElement in H.
  split_bind H as w2 E2. split_bind H as w3 E3. split_bind H as w4 E4.
  fold elem in E2, E3, E4, H.
  pose proof (forEach_links _ _ (pageAttr_links elem) _ _ E2) as L2.
  rewrite linkMap_created in L2 by done.
  assert (length (nodes w2) = S elem) as Len2.
  { rewrite <- (linkMap_length w2), L2, length_app, linkMap_length.
    simpl. subst elem. lia. }
  assert (exists first,
            grows elem first (linkMap w2) (linkMap w3)
            /\ (S elem <= length (nodes w3))%nat
            /\ if truthy (Dom.getAttribute elem "lucid-component" (nodes w2))
                  || truthy (Dom.getAttribute elem "lucid-key" (nodes w2))
               then connectPlaceholder app fuel elem
                      (Dom.getAttribute elem "lucid-component" (nodes w2))
                      (Dom.getAttribute elem "lucid-key" (nodes w2)) w2
                    = Ok w3 /\ first = [S elem]
                    /\ snd <$> linkMap w3 !! S elem = Some (Some elem)
               else w3 = w2 /\ first = []) as (first & G1 & Len3 & Hfirst).
  { destruct (truthy _ || truthy _).
    - pose proof (connectPlaceholder_appended _ _ _ _ _ E3)
        as (G & Hl & Hp); [lia|].
      rewrite !linkMap_length, Len2 in *.
      exists [S elem]. split; [exact G|]. split; [lia|]. done.
    - injection E3 as <-. exists []. split; [|split; [lia|done]].
      apply grows_refl. rewrite linkMap_length. lia. }
  pose proof E4 as E4'.
  eapply forEach_grows in E4 as (rest & Hrest & G2);
    [| eapply Forall_impl; [exact IH|]; simpl; eauto | lia].
  pose proof (grows_trans _ _ _ _ _ _ G1 G2) as G. rewrite L2 in G.
  destruct (element_appended d _ w w4 w' Hd G H) as (A & Le & O).
  exists w2, w3, w4, first, rest. split; [exact E2|]. split; [exact E4'|].
  split; [exact H|]. split; [exact Hfirst|].
  split; [exact Hrest|]. split; [exact Len3|]. split; [exact A|].
  split; [exact Le|].
  intros j Hj Hjd Hje. rewrite O by done.
  destruct G2 as (_ & _ & _ & O2). apply O2; [|done].
  by rewrite linkMap_length.
Qed.

Lemma connectPage_appended sk :
  forall d w w',
    connectPage app fuel d sk w = Ok w' -> (d < length (nodes w))%nat ->
    appended d (linkMap w) (linkMap w').
Proof.
  induction sk as [text | tag attrs cs IH] using Skeleton_nested_ind;
    intros d w w' H Hd.
  - simpl in H. unfold createTextNode in H.
    eapply (element_appended d []); [exact Hd | | exact H].
    rewrite linkMap_created by done. apply grows_refl.
    rewrite length_app, linkMap_length. simpl. lia.
  - destruct (connectPage_node d tag attrs cs w w' IH Hd H)
      as (? & ? & ? & ? & ? & _ & _ & _ & _ & _ & _ & A & _). exact A.
Qed.

Lemma connectPlaceholder_extends elem name key w w' :
  connectPlaceholder app fuel elem name key w = Ok w' -> extends w w'.
Proof.
  intros H. unfold connectPlaceholder in H.
  split_bind H as wb Eb. apply buildSkeleton_extends in Eb.
  split_bind H as ek Eek. split_bind H as c Ec.
  split_bind H as w1 E1. apply fireHook_noHooks in E1.
  subst w1. split_bind H as e Ee. split_bind H as sk Esk.
  split_bind H as w3 E3. apply connectComponent_domOnly in E3.
  apply fireHook_noHooks in H. subst w'.
  eapply extends_trans; [exact Eb|].
  eapply extends_trans; [apply register_extends|].
  apply domOnly_extends, E3.
Qed.

Lemma connectPage_extends sk :
  forall d w w', connectPage app fuel d sk w = Ok w' -> extends w w'.
Proof.
  induction sk as [text | tag attrs cs IH] using Skeleton_nested_ind;
    intros d w w' H; simpl in H.
  - unfold createTextNode in H. apply liftDom_domOnly in H.
    apply domOnly_extends. eapply domOnly_trans; [|exact H].
    apply domOnly_with_nodes.
  - unfold createElement in H.
    split_bind H as w2 E2. split_bind H as w3 E3. split_bind H as w4 E4.
    apply liftDom_domOnly, domOnly_extends in H.
    eapply extends_trans; [|exact H]. clear H.
    eapply extends_trans; [apply domOnly_extends, domOnly_with_nodes|].
    eapply extends_trans.
    { eapply (forEach_preserves extends);
        [apply extends_refl | apply extends_trans | | exact E2].
      apply Forall_forall. intros [k v] _ wa wb Hab.
      unfold pageAttr in Hab. inv_bind Hab.
      by apply liftDom_domOnly, domOnly_extends in Hab. }
    eapply extends_trans.
    { destruct (truthy _ || truthy _).
      - by eapply connectPlaceholder_extends.
      - injection E3 as <-. apply extends_refl. }
    eapply (forEach_preserves extends);
      [apply extends_refl | apply extends_trans | | exact E4].
    eapply Forall_impl; [exact IH|]. simpl. eauto.
Qed.

Lemma connectPlaceholder_effects elem name key w w' :
  connectPlaceholder app fuel elem (VStr name) (VStr key) w = Ok w' ->
  (exists sk, skeletons w' !! name = Some sk
              /\ forall sk0, skeletons w !! name = Some sk0 -> sk0 = sk)
  /\ registered w' (name ++ key).
Proof.
  intros H. unfold connectPlaceholder in H.
  split_bind H as wb Eb. apply buildSkeleton_extends in Eb as [Sb _].
  split_bind H as ek Eek. injection Eek as <-. split_bind H as c Ec.
  split_bind H as w1 E1. apply fireHook_noHooks in E1.
  subst w1. split_bind H as e Ee. split_bind H as sk Esk.
  split_bind H as w3 E3. apply connectComponent_domOnly in E3.
  apply fireHook_noHooks in H. subst w'.
  unfold getSkeleton, cachedSkeleton in Esk.
  split_bind Esk as cached Ecached. split_bind Ecached as c0 Ec0.
  split_bind Ecached as k Ek. injection Ek as <-. injection Ecached as <-.
  simpl in Esk.
  destruct (skeletons wb !! name) as [sk'|] eqn:L; [|discriminate].
  injection Esk as ->. split.
  - exists sk. rewrite (domOnly_skeletons _ _ E3). simpl. split; [exact L|].
    intros sk0 L0. apply Sb in L0. congruence.
  - unfold registered. rewrite (domOnly_elements _ _ E3). simpl.
    rewrite lookup_insert_eq. eauto.
Qed.

End WithoutHooks.

Lemma C4_counterexample : ~ placeholderChildrenSkipped counterApp.
Proof.
  intros H.
  specialize (H 1%nat 0%nat "DIV" "counter" "k" [SText "inside"]
                startWorld pageMounted).
  vm_compute in H. specialize (H eq_refl). discriminate.
Qed.

(** ** Scenarios *)

Lemma C1_counterexample : ~ stateReplaced "{{count}}".
Proof.
  intros (w1 & w2 & hostRoot & span & textNode & H & Hroot & Hspan & _ & _
          & _ & Hchildren & Hvalue).
  vm_compute in H. injection H as <- <-.
  vm_compute in Hroot. injection Hroot as <-.
  vm_compute in Hspan. injection Hspan as <-.
  vm_compute in Hchildren. injection Hchildren as <-.
  vm_compute in Hvalue. discriminate.
Qed.

(** C6 (the code departs from it).  A component whose hooks write to the
    log is mounted for a placeholder of the page by [run]: [created] fires
    before [connected], both before [run] returns, but [connected] fires
    while the host root of the instance has no parent yet.  Mounted by
    [renderComponent], the same component sees its host root attached. *)
Theorem connected_fires_before_insertion :
  (exists w, run hookedApp 1 0 startWorld = Ok w
             /\ log w = ["created"; "connected detached"])
  /\ (exists w, renderComponent hookedApp 1 0 (VStr "counter") (VStr "k")
                                startWorld = Ok w
                /\ log w = ["created"; "connected attached"]).
Proof.
  split; eexists; (split; [vm_compute; reflexivity | reflexivity]).
Qed.
Lemma interpolate_plain fuel w elementKey text :
  JS.indexOf text "{{" 0 = (-1)%Z ->
  interpolate fuel w elementKey text = Ok text.
Proof. intros H. destruct fuel; simpl; by rewrite H. Qed.

(** The text [{{state.count}}] against an entry whose state is a record
    with an integer [count]. *)
Lemma interpolate_count fuel w elementKey e a o z :
  page_elements w !! elementKey = Some (Some e) -> e_state e = VObj a ->
  heap w !! a = Some o -> assoc "count" o = Some (VNum z) ->
  (z = 0 \/ z = 5)%Z ->
  interpolate (S fuel) w elementKey "{{state.count}}"
  = Ok (JS.numberToString z).
Proof.
  intros He Hs Ha Hc Hz. simpl. unfold getEntry.
  rewrite He. simpl.
  rewrite Hs. simpl. rewrite Ha, Hc. simpl.
  destruct Hz as [-> | ->]; apply interpolate_plain; reflexivity.
Qed.

Lemma convert_count app fuel name key w e a o z :
  key <> "" ->
  page_elements w !! (name ++ key) = Some (Some e) ->
  e_state e = VObj a ->
  heap w !! a = Some o -> assoc "count" o = Some (VNum z) ->
  (z = 0 \/ z = 5)%Z ->
  convertTextVariables app (S fuel) (VStr "{{state.count}}") (VStr name)
                       (VStr key) w
  = Ok (VStr (JS.numberToString z)).
Proof.
  intros Hk He Hs Ha Hc Hz. unfold convertTextVariables, toStringMethod.
  unfold bind at 1. destruct (String.eqb_spec key ""); [done|].
  rewrite add_strings. unfold bind at 1.
  by rewrite (interpolate_count fuel w _ e a o z).
Qed.

Lemma getComponent_span name text state w :
  getComponent (spanApp name text state) (VStr name) w
  = Ok (spanComponent name text state).
Proof.
  unfold getComponent, spanApp. simpl.
  by rewrite lookup_singleton_eq.
Qed.

Lemma setState_count name key state fuel w elem span text hn sn tn s0 b o rest
  v dm s :
  key <> "" -> span <> text ->
  page_elements w !! (name ++ key) = Some (Some (mkEntry s0 elem)) ->
  skeletons w !! name = Some spanSkeleton ->
  nodes w !! elem = Some hn -> childNodes hn = span :: rest ->
  nodes w !! span = Some sn -> childNodes sn = [text] ->
  nodes w !! text = Some tn -> kind tn = Text v ->
  heap w !! b = Some o -> assoc "count" o = Some (VNum 5) ->
  setState (spanApp name "{{state.count}}" state) (S fuel)
           (mkThis (VStr name) (VStr key) dm s) (VObj b) w
  = Ok (with_nodes (<[text := Dom.with_kind (Text "5") tn]> (nodes w))
          (with_elements
             (<[name ++ key := Some (mkEntry (VObj b) elem)]>
                (page_elements w)) w)).
Proof.
  intros Hk Hst He Hsk Hn Hnc Hs Hsc Ht Htk Hb Hbc.
  unfold setState. simpl this_name. simpl this_key. rewrite add_strings.
  unfold bind at 1. unfold getEntry at 1.
  rewrite He. unfold bind at 1.
  unfold getEntry. simpl page_elements. rewrite lookup_insert_eq.
  unfold bind at 1. simpl e_dom.
  unfold getSkeleton, cachedSkeleton. rewrite getComponent_span.
  simpl. rewrite Hsk. simpl.
  unfold Dom.firstChild. rewrite Hn, Hnc. simpl.
  unfold Dom.children at 1. simpl. rewrite Hs, Hsc. simpl.
  erewrite convert_count;
    [|done|simpl; apply lookup_insert_eq|reflexivity|exact Hb|exact Hbc
     |by right].
  simpl. unfold liftDom, Dom.setNodeValue. simpl. rewrite Ht, Htk. simpl.
  unfold Dom.children. rewrite list_lookup_insert_ne by done. rewrite Hs, Hsc.
  simpl. rewrite getComponent_span. simpl. reflexivity.
Qed.

Lemma lookup_snoc_last {A} (l : list A) x :
  (l ++ [x])%list !! length l = Some x.
Proof. by apply (list_lookup_middle l [] x). Qed.

Lemma lookup_snoc_lt {A} (l : list A) x i :
  (i < length l)%nat -> (l ++ [x])%list !! i = l !! i.
Proof. intros. by apply lookup_app_l. Qed.

Lemma appendChild_known (ns : list Node) p c pn cn :
  ns !! p = Some pn -> ns !! c = Some cn ->
  Dom.isElement pn = true -> p <> c -> parentNode cn = None ->
  Dom.appendChild p c ns
  = Ok (<[c := Dom.with_parent (Some p) cn]>
          (<[p := Dom.with_children (childNodes pn ++ [c]) pn]> ns)).
Proof.
  intros Hp Hc He Hne Hpar. unfold Dom.appendChild. rewrite Hp, Hc, He.
  destruct (Nat.eqb_spec p c); [done|]. simpl.
  assert (Dom.detach c ns = ns) as ->.
  { unfold Dom.detach. by rewrite Hc, Hpar. }
  by rewrite Hp, Hc.
Qed.

Lemma length_snoc {A} (l : list A) x : length (l ++ [x]) = S (length l).
Proof. rewrite length_app. simpl. lia. Qed.

Lemma lookup_snoc_at {A} (l : list A) x i :
  i = length l -> (l ++ [x])%list !! i = Some x.
Proof. intros ->. apply lookup_snoc_last. Qed.

Lemma newElement_div :
  Dom.newElement "div" = mkNode (Element "DIV") [] [] None [].
Proof. reflexivity. Qed.

Lemma newElement_SPAN :
  Dom.newElement "SPAN" = mkNode (Element "SPAN") [] [] None [].
Proof. reflexivity. Qed.

Lemma numberToString_0 : JS.numberToString 0 = "0".
Proof. reflexivity. Qed.

Lemma numberToString_5 : JS.numberToString 5 = "5".
Proof. reflexivity. Qed.

Ltac norm :=
  rewrite ?newElement_div, ?newElement_SPAN, ?numberToString_0,
    ?numberToString_5;
  unfold with_nodes, with_elements, with_skeletons, Dom.with_attributes,
    Dom.with_children, Dom.with_parent, Dom.with_kind, Dom.newText;
  simpl; rewrite ?length_snoc.

Ltac len := rewrite ?length_insert, ?length_snoc; simpl; lia.

Ltac lookups :=
  repeat first
    [ rewrite list_lookup_insert_eq by len
    | rewrite list_lookup_insert_ne by len
    | rewrite lookup_snoc_at by len
    | rewrite lookup_snoc_lt by len ].

Lemma buildSkeleton_span name state fuel w :
  (forall sk0, skeletons w !! name = Some sk0 -> sk0 = spanSkeleton) ->
  exists cache,
    buildSkeleton (spanApp name "{{state.count}}" state) fuel (VStr name) w
    = Ok (with_skeletons cache w)
    /\ cache !! name = Some spanSkeleton.
Proof.
  intros Hsk. unfold buildSkeleton, cachedSkeleton.
  rewrite getComponent_span. simpl.
  destruct (skeletons w !! name) as [sk0|] eqn:L.
  - exists (skeletons w). split; [by destruct w|]. by rewrite (Hsk sk0) in L.
  - eexists. split; [reflexivity|]. apply lookup_insert_eq.
Qed.

Lemma renderComponent_count name key fuel w d dn a o :
  key <> "" ->
  (forall sk0, skeletons w !! name = Some sk0 -> sk0 = spanSkeleton) ->
  nodes w !! d = Some dn -> Dom.isElement dn = true ->
  heap w !! a = Some o -> assoc "count" o = Some (VNum 0) ->
  let elem := length (nodes w) in
  exists w1 hn,
    renderComponent (spanApp name "{{state.count}}" (VObj a)) (S fuel) d
                    (VStr name) (VStr key) w = Ok w1
    /\ heap w1 = heap w
    /\ page_elements w1
       = <[name ++ key := Some (mkEntry (VObj a) elem)]> (page_elements w)
    /\ skeletons w1 !! name = Some spanSkeleton
    /\ nodes w1 !! elem = Some hn /\ childNodes hn = [S elem]
    /\ nodes w1 !! S elem
       = Some (mkNode (Element "SPAN") [] [S (S elem)] (Some elem) [])
    /\ nodes w1 !! S (S elem)
       = Some (mkNode (Text "0") [] [] (Some (S elem)) []).
Proof.
  intros Hk Hsk Hd He Ha Hc elem.
  pose proof (lookup_lt_Some _ _ _ Hd) as Hlt.
  destruct (buildSkeleton_span name (VObj a) (S fuel) w Hsk)
    as (cache & Eb & Lc).
  unfold renderComponent. rewrite Eb. unfold bind at 1.
  unfold createElement. cbv beta iota. simpl toStr. unfold bind at 1.
  unfold liftDom at 1. simpl nodes. rewrite newElement_div.
  unfold elem. rewrite setAttribute_last by done. norm.
  unfold liftDom at 1. simpl nodes. rewrite setAttribute_last by done. norm.
  rewrite getComponent_span. norm.
  erewrite (fireHook_absent _ created);
    [|reflexivity|simpl; apply lookup_singleton_eq|reflexivity].
  norm.
  unfold getSkeleton, cachedSkeleton. rewrite getComponent_span. norm.
  rewrite Lc. unfold bind at 1.
  unfold spanSkeleton, connectComponent, forEach, createElement,
    createTextNode.
  norm.
  erewrite convert_count;
    [|done|simpl; apply lookup_insert_eq|reflexivity|exact Ha|exact Hc|by left].
  norm. unfold liftDom at 1. simpl nodes.
  erewrite appendChild_known;
    [|lookups; reflexivity|lookups; reflexivity|reflexivity|len|reflexivity].
  norm. unfold liftDom at 1. simpl nodes.
  erewrite appendChild_known;
    [|lookups; reflexivity|lookups; reflexivity|reflexivity|len|reflexivity].
  norm. unfold liftDom at 1. simpl nodes.
  erewrite appendChild_known;
    [|lookups; exact Hd|lookups; reflexivity|exact He|len|reflexivity].
  norm.
  erewrite (fireHook_absent _ connected);
    [|reflexivity|simpl; apply lookup_singleton_eq|reflexivity].
  do 2 eexists. split; [reflexivity|]. simpl.
  split; [reflexivity|]. split; [reflexivity|]. split; [exact Lc|].
  split; [lookups; reflexivity|]. split; [reflexivity|].
  split; lookups; reflexivity.
Qed.

(** C1, amended.  A component renders [<span>{{state.count}}</span>] and
    its state is a record with [count] 0.  An instance is mounted into an
    element of the host tree, then its state is replaced by a record with
    [count] 5.  Both calls return; the first child of the host root of the
    instance is the same [span] node before and after, with the same single
    text child; that text node read [0] after the mount and reads [5] after
    the update; no node was created by the update. *)
Theorem state_replacement name key fuel w d dn a b o0 o5 :
  key <> "" ->
  (forall sk0, skeletons w !! name = Some sk0 -> sk0 = spanSkeleton) ->
  nodes w !! d = Some dn -> Dom.isElement dn = true ->
  heap w !! a = Some o0 -> assoc "count" o0 = Some (VNum 0) ->
  heap w !! b = Some o5 -> assoc "count" o5 = Some (VNum 5) ->
  let hostRoot := length (nodes w) in
  let span := S hostRoot in
  let textNode := S span in
  exists w1 w2,
    mountThenSetState (spanApp name "{{state.count}}" (VObj a)) (S fuel) d
                      (VStr name) (VStr key) (VObj b) w = Ok (w1, w2)
    /\ rootOf w1 (name ++ key) = Some hostRoot
    /\ Dom.firstChild hostRoot (nodes w1) = Some span
    /\ Dom.tagName span (nodes w1) = Some "SPAN"
    /\ Dom.children span (nodes w1) = [textNode]
    /\ Dom.nodeValue textNode (nodes w1) = Some "0"
    /\ Dom.firstChild hostRoot (nodes w2) = Some span
    /\ Dom.tagName span (nodes w2) = Some "SPAN"
    /\ Dom.children span (nodes w2) = [textNode]
    /\ Dom.nodeValue textNode (nodes w2) = Some "5"
    /\ length (nodes w2) = length (nodes w1).
Proof.
  intros Hk Hsk Hd He Ha Hac Hb Hbc hostRoot span textNode.
  destruct (renderComponent_count name key fuel w d dn a o0 Hk Hsk Hd He Ha Hac)
    as (w1 & hn & Hmount & Hheap & Hreg & Hcache & Hhost & Hhc & Hspan & Htext).
  fold hostRoot in Hreg, Hhost, Hhc, Hspan, Htext.
  fold span in Hhc, Hspan, Htext. fold textNode in Hspan, Htext.
  assert (page_elements w1 !! (name ++ key)
          = Some (Some (mkEntry (VObj a) hostRoot))) as Hentry.
  { rewrite Hreg. apply lookup_insert_eq. }
  pose proof (lookup_lt_Some _ _ _ Htext) as Hlen.
  exists w1. eexists. unfold mountThenSetState. rewrite Hmount.
  unfold bind at 1.
  rewrite (getThisParameter_entry _ _ (name ++ key)) by reflexivity.
  unfold getEntry. rewrite Hentry. unfold bind at 1 2.
  erewrite (setState_count name key (VObj a) fuel w1 hostRoot span textNode);
    [|done|subst textNode; lia|exact Hentry|exact Hcache|exact Hhost|exact Hhc
     |exact Hspan|reflexivity|exact Htext|reflexivity
     |rewrite Hheap; exact Hb|exact Hbc].
  unfold bind at 1. split; [reflexivity|].
  split; [unfold rootOf; by rewrite Hentry|].
  unfold Dom.firstChild, Dom.tagName, Dom.children, Dom.nodeValue.
  simpl nodes.
  rewrite !list_lookup_insert_ne by (subst textNode span; lia).
  rewrite list_lookup_insert_eq by exact Hlen.
  rewrite Hhost, Hhc, Hspan, Htext. simpl. rewrite length_insert.
  repeat split.
Qed.

Lemma state_replacement_witness :
  exists w1 w2,
    mountThenSetState counterApp 1 0 (VStr "counter") (VStr "k") (VObj 1)
                      startWorld = Ok (w1, w2)
    /\ rootOf w1 ("counter" ++ "k") = Some 1%nat
    /\ Dom.firstChild 1 (nodes w1) = Some 2%nat
    /\ Dom.tagName 2 (nodes w1) = Some "SPAN"
    /\ Dom.children 2 (nodes w1) = [3%nat]
    /\ Dom.nodeValue 3 (nodes w1) = Some "0"
    /\ Dom.firstChild 1 (nodes w2) = Some 2%nat
    /\ Dom.tagName 2 (nodes w2) = Some "SPAN"
    /\ Dom.children 2 (nodes w2) = [3%nat]
    /\ Dom.nodeValue 3 (nodes w2) = Some "5"
    /\ length (nodes w2) = length (nodes w1).
Proof.
  apply (state_replacement "counter" "k" 0 startWorld 0 (Dom.newElement "div")
           0 1 [("count", VNum 0)] [("count", VNum 5)]);
    try reflexivity; discriminate.
Defined.

(** * Further properties *)

(** ** What a mount adds to the host tree *)

Lemma lookup_created {A} (base : list A) e news :
  (base ++ e :: news)%list !! length base = Some e.
Proof. by apply list_lookup_middle. Qed.

Lemma insert_created {A} (base : list A) e e' news :
  <[length base := e']> (base ++ e :: news)%list = (base ++ e' :: news)%list.
Proof. rewrite insert_app_r_alt by lia. by rewrite Nat.sub_diag. Qed.

Lemma appendChild_created (base : list Node) e news d ns' :
  (d < length base)%nat -> parentNode e = None ->
  Dom.appendChild d (length base) (base ++ e :: news) = Ok ns' ->
  exists dn,
    base !! d = Some dn
    /\ ns' = (<[d := Dom.with_children (childNodes dn ++ [length base]) dn]>
                base
              ++ Dom.with_parent (Some d) e :: news)%list.
Proof.
  intros Hd Hp H.
  destruct (lookup_lt_is_Some_2 base d Hd) as [dn Hdn].
  exists dn. split; [done|].
  assert ((base ++ e :: news)%list !! d = Some dn) as L1
    by (by rewrite lookup_app_l).
  pose proof (lookup_created base e news) as L2.
  unfold Dom.appendChild in H. rewrite L1, L2 in H.
  destruct (negb (Dom.isElement dn) || Nat.eqb d (length base));
    [discriminate|].
  assert (Dom.detach (length base) (base ++ e :: news) = base ++ e :: news)%list
    as D.
  { unfold Dom.detach. by rewrite L2, Hp. }
  rewrite D, L1, L2 in H. injection H as <-.
  rewrite insert_app_l by lia.
  rewrite <- (length_insert base d
                (Dom.with_children (childNodes dn ++ [length base]) dn)) at 1.
  apply insert_created.
Qed.

Lemma setAttribute_created (base : list Node) e news k v ns' :
  Dom.setAttribute (length base) k v (base ++ e :: news) = Ok ns' ->
  exists e', ns' = (base ++ e' :: news)%list /\ links e' = links e.
Proof.
  unfold Dom.setAttribute. rewrite lookup_created.
  destruct (Dom.isElement e), (Dom.plainName k); intros [= <-].
  rewrite insert_created. eauto.
Qed.

Lemma addEventListener_created (base : list Node) e news l ns' :
  Dom.addEventListener (length base) l (base ++ e :: news) = Ok ns' ->
  exists e', ns' = (base ++ e' :: news)%list /\ links e' = links e.
Proof.
  unfold Dom.addEventListener. rewrite lookup_created. intros [= <-].
  rewrite insert_created. eauto.
Qed.

Lemma connectAttr_created app fuel name key attr base e news w w' :
  nodes w = (base ++ e :: news)%list ->
  connectAttr app fuel (length base) name key attr w = Ok w' ->
  exists e', nodes w' = (base ++ e' :: news)%list /\ links e' = links e.
Proof.
  intros Hn H. destruct attr as [k v]. unfold connectAttr in H.
  destruct (JS.startsWith k "on").
  - unfold liftDom in H. split_bind H as ns' E. injection H as <-.
    rewrite Hn in E. by apply addEventListener_created in E.
  - split_bind H as r Er. split_bind H as s Es.
    unfold liftDom in H. split_bind H as ns' E. injection H as <-.
    rewrite Hn in E. by apply setAttribute_created in E.
Qed.

Lemma connectAttrs_created app fuel name key base news attrs :
  forall e w w',
    nodes w = (base ++ e :: news)%list ->
    forEach (connectAttr app fuel (length base) name key) attrs w = Ok w' ->
    exists e', nodes w' = (base ++ e' :: news)%list /\ links e' = links e.
Proof.
  induction attrs as [|a attrs IH]; intros e w w' Hn H; simpl in H.
  - injection H as <-. eauto.
  - split_bind H as w1 E1.
    destruct (connectAttr_created _ _ _ _ _ _ _ _ _ _ Hn E1) as (e1 & Hn1 & L1).
    destruct (IH e1 w1 w' Hn1 H) as (e' & Hn' & L').
    exists e'. split; [done|]. congruence.
Qed.

Lemma children_mounted (body : Skeleton -> World -> Res World) base cs :
  Forall (fun c => forall w w',
            body c w = Ok w' -> (length base < length (nodes w))%nat ->
            domOnly w w'
            /\ mountedUnder (length base) (size c) (nodes w) (nodes w')) cs ->
  forall e news w w',
    nodes w = (base ++ e :: news)%list ->
    forEach body cs w = Ok w' ->
    domOnly w w'
    /\ exists e' news',
         nodes w' = (base ++ e' :: news')%list
         /\ parentNode e' = parentNode e
         /\ length news' = (length news + sum_list (map size cs))%nat.
Proof.
  induction 1 as [|c cs Hc _ IH]; intros e news w w' Hn H; simpl in H.
  - injection H as <-. split; [apply domOnly_refl|].
    exists e, news. simpl. split; [done|]. split; [done|lia].
  - split_bind H as w1 E1.
    destruct (Hc w w1 E1) as (D1 & dn & root & new & Ld & Hn1 & Hlen & _).
    { rewrite Hn, length_app. simpl. lia. }
    rewrite Hn, lookup_created in Ld. injection Ld as <-.
    rewrite Hn, insert_created in Hn1. rewrite <- app_assoc in Hn1.
    simpl in Hn1.
    destruct (IH _ _ w1 w' Hn1 H) as (D' & e' & news' & Hn' & Hp & Hl).
    split; [by eapply domOnly_trans|].
    exists e', news'. split; [done|]. split; [done|].
    rewrite Hl, length_app. simpl. lia.
Qed.

Lemma Forall_forallb {A} (p : A -> bool) l :
  forallb p l = true -> Forall (fun x => p x = true) l.
Proof.
  induction l as [|x l IH]; simpl; [constructor|]. intros H.
  apply andb_true_iff in H as [Hx Hl]. constructor; auto.
Qed.

Lemma connectComponent_structure app fuel sk :
  forall d name key w w',
    connectComponent app fuel d sk name key w = Ok w' ->
    (d < length (nodes w))%nat ->
    domOnly w w' /\ mountedUnder d (size sk) (nodes w) (nodes w').
Proof.
  induction sk as [text | tag attrs cs IH] using Skeleton_nested_ind;
    intros d name key w w' H Hd;
    (split; [by eapply connectComponent_domOnly|]); simpl in H.
  - split_bind H as v Ev. split_bind H as data Ed.
    unfold createTextNode, liftDom in H. simpl in H.
    split_bind H as ns' E. injection H as <-. simpl.
    apply (appendChild_created (nodes w) _ []) in E as (dn & Ldn & ->);
      [|done|done].
    exists dn, (Dom.with_parent (Some d) (Dom.newText data)), [].
    by repeat split.
  - unfold createElement in H.
    split_bind H as w2 E2. split_bind H as w3 E3.
    unfold liftDom in H. split_bind H as ns' E. injection H as <-. simpl.
    destruct (connectAttrs_created app fuel name key (nodes w) [] attrs
                (Dom.newElement tag)
                (with_nodes (nodes w ++ [Dom.newElement tag]) w) w2
                eq_refl E2) as (e2 & Hn2 & L2).
    destruct (children_mounted
                (fun c => connectComponent app fuel (length (nodes w)) c
                                           name key)
                (nodes w) cs) with (e := e2) (news := @nil Node)
                                   (w := w2) (w' := w3)
      as (_ & e3 & news & Hn3 & Hp3 & Hl3); [|done|done|].
    { eapply Forall_impl; [exact IH|]. simpl. intros c Hc wa wb Hab Hlt.
      by apply (Hc _ name key wa wb). }
    rewrite Hn3 in E.
    apply appendChild_created in E as (dn & Ldn & ->); [|done|].
    + exists dn, (Dom.with_parent (Some d) e3), news.
      repeat split; [done|]. simpl in Hl3. by rewrite Hl3.
    + rewrite Hp3. by injection L2.
Qed.

(** X1.  A mount of a skeleton under a node of the host tree creates one
    node for each text and each element of the skeleton, after the nodes
    there were; the first of them is the root of the subtree and becomes
    the last child of that node.  No other node that existed is touched,
    and nothing but the host tree changes: not the registry, not the state
    records, not the cached skeletons. *)
Theorem connectComponent_mounts app fuel sk d name key w w' :
  connectComponent app fuel d sk name key w = Ok w' ->
  (d < length (nodes w))%nat ->
  domOnly w w' /\ mountedUnder d (size sk) (nodes w) (nodes w').
Proof. apply connectComponent_structure. Qed.

Lemma connectComponent_mounts_witness :
  exists w',
    connectComponent counterApp 1 0 spanSkeleton (VStr "counter") (VStr "k")
                     oneInstance = Ok w'
    /\ domOnly oneInstance w'
    /\ mountedUnder 0 (size spanSkeleton) (nodes oneInstance) (nodes w').
Proof.
  eexists. split; [vm_compute; reflexivity|].
  apply (connectComponent_mounts counterApp 1 spanSkeleton 0 (VStr "counter")
           (VStr "k") oneInstance);
    [vm_compute; reflexivity | vm_compute; lia].
Defined.

(** ** The host root of an instance *)

(** The steps of [renderComponent] when no component has hooks: the
    wrapper is created and registered, then the cached skeleton is mounted
    under it, then the wrapper is appended to the container. *)
Lemma renderComponent_steps app fuel d name key n ks k w w' :
  noHooks app ->
  toStr (heap w) name = Ok n -> toStr (heap w) key = Ok ks ->
  add (heap w) name key = Ok k ->
  renderComponent app fuel d name key w = Ok w' ->
  exists c sk wb w3 w4,
    buildSkeleton app fuel name w = Ok wb
    /\ skeletons w3 = skeletons wb
    /\ connectComponent app fuel (length (nodes w)) sk name key w3 = Ok w4
    /\ liftDom (Dom.appendChild d (length (nodes w))) w4 = Ok w'
    /\ components app !! n = Some c
    /\ skeletons w3 !! n = Some sk
    /\ (forall sk0, skeletons w !! n = Some sk0 -> sk0 = sk)
    /\ nodes w3
       = (nodes w
          ++ [mkNode (Element "DIV")
                     [("lucid-component", n); ("lucid-key", ks)] [] None
                     []])%list
    /\ heap w3 = heap w
    /\ page_elements w3
       = <[k := Some (mkEntry (c_state c) (length (nodes w)))]>
           (page_elements w)
    /\ log w3 = log w.
Proof.
  intros Hq Hn Hks Hk H.
  pose proof H as Hreg. unfold renderComponent in H.
  split_bind H as wb Eb.
  pose proof (buildSkeleton_extends _ _ _ _ _ Eb) as [Sb _].
  assert (log wb = log w) as Lb.
  { clear -Eb. unfold buildSkeleton in Eb. split_bind Eb as cached Ec.
    destruct cached; [by injection Eb as <-|].
    split_bind Eb as c Ecomp. split_bind Eb as k Ek.
    destruct (firstElement (c_render c)); [|by injection Eb as <-].
    split_bind Eb as s Es. destruct s; by injection Eb as <-. }
  pose proof Eb as Eb0.
  apply buildSkeleton_frame in Eb as ((Eh & Ee) & En).
  unfold createElement in H. cbv beta iota in H.
  split_bind H as sname Ename. simpl in Ename. rewrite Eh, Hn in Ename.
  injection Ename as <-.
  unfold liftDom at 1 in H. simpl in H. rewrite En in H.
  rewrite setAttribute_last in H by done. simpl in H.
  rewrite Eh, Hks in H. simpl in H.
  unfold liftDom at 1 in H. simpl in H.
  rewrite setAttribute_last in H by done. simpl in H.
  rewrite Eh, Hk in H. simpl in H.
  split_bind H as c Ec. apply getComponent_Ok in Ec as (n' & En' & Lc).
  simpl in En'. rewrite Eh, Hn in En'. injection En' as <-.
  split_bind H as w3 E3. apply (fireHook_noHooks app Hq) in E3. subst w3.
  split_bind H as sk Esk. split_bind H as w4 E4.
  split_bind H as w5 E5. apply (fireHook_noHooks app Hq) in H. subst w5.
  unfold getSkeleton, cachedSkeleton in Esk.
  split_bind Esk as cached Ecached. split_bind Ecached as c0 Ec0.
  split_bind Ecached as n' En'. simpl in En'. rewrite Eh, Hn in En'.
  injection En' as <-. injection Ecached as <-. simpl in Esk.
  destruct (skeletons wb !! n) as [sk'|] eqn:Lsk; [|discriminate].
  injection Esk as ->.
  exists c, sk, wb. eexists. exists w4. split; [exact Eb0|].
  split; [|split; [exact E4|]]; [reflexivity|].
  split; [exact E5|]. simpl. rewrite Ee.
  repeat split; try done.
  intros sk0 L0. apply Sb in L0. congruence.
Qed.

(** The node [renderComponent] wraps an instance in. *)
Lemma renderComponent_structure app fuel d name key n ks k w w' :
  noHooks app ->
  toStr (heap w) name = Ok n -> toStr (heap w) key = Ok ks ->
  add (heap w) name key = Ok k ->
  (d < length (nodes w))%nat ->
  renderComponent app fuel d name key w = Ok w' ->
  exists c sk dn first rest,
    components app !! n = Some c
    /\ skeletons w' !! n = Some sk
    /\ (forall sk0, skeletons w !! n = Some sk0 -> sk0 = sk)
    /\ S (length rest) = size sk
    /\ parentNode first = Some (length (nodes w))
    /\ nodes w !! d = Some dn
    /\ nodes w'
       = (<[d := Dom.with_children (childNodes dn ++ [length (nodes w)]) dn]>
            (nodes w)
          ++ mkNode (Element "DIV")
                    [("lucid-component", n); ("lucid-key", ks)]
                    [S (length (nodes w))] (Some d) []
             :: first :: rest)%list
    /\ heap w' = heap w
    /\ page_elements w'
       = <[k := Some (mkEntry (c_state c) (length (nodes w)))]>
           (page_elements w)
    /\ log w' = log w.
Proof.
  intros Hq Hn Hks Hk Hd H.
  destruct (renderComponent_steps _ _ _ _ _ _ _ _ _ _ Hq Hn Hks Hk H)
    as (c & sk & wb & w3 & w4 & _ & _ & E4 & E5 & Lc & Lsk & Sk & N3 & H3
        & P3 & L3).
  pose proof (connectComponent_domOnly _ _ _ _ _ _ _ _ E4) as D4.
  apply connectComponent_structure in E4 as (_ & dn4 & first & rest & L4 & N4
                                           & S4 & P4);
    [|rewrite N3, length_app; simpl; lia].
  rewrite N3 in L4, N4. rewrite lookup_snoc_last in L4. injection L4 as <-.
  rewrite ?length_app in N4. simpl in N4.
  rewrite ?Nat.add_1_r in N4.
  rewrite insert_created in N4. simpl in N4.
  rewrite <- app_assoc in N4. simpl in N4.
  unfold liftDom in E5. split_bind E5 as ns5 A5. injection E5 as <-.
  rewrite N4 in A5.
  apply appendChild_created in A5 as (dn & Ldn & ->); [|done|done].
  exists c, sk, dn, first, rest.
  simpl.
  rewrite (domOnly_skeletons _ _ D4), (domOnly_heap _ _ D4),
    (domOnly_elements _ _ D4).
  assert (log w4 = log w) as L4 by (rewrite D4; simpl; exact L3).
  repeat split; try done.
Qed.

Section Mounted.

Variables (ns : list Node) (d : nat) (dn root : Node) (new : list Node).
Hypothesis Hd : ns !! d = Some dn.

Let base : list Node :=
  <[d := Dom.with_children (childNodes dn ++ [length ns]) dn]> ns.
Let ns' : list Node := (base ++ root :: new)%list.

Lemma mounted_length : length ns' = (length ns + S (length new))%nat.
Proof.
  unfold ns', base. rewrite length_app, length_insert. reflexivity.
Qed.

Lemma mounted_root : ns' !! length ns = Some root.
Proof.
  unfold ns'. rewrite <- (length_insert ns d
    (Dom.with_children (childNodes dn ++ [length ns]) dn)).
  apply lookup_created.
Qed.

Lemma mounted_parent :
  ns' !! d = Some (Dom.with_children (childNodes dn ++ [length ns]) dn).
Proof.
  pose proof (lookup_lt_Some _ _ _ Hd) as Hlt.
  unfold ns', base. rewrite lookup_app_l by (by rewrite length_insert).
  by apply list_lookup_insert_eq.
Qed.

Lemma mounted_old j :
  (j < length ns)%nat -> j <> d -> ns' !! j = ns !! j.
Proof.
  intros Hj Hne. unfold ns', base.
  rewrite lookup_app_l by (by rewrite length_insert).
  by apply list_lookup_insert_ne.
Qed.

Lemma mounted_children :
  Dom.children d ns' = (Dom.children d ns ++ [length ns])%list.
Proof. unfold Dom.children. by rewrite mounted_parent, Hd. Qed.

Lemma remove_fresh (x : nat) (l : list nat) :
  Forall (fun c => (c < x)%nat) l -> Dom.remove x (l ++ [x]) = l.
Proof.
  unfold Dom.remove. induction 1 as [|c l Hc _ IH]; simpl.
  - by rewrite Nat.eqb_refl.
  - destruct (Nat.eqb_spec x c); [lia|]. simpl. by rewrite IH.
Qed.

(** The root of a mounted subtree leaves its parent: the nodes there were
    before the mount are as they were. *)
Lemma detach_mounted :
  parentNode root = Some d ->
  Forall (fun c => (c < length ns)%nat) (childNodes dn) ->
  Dom.detach (length ns) ns'
  = (ns ++ Dom.with_parent None root :: new)%list.
Proof.
  intros Hp Hcs. pose proof (lookup_lt_Some _ _ _ Hd) as Hlt.
  unfold Dom.detach. rewrite mounted_root, Hp, mounted_parent.
  unfold Dom.with_children at 1. simpl.
  rewrite remove_fresh by done.
  replace (mkNode (kind dn) (attributes dn) (childNodes dn) (parentNode dn)
                  (listeners dn)) with dn by (by destruct dn).
  unfold ns'. rewrite insert_app_l by (unfold base; by rewrite length_insert).
  unfold base. rewrite list_insert_insert_eq.
  rewrite (list_insert_id ns d dn) by done.
  apply insert_created.
Qed.

End Mounted.

(** X2.  In an application without hooks, [renderComponent] wraps the
    instance in a new [div] that carries the name and the key as its two
    marker attributes: the [div] is appended to the container as its last
    child, the rendered root is its only child, the registry entry of the
    instance points to it, and the nodes that existed, the container
    apart, are as they were. *)
Theorem renderComponent_wraps app fuel d name key n ks k w w' :
  noHooks app ->
  toStr (heap w) name = Ok n -> toStr (heap w) key = Ok ks ->
  add (heap w) name key = Ok k ->
  (d < length (nodes w))%nat ->
  renderComponent app fuel d name key w = Ok w' ->
  let root := length (nodes w) in
  Dom.children d (nodes w') = (Dom.children d (nodes w) ++ [root])%list
  /\ Dom.parent root (nodes w') = Some d
  /\ Dom.tagName root (nodes w') = Some "DIV"
  /\ Dom.getAttribute root "lucid-component" (nodes w') = VStr n
  /\ Dom.getAttribute root "lucid-key" (nodes w') = VStr ks
  /\ Dom.children root (nodes w') = [S root]
  /\ Dom.parent (S root) (nodes w') = Some root
  /\ rootOf w' k = Some root
  /\ (exists sk, skeletons w' !! n = Some sk
                 /\ length (nodes w') = (length (nodes w) + S (size sk))%nat)
  /\ forall j, (j < length (nodes w))%nat -> j <> d ->
       nodes w' !! j = nodes w !! j.
Proof.
  intros Hq Hn Hks Hk Hd H root.
  destruct (renderComponent_structure app fuel d name key n ks k w w'
              Hq Hn Hks Hk Hd H)
    as (c & sk & dn & first & rest & Lc & Lsk & _ & Hsz & Hpf & Ld & Hns & _
        & He & _).
  pose proof (mounted_root (nodes w) d dn) as Lroot. fold root in Lroot.
  assert (nodes w' !! S root = Some first) as Lfirst.
  { rewrite Hns. rewrite lookup_app_r by (rewrite length_insert; lia).
    rewrite length_insert. by replace (S root - length (nodes w))%nat with 1%nat
      by (unfold root; lia). }
  split; [rewrite Hns; by apply mounted_children|].
  unfold Dom.parent, Dom.tagName, Dom.getAttribute, Dom.children.
  rewrite Lfirst, Hns, Lroot. simpl.
  repeat split; try done.
  - unfold rootOf. rewrite He, lookup_insert_eq. reflexivity.
  - exists sk. split; [done|].
    rewrite <- Hns, Hns, mounted_length. simpl. lia.
  - intros j Hj Hne. by apply mounted_old.
Qed.

Lemma renderComponent_wraps_witness :
  Dom.children 0 (nodes oneInstance)
  = (Dom.children 0 (nodes startWorld) ++ [length (nodes startWorld)])%list
  /\ Dom.parent (length (nodes startWorld)) (nodes oneInstance) = Some 0%nat
  /\ Dom.tagName (length (nodes startWorld)) (nodes oneInstance) = Some "DIV"
  /\ Dom.getAttribute (length (nodes startWorld)) "lucid-component"
                      (nodes oneInstance) = VStr "counter"
  /\ Dom.getAttribute (length (nodes startWorld)) "lucid-key"
                      (nodes oneInstance) = VStr "k"
  /\ Dom.children (length (nodes startWorld)) (nodes oneInstance)
     = [S (length (nodes startWorld))]
  /\ Dom.parent (S (length (nodes startWorld))) (nodes oneInstance)
     = Some (length (nodes startWorld))
  /\ rootOf oneInstance "counterk" = Some (length (nodes startWorld))
  /\ (exists sk, skeletons oneInstance !! "counter" = Some sk
                 /\ length (nodes oneInstance)
                    = (length (nodes startWorld) + S (size sk))%nat)
  /\ forall j, (j < length (nodes startWorld))%nat -> j <> 0%nat ->
       nodes oneInstance !! j = nodes startWorld !! j.
Proof.
  apply (renderComponent_wraps counterApp 1 0 (VStr "counter") (VStr "k")
           "counter" "k" "counterk" startWorld oneInstance).
  - apply spanApp_noHooks.
  - reflexivity.
  - reflexivity.
  - reflexivity.
  - vm_compute. lia.
  - vm_compute. reflexivity.
Defined.

(** ** Mounting and removing *)

(** The removal of an instance that [renderComponent] has mounted.  A
    second removal throws: under another key than [__proto__] the entry
    holds [undefined], and under [__proto__] the entry is still there but
    its host root has no parent. *)
Lemma disconnect_mounted app name key n c k ns d dn root new w1 :
  noHooks app ->
  toStr (heap w1) name = Ok n -> components app !! n = Some c ->
  add (heap w1) name key = Ok k ->
  ns !! d = Some dn ->
  Forall (fun x => (x < length ns)%nat) (childNodes dn) ->
  parentNode root = Some d ->
  nodes w1
  = (<[d := Dom.with_children (childNodes dn ++ [length ns]) dn]> ns
     ++ root :: new)%list ->
  (exists s, page_elements w1 !! k = Some (Some (mkEntry s (length ns)))) ->
  let w2 :=
    clearEntry k (with_nodes (ns ++ Dom.with_parent None root :: new) w1) in
  disconnectComponent app name key w1 = Ok w2
  /\ nodes w2 = (ns ++ Dom.with_parent None root :: new)%list
  /\ heap w2 = heap w1
  /\ disconnectComponent app name key w2 = Throw TypeError
  /\ (k <> "__proto__" ->
      page_elements w2 !! k = Some None
      /\ getThisParameter name key w2 = Throw TypeError)
  /\ (k = "__proto__" ->
      page_elements w2 = page_elements w1
      /\ exists t, getThisParameter name key w2 = Ok t).
Proof.
  intros Hq Hn Hc Hk Hd Hcs Hp Hns [s He] w2.
  assert (disconnectComponent app name key w1 = Ok w2) as D.
  { unfold disconnectComponent. rewrite Hk. simpl.
    unfold getEntry. rewrite He. simpl.
    unfold liftDom, Dom.removeFromParent. rewrite Hns.
    rewrite (mounted_root ns d dn), Hp. simpl.
    rewrite (detach_mounted ns d dn root new Hd Hp Hcs).
    rewrite (fireHook_absent app disconnected name key n c
               (with_nodes (ns ++ Dom.with_parent None root :: new) w1)
               Hn Hc (Hq n c Hc)).
    reflexivity. }
  assert (nodes w2 = (ns ++ Dom.with_parent None root :: new)%list) as N2.
  { unfold w2, clearEntry. by destruct (String.eqb k "__proto__"). }
  assert (heap w2 = heap w1) as H2.
  { unfold w2, clearEntry. by destruct (String.eqb k "__proto__"). }
  split; [exact D|]. split; [exact N2|]. split; [exact H2|].
  assert (k <> "__proto__" -> page_elements w2 !! k = Some None) as Gone.
  { intros Hne. unfold w2, clearEntry.
    destruct (String.eqb_spec k "__proto__"); [done|]. simpl.
    apply lookup_insert_eq. }
  assert (k = "__proto__" -> page_elements w2 = page_elements w1) as Kept.
  { intros ->. reflexivity. }
  split; [|split].
  - unfold disconnectComponent. rewrite H2, Hk. simpl.
    destruct (String.eqb_spec k "__proto__") as [Hp'|Hne].
    + unfold getEntry. rewrite (Kept Hp'), He. simpl.
      unfold liftDom, Dom.removeFromParent. rewrite N2, lookup_created.
      reflexivity.
    + unfold getEntry. by rewrite (Gone Hne).
  - intros Hne. split; [by apply Gone|].
    unfold getThisParameter. rewrite H2, Hk. simpl.
    unfold getEntry. by rewrite (Gone Hne).
  - intros Hp'. split; [by apply Kept|].
    unfold getThisParameter. rewrite H2, Hk. simpl.
    unfold getEntry. rewrite (Kept Hp'), He. simpl. eauto.
Qed.

(** X3.  In an application without hooks, an instance mounted by
    [renderComponent] into a container whose children are nodes of the
    tree can be removed again: the nodes that existed before the mount are
    then exactly as they were, the nodes of the instance stay in the store
    with a root that has no parent, and a second removal throws a
    [TypeError].  The key of the instance then holds [undefined], so that
    its context can no longer be built; but when the key is [__proto__],
    the registry is as the mount left it and the context is built still. *)
Theorem mount_then_remove app fuel d name key n ks k w w1 :
  noHooks app ->
  toStr (heap w) name = Ok n -> toStr (heap w) key = Ok ks ->
  add (heap w) name key = Ok k ->
  (d < length (nodes w))%nat ->
  Forall (fun c => (c < length (nodes w))%nat) (Dom.children d (nodes w)) ->
  renderComponent app fuel d name key w = Ok w1 ->
  exists w2,
    disconnectComponent app name key w1 = Ok w2
    /\ take (length (nodes w)) (nodes w2) = nodes w
    /\ length (nodes w2) = length (nodes w1)
    /\ Dom.parent (length (nodes w)) (nodes w2) = None
    /\ heap w2 = heap w
    /\ disconnectComponent app name key w2 = Throw TypeError
    /\ (k <> "__proto__" ->
        page_elements w2 !! k = Some None
        /\ getThisParameter name key w2 = Throw TypeError)
    /\ (k = "__proto__" ->
        page_elements w2 = page_elements w1
        /\ exists t, getThisParameter name key w2 = Ok t).
Proof.
  intros Hq Hn Hks Hk Hd Hcs H.
  destruct (renderComponent_structure app fuel d name key n ks k w w1
              Hq Hn Hks Hk Hd H)
    as (c & sk & dn & first & rest & Lc & _ & _ & _ & _ & Ld & Hns & Hh
        & He & _).
  unfold Dom.children in Hcs. rewrite Ld in Hcs.
  destruct (disconnect_mounted app name key n c k (nodes w) d dn
              (mkNode (Element "DIV")
                      [("lucid-component", n); ("lucid-key", ks)]
                      [S (length (nodes w))] (Some d) [])
              (first :: rest) w1 Hq) as (D & N2 & H2 & G2 & Gone & Kept);
    try done; try (by rewrite Hh).
  { rewrite He, lookup_insert_eq. eauto. }
  eexists. split; [exact D|]. rewrite N2, H2.
  split; [by rewrite take_app_length|].
  split; [rewrite Hns, !length_app, length_insert; reflexivity|].
  split; [unfold Dom.parent; by rewrite lookup_created|].
  split; [exact Hh|]. split; [exact G2|]. split; [exact Gone | exact Kept].
Qed.

Lemma mount_then_remove_witness :
  (exists w2,
     disconnectComponent counterApp (VStr "counter") (VStr "k") oneInstance
     = Ok w2
     /\ take (length (nodes startWorld)) (nodes w2) = nodes startWorld
     /\ length (nodes w2) = length (nodes oneInstance)
     /\ Dom.parent (length (nodes startWorld)) (nodes w2) = None
     /\ heap w2 = heap startWorld
     /\ disconnectComponent counterApp (VStr "counter") (VStr "k") w2
        = Throw TypeError
     /\ ("counterk" <> "__proto__" ->
         page_elements w2 !! "counterk" = Some None
         /\ getThisParameter (VStr "counter") (VStr "k") w2
            = Throw TypeError)
     /\ ("counterk" = "__proto__" ->
         page_elements w2 = page_elements oneInstance
         /\ exists t, getThisParameter (VStr "counter") (VStr "k") w2 = Ok t))
  /\ (exists w2,
        disconnectComponent protoApp (VStr "__proto") (VStr "__") protoMounted
        = Ok w2
        /\ take (length (nodes startWorld)) (nodes w2) = nodes startWorld
        /\ length (nodes w2) = length (nodes protoMounted)
        /\ Dom.parent (length (nodes startWorld)) (nodes w2) = None
        /\ heap w2 = heap startWorld
        /\ disconnectComponent protoApp (VStr "__proto") (VStr "__") w2
           = Throw TypeError
        /\ ("__proto__" <> "__proto__" ->
            page_elements w2 !! "__proto__" = Some None
            /\ getThisParameter (VStr "__proto") (VStr "__") w2
               = Throw TypeError)
        /\ ("__proto__" = "__proto__" ->
            page_elements w2 = page_elements protoMounted
            /\ exists t,
                 getThisParameter (VStr "__proto") (VStr "__") w2 = Ok t)).
Proof.
  split.
  - apply (mount_then_remove counterApp 1 0 (VStr "counter") (VStr "k")
             "counter" "k" "counterk" startWorld oneInstance).
    + apply spanApp_noHooks.
    + reflexivity.
    + reflexivity.
    + reflexivity.
    + vm_compute. lia.
    + vm_compute. constructor.
    + vm_compute. reflexivity.
  - apply (mount_then_remove protoApp 1 0 (VStr "__proto") (VStr "__")
             "__proto" "__" "__proto__" startWorld protoMounted).
    + apply spanApp_noHooks.
    + reflexivity.
    + reflexivity.
    + reflexivity.
    + vm_compute. lia.
    + vm_compute. constructor.
    + vm_compute. reflexivity.
Defined.

(** X4.  Nothing stops a second mount under a name and a key that are in
    use (no hooks in the application): the container then holds the two
    host roots, the first still attached with its subtree, while the
    registry knows the second only.  A removal takes the second root away;
    the first root stays in the container, and a further removal throws a
    [TypeError], as does the context of the instance unless the registry
    key is [__proto__]: no call of the engine reaches the first root any
    more. *)
Theorem second_mount_orphans_first app fuel d name key n ks k w w1 w2 :
  noHooks app ->
  toStr (heap w) name = Ok n -> toStr (heap w) key = Ok ks ->
  add (heap w) name key = Ok k ->
  (d < length (nodes w))%nat ->
  Forall (fun c => (c < length (nodes w))%nat) (Dom.children d (nodes w)) ->
  renderComponent app fuel d name key w = Ok w1 ->
  renderComponent app fuel d name key w1 = Ok w2 ->
  let r1 := length (nodes w) in
  let r2 := length (nodes w1) in
  (r1 < r2)%nat
  /\ Dom.children d (nodes w2) = (Dom.children d (nodes w) ++ [r1; r2])%list
  /\ Dom.parent r1 (nodes w2) = Some d
  /\ Dom.children r1 (nodes w2) = [S r1]
  /\ rootOf w2 k = Some r2
  /\ exists w3,
       disconnectComponent app name key w2 = Ok w3
       /\ Dom.children d (nodes w3) = (Dom.children d (nodes w) ++ [r1])%list
       /\ Dom.parent r1 (nodes w3) = Some d
       /\ disconnectComponent app name key w3 = Throw TypeError
       /\ (k <> "__proto__" ->
           getThisParameter name key w3 = Throw TypeError).
Proof.
  intros Hq Hn Hks Hk Hd Hcs H1 H2 r1 r2.
  destruct (renderComponent_structure app fuel d name key n ks k w w1
              Hq Hn Hks Hk Hd H1)
    as (c & sk & dn & first & rest & Lc & _ & _ & _ & _ & Ld & Hns1 & Hh1
        & He1 & _).
  assert (r1 < r2)%nat as Hlt.
  { unfold r1, r2. rewrite Hns1, mounted_length. lia. }
  assert (d < r2)%nat as Hd2 by (unfold r1 in Hlt; lia).
  assert (nodes w1 !! r1
          = Some (mkNode (Element "DIV")
                         [("lucid-component", n); ("lucid-key", ks)]
                         [S r1] (Some d) [])) as Lr1.
  { rewrite Hns1. apply mounted_root. }
  assert (nodes w1 !! d
          = Some (Dom.with_children (childNodes dn ++ [r1]) dn)) as Ld1.
  { rewrite Hns1. by apply mounted_parent. }
  destruct (renderComponent_structure app fuel d name key n ks k w1 w2 Hq)
    as (c' & sk' & dn' & first' & rest' & Lc' & _ & _ & _ & _ & Ld' & Hns2
        & Hh2 & He2 & _); try done; try (by rewrite Hh1).
  rewrite Ld1 in Ld'. injection Ld' as <-. fold r2 in Hns2.
  rewrite Lc in Lc'. injection Lc' as <-.
  assert (Dom.children d (nodes w) = childNodes dn) as Hcd.
  { unfold Dom.children. by rewrite Ld. }
  assert (r1 <> d) as Hne by (unfold r1; lia).
  split; [exact Hlt|].
  split.
  { rewrite Hns2, (mounted_children (nodes w1) d _ _ _ Ld1).
    unfold Dom.children at 1. rewrite Ld1. simpl.
    rewrite Hcd, <- app_assoc. reflexivity. }
  assert (nodes w2 !! r1 = nodes w1 !! r1) as Lr12.
  { rewrite Hns2. by apply mounted_old. }
  split; [unfold Dom.parent; by rewrite Lr12, Lr1|].
  split; [unfold Dom.children; by rewrite Lr12, Lr1|].
  split; [unfold rootOf; by rewrite He2, lookup_insert_eq|].
  destruct (disconnect_mounted app name key n c k (nodes w1) d
              (Dom.with_children (childNodes dn ++ [r1]) dn)
              (mkNode (Element "DIV")
                      [("lucid-component", n); ("lucid-key", ks)]
                      [S r2] (Some d) [])
              (first' :: rest') w2 Hq) as (D & N3 & _ & G2 & Gone & _);
    try done; try (by rewrite Hh2, Hh1).
  { simpl. rewrite Hcd in Hcs. apply Forall_app. split.
    - eapply Forall_impl; [exact Hcs|]. simpl. fold r1 r2. lia.
    - constructor; [exact Hlt | constructor]. }
  { rewrite He2, lookup_insert_eq. eauto. }
  eexists. split; [exact D|]. rewrite N3.
  assert ((nodes w1 ++ Dom.with_parent None
             (mkNode (Element "DIV")
                     [("lucid-component", n); ("lucid-key", ks)]
                     [S r2] (Some d) []) :: first' :: rest')%list !! r1
          = nodes w1 !! r1) as L3.
  { apply lookup_app_l. exact Hlt. }
  split.
  { rewrite Hcd. unfold Dom.children. rewrite lookup_app_l by exact Hd2.
    by rewrite Ld1. }
  split; [unfold Dom.parent; by rewrite L3, Lr1|].
  split; [exact G2|]. intros Hkey. by apply Gone.
Qed.

Lemma second_mount_orphans_first_witness :
  let r1 := length (nodes startWorld) in
  let r2 := length (nodes oneInstance) in
  (r1 < r2)%nat
  /\ Dom.children 0 (nodes remounted)
     = (Dom.children 0 (nodes startWorld) ++ [r1; r2])%list
  /\ Dom.parent r1 (nodes remounted) = Some 0%nat
  /\ Dom.children r1 (nodes remounted) = [S r1]
  /\ rootOf remounted "counterk" = Some r2
  /\ exists w3,
       disconnectComponent counterApp (VStr "counter") (VStr "k") remounted
       = Ok w3
       /\ Dom.children 0 (nodes w3)
          = (Dom.children 0 (nodes startWorld) ++ [r1])%list
       /\ Dom.parent r1 (nodes w3) = Some 0%nat
       /\ disconnectComponent counterApp (VStr "counter") (VStr "k") w3
          = Throw TypeError
       /\ ("counterk" <> "__proto__" ->
           getThisParameter (VStr "counter") (VStr "k") w3
           = Throw TypeError).
Proof.
  apply (second_mount_orphans_first counterApp 1 0 (VStr "counter") (VStr "k")
           "counter" "k" "counterk" startWorld oneInstance remounted).
  - apply spanApp_noHooks.
  - reflexivity.
  - reflexivity.
  - reflexivity.
  - vm_compute. lia.
  - vm_compute. constructor.
  - vm_compute. reflexivity.
  - vm_compute. reflexivity.
Defined.

(** ** What a state replacement and an update pass leave alone *)

(** X6.  With hooks that leave the registry and the state records alone,
    a [setState] that returns has changed one thing in the registry, the
    state of the entry it was called for: the host root of that entry, the
    entries under every other key and the state records are as they
    were. *)
Theorem setState_touches_one_entry app fuel this newState k w w' :
  quietApp app ->
  add (heap w) (this_name this) (this_key this) = Ok k ->
  setState app fuel this newState w = Ok w' ->
  heap w' = heap w
  /\ rootOf w' k = rootOf w k
  /\ (exists e, page_elements w' !! k = Some (Some e)
                /\ e_state e = newState)
  /\ forall k', k' <> k -> page_elements w' !! k' = page_elements w !! k'.
Proof.
  intros Hq Hk H.
  destruct (setState_stores app Hq fuel this newState k w w' Hk H)
    as (e & Le & He & Hh).
  split; [exact Hh|]. split.
  - unfold rootOf. by rewrite He, lookup_insert_eq, Le.
  - split.
    + eexists. rewrite He, lookup_insert_eq. by split.
    + intros k' Hne. by rewrite He, lookup_insert_ne.
Qed.

Lemma setState_touches_one_entry_witness :
  exists w',
    setState counterApp 1 counterThis (VObj 1) twoInstances = Ok w'
    /\ heap w' = heap twoInstances
    /\ rootOf w' "counterk" = rootOf twoInstances "counterk"
    /\ (exists e, page_elements w' !! "counterk" = Some (Some e)
                  /\ e_state e = VObj 1)
    /\ forall k', k' <> "counterk" ->
         page_elements w' !! k' = page_elements twoInstances !! k'.
Proof.
  eexists. split; [vm_compute; reflexivity|].
  apply (setState_touches_one_entry counterApp 1 counterThis (VObj 1)
           "counterk" twoInstances).
  - apply noHooks_quiet, spanApp_noHooks.
  - reflexivity.
  - vm_compute. reflexivity.
Defined.

Lemma sameShape_lookup (ns ns' : list Node) j :
  sameShape ns ns' -> shape <$> ns' !! j = shape <$> ns !! j.
Proof. intros H. by rewrite <- !list_lookup_fmap, H. Qed.

(** X7.  An update pass that returns has changed nothing but texts and
    attribute values of nodes that existed: no node is created or dropped,
    every node keeps its tag, its children, its parent and its event
    subscriptions, and the registry, the state records and the cached
    skeletons are as they were. *)
Theorem update_keeps_structure app fuel dom sk name key w w' :
  updateComponent app fuel dom sk name key w = Ok w' ->
  heap w' = heap w /\ page_elements w' = page_elements w
  /\ skeletons w' = skeletons w /\ log w' = log w
  /\ length (nodes w') = length (nodes w)
  /\ forall j,
       Dom.tagName j (nodes w') = Dom.tagName j (nodes w)
       /\ Dom.children j (nodes w') = Dom.children j (nodes w)
       /\ Dom.parent j (nodes w') = Dom.parent j (nodes w)
       /\ (listeners <$> nodes w' !! j) = (listeners <$> nodes w !! j).
Proof.
  intros H. apply updateComponent_updates in H as [D S].
  split; [by apply domOnly_heap|]. split; [by apply domOnly_elements|].
  split; [by apply domOnly_skeletons|]. split; [by rewrite D|].
  split.
  { unfold sameShape in S. apply (f_equal length) in S.
    by rewrite !length_fmap in S. }
  intros j. pose proof (sameShape_lookup _ _ j S) as L.
  unfold Dom.tagName, Dom.children, Dom.parent.
  destruct (nodes w' !! j) as [n'|], (nodes w !! j) as [n|];
    try discriminate; [|done].
  simpl in L. injection L as Hk Hc Hp Hl. simpl.
  rewrite Hk, Hc, Hp, Hl. by repeat split.
Qed.

Lemma update_keeps_structure_witness :
  exists w',
    updateComponent counterApp 1 (Some 2%nat) spanSkeleton (VStr "counter")
                    (VStr "k") oneInstance = Ok w'
    /\ heap w' = heap oneInstance
    /\ page_elements w' = page_elements oneInstance
    /\ skeletons w' = skeletons oneInstance /\ log w' = log oneInstance
    /\ length (nodes w') = length (nodes oneInstance)
    /\ forall j,
         Dom.tagName j (nodes w') = Dom.tagName j (nodes oneInstance)
         /\ Dom.children j (nodes w') = Dom.children j (nodes oneInstance)
         /\ Dom.parent j (nodes w') = Dom.parent j (nodes oneInstance)
         /\ (listeners <$> nodes w' !! j)
            = (listeners <$> nodes oneInstance !! j).
Proof.
  eexists. split; [vm_compute; reflexivity|].
  apply (update_keeps_structure counterApp 1 (Some 2%nat) spanSkeleton
           (VStr "counter") (VStr "k") oneInstance).
  vm_compute. reflexivity.
Defined.

(** ** The skeletons that [createSkeleton] builds *)

Lemma Markup_nested_ind (P : Markup -> Prop) :
  (forall v, P (MCharData v)) ->
  (forall tag attrs cs, Forall P cs -> P (MElement tag attrs cs)) ->
  forall m, P m.
Proof.
  intros text_case node_case. fix IH 1. intros [tag attrs cs | v].
  - apply node_case. induction cs as [|c cs IHcs]; constructor.
    + apply IH.
    + apply IHcs.
  - apply text_case.
Qed.

(** *** White space

    [trim] takes away all the white space there is at both ends, so that
    a trimmed text is left as it is. *)

Lemma after_split p : forall l r, JS.after p l = Some r -> l = (p ++ r)%list.
Proof.
  induction p as [|a p IH]; intros [|b l] r; simpl; try discriminate.
  - by intros [= <-].
  - by intros [= <-].
  - destruct (Ascii.eqb_spec a b) as [<-|]; [|discriminate].
    intros H. by rewrite (IH _ _ H).
Qed.

Lemma after_app p w :
  forall l r, JS.after p l = Some r -> JS.after p (l ++ w) = Some (r ++ w)%list.
Proof.
  induction p as [|a p IH]; intros [|b l] r; simpl; try discriminate.
  - by intros [= <-].
  - by intros [= <-].
  - destruct (Ascii.eqb a b); [apply IH | discriminate].
Qed.

Lemma first_after_split table l r :
  JS.first_after table l = Some r ->
  exists p, In p table /\ l = (p ++ r)%list.
Proof.
  induction table as [|p table IH]; simpl; [discriminate|].
  destruct (JS.after p l) as [r'|] eqn:E.
  - intros [= <-]. exists p. split; [by left | by apply after_split].
  - intros H. destruct (IH H) as (q & Hq & ->). exists q.
    split; [by right|done].
Qed.

Lemma first_after_app table l w :
  JS.first_after table l <> None -> JS.first_after table (l ++ w) <> None.
Proof.
  induction table as [|p table IH]; simpl; [done|].
  destruct (JS.after p l) as [r|] eqn:E.
  - intros _. by rewrite (after_app p w l r E).
  - intros H. destruct (JS.after p (l ++ w)); [done | by apply IH].
Qed.

Lemma spaces_nonempty p : In p JS.spaces -> p <> [].
Proof.
  unfold JS.spaces. simpl. intros H.
  repeat (destruct H as [<-|H]; [discriminate|]). destruct H.
Qed.

Lemma space_start_split l r :
  JS.space_start l = Some r -> exists p, p <> [] /\ l = (p ++ r)%list.
Proof.
  intros H. apply first_after_split in H as (p & Hp & ->).
  exists p. split; [|done]. apply in_app_or in Hp as [Hp | [<- | []]].
  - by apply spaces_nonempty.
  - discriminate.
Qed.

Lemma space_end_split l r :
  JS.space_end l = Some r -> exists p, p <> [] /\ l = (p ++ r)%list.
Proof.
  unfold JS.space_end.
  destruct (JS.first_after (map (@rev ascii) JS.spaces) l) as [r'|] eqn:E.
  - intros [= <-]. apply first_after_split in E as (p & Hp & ->).
    exists p. split; [|done]. apply in_map_iff in Hp as (q & <- & Hq).
    pose proof (spaces_nonempty q Hq) as Hne.
    destruct q; [done|]. simpl. by destruct (rev q).
  - destruct l as [|a l]; [discriminate|].
    destruct (_ && _); [|discriminate]. intros [= <-]. by exists [a].
Qed.

Section Strip.

Variable step : list ascii -> option (list ascii).
Hypothesis step_split :
  forall l r, step l = Some r -> exists p, p <> [] /\ l = (p ++ r)%list.

Lemma strip_done n : forall l, (length l <= n)%nat ->
  step (JS.strip step n l) = None.
Proof.
  induction n as [|n IH]; intros l Hl; simpl.
  - destruct l; [|simpl in Hl; lia].
    destruct (step []) as [r|] eqn:E; [|done].
    apply step_split in E as (p & Hp & E). by destruct p.
  - destruct (step l) as [r|] eqn:E; [|done]. apply IH.
    apply step_split in E as (p & Hp & ->). rewrite length_app in Hl.
    destruct p; [done|]. simpl in Hl. lia.
Qed.

Lemma strip_none n l : step l = None -> JS.strip step n l = l.
Proof. intros H. destruct n; simpl; [done|]. by rewrite H. Qed.

Lemma strip_split n : forall l, exists u, l = (u ++ JS.strip step n l)%list.
Proof.
  induction n as [|n IH]; intros l; simpl; [by exists []|].
  destruct (step l) as [r|] eqn:E; [|by exists []].
  apply step_split in E as (p & _ & ->). destruct (IH r) as [u Hu].
  exists (p ++ u)%list. by rewrite <- app_assoc, <- Hu.
Qed.

End Strip.

Lemma trim_start_done l : JS.space_start (JS.trim_start l) = None.
Proof. by apply strip_done; [apply space_start_split|]. Qed.

Lemma trim_end_idem l : JS.trim_end (JS.trim_end l) = JS.trim_end l.
Proof.
  unfold JS.trim_end. rewrite rev_involutive. f_equal.
  apply strip_none. rewrite <- (length_rev l).
  by apply strip_done; [apply space_end_split|].
Qed.

Lemma trim_end_prefix l : exists u, l = (JS.trim_end l ++ u)%list.
Proof.
  unfold JS.trim_end.
  destruct (strip_split JS.space_end space_end_split (length l) (rev l))
    as [u Hu].
  exists (rev u). rewrite <- rev_app_distr, <- Hu. by rewrite rev_involutive.
Qed.

Lemma trim_start_kept l :
  JS.space_start l = None -> JS.trim_start (JS.trim_end l) = JS.trim_end l.
Proof.
  intros H. apply strip_none.
  destruct (JS.space_start (JS.trim_end l)) eqn:E; [|done]. exfalso.
  destruct (trim_end_prefix l) as [u Hu].
  apply (first_after_app (JS.spaces ++ [[JS.nbsp]]) (JS.trim_end l) u).
  - fold (JS.space_start (JS.trim_end l)). by rewrite E.
  - by rewrite <- Hu.
Qed.

Lemma trim_idem s : JS.trim (JS.trim s) = JS.trim s.
Proof.
  unfold JS.trim. rewrite list_ascii_of_string_of_list_ascii.
  rewrite trim_start_kept by apply trim_start_done.
  by rewrite trim_end_idem.
Qed.

(** A no-break space (U+00A0) before a text and a line separator (U+2028)
    after it are trimmed away, and a text node that holds a no-break space
    only gives no skeleton. *)
Example trim_unicode :
  JS.trim (String "194" (String "160" (" a b"
           ++ String "226" (String "128" (String "168" "")))))
  = "a b"
  /\ forall app fuel name w,
       createSkeleton app fuel (MCharData (String "194" (String "160" "")))
                      name w = Ok None.
Proof. split; reflexivity. Qed.

Lemma createSkeleton_element app fuel tag attrs cs name w :
  createSkeleton app fuel (MElement tag attrs cs) name w
  = let* attrs' :=
      attributeLoop
        (fun value => convertTextVariables app fuel (VStr value) name VUndef w)
        attrs [] in
    let* children :=
      childLoop (fun c => createSkeleton app fuel c name w) cs [] in
    Ok (Some (SNode tag attrs' children)).
Proof. reflexivity. Qed.

#[local] Arguments JS.startsWith : simpl never.
#[local] Arguments storableName : simpl never.

Lemma forallb_assoc_set {A} (p : string * A -> bool) k v l :
  p (k, v) = true -> forallb p l = true ->
  forallb p (assoc_set k v l) = true.
Proof.
  intros Hp. induction l as [|[k' v'] l IH]; simpl; [by rewrite Hp|].
  intros H. apply andb_true_iff in H as [H1 H2].
  destruct (String.eqb k k'); simpl.
  - by rewrite Hp, H2.
  - by rewrite H1, IH.
Qed.

Lemma forallb_snoc {A} (p : A -> bool) l x :
  forallb p l = true -> p x = true -> forallb p (l ++ [x]) = true.
Proof. intros Hl Hx. rewrite forallb_app, Hl. simpl. by rewrite Hx. Qed.

(** Without an event attribute the loop over the attributes stores every
    value as it is, whatever resolves events. *)
Lemma attributeLoop_plain l :
  existsb (fun a => JS.startsWith (fst a) "on") l = false ->
  forallb (fun a => storableName (fst a)) l = true ->
  forall acc, forallb plainAttr acc = true ->
    exists r, (forall resolveEvent, attributeLoop resolveEvent l acc = Ok r)
              /\ forallb plainAttr r = true.
Proof.
  induction l as [|[k v] l IH]; simpl; intros He Hs acc Hacc.
  - exists acc. by split.
  - apply orb_false_iff in He as [Hk He].
    apply andb_true_iff in Hs as [Hn Hs].
    destruct (IH He Hs (assoc_set k (VStr v) acc)) as (r & Hr & Hp).
    { apply forallb_assoc_set; [|done]. unfold plainAttr. simpl.
      by rewrite Hk. }
    exists r. split; [|done]. intros resolveEvent. rewrite Hk.
    unfold storeAttr. unfold storableName in Hn.
    apply negb_true_iff in Hn. rewrite Hn. simpl. apply Hr.
Qed.

(** With an event attribute, and a resolution that throws, the loop
    throws. *)
Lemma attributeLoop_event resolveEvent l :
  (forall v, resolveEvent v = Throw TypeError) ->
  existsb (fun a => JS.startsWith (fst a) "on") l = true ->
  forallb (fun a => storableName (fst a)) l = true ->
  forall acc, attributeLoop resolveEvent l acc = Throw TypeError.
Proof.
  intros Hr. induction l as [|[k v] l IH]; simpl; intros He Hs acc;
    [discriminate|].
  apply andb_true_iff in Hs as [Hn Hs].
  destruct (JS.startsWith k "on") eqn:Hk; [by rewrite Hr|].
  simpl in He. unfold storeAttr. unfold storableName in Hn.
  apply negb_true_iff in Hn. rewrite Hn. simpl. by apply IH.
Qed.

Lemma convertTextVariables_no_key app fuel text name w :
  convertTextVariables app fuel text name VUndef w = Throw TypeError.
Proof. reflexivity. Qed.

(** What [createSkeleton] does with a markup whose attribute names are
    storable: it depends on the markup alone. *)
Lemma createSkeleton_cases m :
  storable m = true ->
  (hasEvent m = false ->
     exists r,
       (forall app fuel name w, createSkeleton app fuel m name w = Ok r)
       /\ (forall sk, r = Some sk -> built sk = true)
       /\ (r = None <-> blank m = true))
  /\ (hasEvent m = true ->
        forall app fuel name w,
          createSkeleton app fuel m name w = Throw TypeError).
Proof.
  induction m as [v | tag attrs cs IH] using Markup_nested_ind; intros Hs.
  - split; [|discriminate]. intros _. simpl.
    destruct (String.eqb (JS.trim v) "") eqn:E.
    + exists None. by repeat split.
    + exists (Some (SText (JS.trim v))). split; [done|]. split.
      * intros sk [= <-]. simpl. by rewrite E, trim_idem, String.eqb_refl.
      * split; discriminate.
  - simpl in Hs. apply andb_true_iff in Hs as [Hsa Hsc]. simpl hasEvent.
    assert (forall acc, forallb built acc = true ->
              (existsb hasEvent cs = false ->
                 exists rs,
                   (forall app fuel name w,
                      childLoop (fun c => createSkeleton app fuel c name w)
                                cs acc = Ok rs)
                   /\ forallb built rs = true)
              /\ (existsb hasEvent cs = true ->
                    forall app fuel name w,
                      childLoop (fun c => createSkeleton app fuel c name w)
                                cs acc = Throw TypeError)) as Hcs.
    { clear Hsa. induction IH as [|c cs Hc _ IHcs]; intros acc Hacc.
      - split; [|discriminate]. intros _. exists acc. by split.
      - simpl in Hsc. apply andb_true_iff in Hsc as [Hs1 Hs2].
        destruct (Hc Hs1) as [Hplain Hevent]. simpl.
        destruct (hasEvent c) eqn:Ec; simpl.
        + split; [discriminate|]. intros _ app fuel name w.
          by rewrite Hevent.
        + destruct (Hplain eq_refl) as (r & Hr & Hb & _).
          destruct r as [s|].
          * destruct (IHcs Hs2 (acc ++ [s])%list) as [Hok Hthrow].
            { apply forallb_snoc; [done | by apply Hb]. }
            split.
            -- intros He. destruct (Hok He) as (rs & Hrs & Hbs).
               exists rs. split; [|done]. intros. rewrite Hr. simpl.
               apply Hrs.
            -- intros He app fuel name w. rewrite Hr. simpl.
               by apply Hthrow.
          * destruct (IHcs Hs2 acc Hacc) as [Hok Hthrow].
            split.
            -- intros He. destruct (Hok He) as (rs & Hrs & Hbs).
               exists rs. split; [|done]. intros. rewrite Hr. simpl.
               apply Hrs.
            -- intros He app fuel name w. rewrite Hr. simpl.
               by apply Hthrow. }
    destruct (Hcs [] eq_refl) as [Hok Hthrow]. split.
    + intros He. apply orb_false_iff in He as [Ha Hc].
      destruct (attributeLoop_plain attrs Ha Hsa [] eq_refl)
        as (ra & Hra & Hpa).
      destruct (Hok Hc) as (rs & Hrs & Hbs).
      exists (Some (SNode tag ra rs)). split; [|split].
      * intros. rewrite createSkeleton_element, Hra. simpl.
        by rewrite Hrs.
      * intros sk [= <-]. simpl. by rewrite Hpa, Hbs.
      * split; discriminate.
    + intros He app fuel name w. rewrite createSkeleton_element.
      destruct (existsb (fun a => JS.startsWith (fst a) "on") attrs) eqn:Ea.
      * rewrite attributeLoop_event; try done.
      * destruct (attributeLoop_plain attrs Ea Hsa [] eq_refl)
          as (ra & Hra & _).
        rewrite Hra. simpl. simpl in He. by rewrite Hthrow.
Qed.

(** X8.  From a markup without any event attribute (and with attribute
    names that a record stores in order) [createSkeleton] always returns,
    and what it returns depends on the markup alone: not on the
    application, the component name or the state of the world.  It returns
    [null] for the text nodes that hold white space only, and for them
    only; in a skeleton it returns every text is trimmed and is not empty,
    and every attribute is a string under a name that is not the name of
    an event. *)
Theorem createSkeleton_plain m :
  hasEvent m = false -> storable m = true ->
  exists r,
    (forall app fuel name w, createSkeleton app fuel m name w = Ok r)
    /\ (forall sk, r = Some sk -> built sk = true)
    /\ (r = None <-> blank m = true).
Proof. intros He Hs. by apply createSkeleton_cases. Qed.

(** X9.  An event attribute anywhere in a markup, on the element itself
    or on a descendant at any depth, makes [createSkeleton] throw a
    [TypeError], whatever the application, the component and the world
    (the attribute names being names that a record stores in order): the
    engine never builds a skeleton that holds an event handler. *)
Theorem createSkeleton_event m app fuel name w :
  hasEvent m = true -> storable m = true ->
  createSkeleton app fuel m name w = Throw TypeError.
Proof. intros He Hs. by apply createSkeleton_cases. Qed.

Lemma createSkeleton_plain_witness :
  exists r,
    (forall app fuel name w,
       createSkeleton app fuel
         (MElement "DIV" [("class", "box")]
            [MCharData "  ";
             MElement "SPAN" [] [MCharData " {{state.count}} "]])
         name w = Ok r)
    /\ (forall sk, r = Some sk -> built sk = true)
    /\ (r = None
        <-> blank (MElement "DIV" [("class", "box")]
                     [MCharData "  ";
                      MElement "SPAN" [] [MCharData " {{state.count}} "]])
            = true).
Proof.
  apply (createSkeleton_plain
           (MElement "DIV" [("class", "box")]
              [MCharData "  ";
               MElement "SPAN" [] [MCharData " {{state.count}} "]]));
    reflexivity.
Defined.

Lemma createSkeleton_event_witness :
  createSkeleton methodsApp 1
    (MElement "DIV" [("class", "box")]
       [MCharData "Count";
        MElement "BUTTON" [("class", "b"); ("onclick", "{{methods.increment}}")]
                 [MCharData "+"]])
    (VStr "counter") methodsWorld = Throw TypeError.
Proof.
  apply (createSkeleton_event
           (MElement "DIV" [("class", "box")]
              [MCharData "Count";
               MElement "BUTTON"
                        [("class", "b"); ("onclick", "{{methods.increment}}")]
                        [MCharData "+"]])
           methodsApp 1 (VStr "counter") methodsWorld);
    reflexivity.
Defined.

(** ** One turn of the interpolation loop *)

Lemma length_append (a b : string) :
  String.length (a ++ b) = (String.length a + String.length b)%nat.
Proof. induction a as [|c a IH]; simpl; [done | by rewrite IH]. Qed.

Lemma drop_append (a b : string) : JS.drop (String.length a) (a ++ b) = b.
Proof. induction a as [|c a IH]; simpl; [by destruct b | exact IH]. Qed.

Lemma take_append (a b : string) : JS.take (String.length a) (a ++ b) = a.
Proof.
  induction a as [|c a IH]; simpl; [by destruct b | by rewrite IH].
Qed.

Lemma append_assoc (a b c : string) : (a ++ b) ++ c = a ++ (b ++ c).
Proof.
  induction a as [|x a IH]; [reflexivity|].
  change (String x ((a ++ b) ++ c) = String x (a ++ (b ++ c))).
  by rewrite IH.
Qed.

Lemma prefixb_append (a b : string) : JS.prefixb a (a ++ b) = true.
Proof.
  induction a as [|c a IH]; simpl; [done|]. by rewrite Ascii.eqb_refl, IH.
Qed.

Lemma find_here pat s pos :
  JS.prefixb pat s = true -> JS.find pat s pos = Some pos.
Proof. intros H. destruct s; simpl; by rewrite H. Qed.

(** A pattern is not found before its first character occurs. *)
Lemma find_skip (p0 : ascii) pat (pre s : string) pos :
  JS.all (fun c => negb (Ascii.eqb c p0)) pre = true ->
  JS.find (String p0 pat) (pre ++ s) pos
  = JS.find (String p0 pat) s (pos + String.length pre).
Proof.
  revert pos. induction pre as [|c pre IH]; intros pos H; simpl.
  - by rewrite Nat.add_0_r.
  - simpl in H. apply andb_true_iff in H as [Hc H].
    apply negb_true_iff in Hc. rewrite Ascii.eqb_sym in Hc at 1.
    rewrite Hc. simpl. rewrite IH by done. f_equal. lia.
Qed.

Lemma getSubstitution_plain matched before after repl :
  JS.all (fun c => negb (Ascii.eqb c "$")) repl = true ->
  JS.getSubstitution matched before after repl = repl.
Proof.
  induction repl as [|c r IH]; simpl; [done|]. intros H.
  apply andb_true_iff in H as [Hc H]. apply negb_true_iff in Hc.
  rewrite Hc. by rewrite IH.
Qed.

Lemma interpolate_S fuel w elementKey text :
  interpolate (S fuel) w elementKey text
  = let startIndex := JS.indexOf text "{{" 0 in
    if (startIndex >? -1)%Z then
      let endIndex := JS.indexOf text "}}" (startIndex + 2) in
      if (endIndex =? 0)%Z then Ok text
      else
        let variable := JS.substring text (startIndex + 2) endIndex in
        let* tempObj :=
          resolve (getEntry elementKey w) entryProp (heap w)
                  (JS.split_dot variable) in
        let* text' :=
          replaceWith (heap w) text ("{{" ++ variable ++ "}}") tempObj in
        interpolate fuel w elementKey text'
    else Ok text.
Proof. reflexivity. Qed.

Section Placeholder.

Variables pre var post : string.
Hypothesis Hpre : JS.all (fun c => negb (Ascii.eqb c "{")) pre = true.
Hypothesis Hvar : JS.all (fun c => negb (Ascii.eqb c "}")) var = true.

Let text : string := pre ++ "{{" ++ var ++ "}}" ++ post.

Lemma placeholder_len :
  JS.len text = (Z.of_nat (String.length pre) + 2
                 + Z.of_nat (String.length var) + 2
                 + Z.of_nat (String.length post))%Z.
Proof.
  unfold JS.len, text. rewrite !length_append. simpl String.length. lia.
Qed.

Lemma placeholder_start :
  JS.indexOf text "{{" 0 = Z.of_nat (String.length pre).
Proof.
  unfold JS.indexOf, JS.clamp. pose proof placeholder_len as L.
  replace (Z.to_nat (Z.min (Z.max 0 0) (JS.len text))) with 0%nat by lia.
  change (JS.drop 0 text) with text. unfold text.
  rewrite find_skip by exact Hpre.
  by rewrite (find_here "{{" ("{{" ++ var ++ "}}" ++ post)).
Qed.

Lemma placeholder_end :
  JS.indexOf text "}}" (Z.of_nat (String.length pre) + 2)
  = Z.of_nat (String.length pre + 2 + String.length var).
Proof.
  unfold JS.indexOf, JS.clamp. pose proof placeholder_len as L.
  replace (Z.to_nat (Z.min (Z.max (Z.of_nat (String.length pre) + 2) 0)
                           (JS.len text)))
    with (String.length (pre ++ "{{")) by (rewrite length_append; simpl; lia).
  unfold text.
  replace (pre ++ "{{" ++ var ++ "}}" ++ post)
    with ((pre ++ "{{") ++ var ++ "}}" ++ post)
    by (by rewrite append_assoc).
  rewrite drop_append, find_skip by exact Hvar.
  rewrite (find_here "}}" ("}}" ++ post)) by reflexivity.
  rewrite length_append. simpl. lia.
Qed.

Lemma placeholder_variable :
  JS.substring text (Z.of_nat (String.length pre) + 2)
               (Z.of_nat (String.length pre + 2 + String.length var))
  = var.
Proof.
  unfold JS.substring, JS.clamp. pose proof placeholder_len as L.
  match goal with
  | |- JS.take (Z.to_nat ?n) (JS.drop (Z.to_nat ?m) _) = _ =>
      replace (Z.to_nat n) with (String.length var) by lia;
      replace (Z.to_nat m) with (String.length (pre ++ "{{"))
        by (rewrite length_append; simpl; lia)
  end.
  unfold text.
  replace (pre ++ "{{" ++ var ++ "}}" ++ post)
    with ((pre ++ "{{") ++ var ++ "}}" ++ post)
    by (by rewrite append_assoc).
  by rewrite drop_append, take_append.
Qed.

Lemma placeholder_replace r :
  JS.all (fun c => negb (Ascii.eqb c "$")) r = true ->
  JS.replace text ("{{" ++ var ++ "}}") r = pre ++ r ++ post.
Proof.
  intros Hr. unfold JS.replace, text.
  change ("{{" ++ var ++ "}}") with (String "{" (String "{" (var ++ "}}"))).
  rewrite find_skip by exact Hpre.
  rewrite find_here.
  - simpl Nat.add. rewrite take_append.
    rewrite getSubstitution_plain by exact Hr.
    replace (pre ++ "{{" ++ var ++ "}}" ++ post)
      with ((pre ++ "{{" ++ var ++ "}}") ++ post)
      by (by rewrite !append_assoc).
    match goal with
    | |- context [JS.drop ?n _] =>
        replace n with (String.length (pre ++ "{{" ++ var ++ "}}"))
          by (rewrite length_append; reflexivity)
    end.
    by rewrite drop_append.
  - change (String "{" (String "{" (var ++ "}}")))
      with ("{{" ++ var ++ "}}").
    replace ("{{" ++ var ++ "}}" ++ post)
      with (("{{" ++ var ++ "}}") ++ post) by (by rewrite !append_assoc).
    apply prefixb_append.
Qed.

(** A turn of the loop on a text whose first opening marker starts a
    placeholder. *)
Lemma interpolate_turn fuel w elementKey :
  interpolate (S fuel) w elementKey text
  = let* tempObj :=
      resolve (getEntry elementKey w) entryProp (heap w) (JS.split_dot var) in
    let* text' := replaceWith (heap w) text ("{{" ++ var ++ "}}") tempObj in
    interpolate fuel w elementKey text'.
Proof.
  rewrite interpolate_S. cbv zeta. rewrite placeholder_start.
  destruct (Z.gtb_spec (Z.of_nat (String.length pre)) (-1)) as [_|]; [|lia].
  rewrite placeholder_end.
  destruct (Z.eqb_spec (Z.of_nat (String.length pre + 2 + String.length var))
                       0) as [|_]; [lia|].
  by rewrite placeholder_variable.
Qed.

End Placeholder.

Lemma convertTextVariables_keyed app fuel text name key ks k w :
  toStringMethod key = Ok ks -> ks <> "" ->
  add (heap w) name (VStr ks) = Ok k ->
  convertTextVariables app fuel (VStr text) name key w
  = let* text' := interpolate fuel w k text in Ok (VStr text').
Proof.
  intros Hks Hne Hk. unfold convertTextVariables. rewrite Hks. simpl.
  destruct (String.eqb_spec ks ""); [done|]. by rewrite Hk.
Qed.

(** X10.  Render-time interpolation works placeholder by placeholder.
    When the text before the first placeholder has no brace, and the path
    of the placeholder (which has no closing brace) resolves from the entry
    of the instance to a value whose string has no dollar sign, a turn of
    the loop puts that string in the place of the placeholder and goes on
    with the new text, scanned again from its start; when the new text has
    no opening marker left, it is the result. *)
Theorem placeholder_replaced app fuel name key ks k w pre var post v s :
  toStringMethod key = Ok ks -> ks <> "" ->
  add (heap w) name (VStr ks) = Ok k ->
  JS.all (fun c => negb (Ascii.eqb c "{")) pre = true ->
  JS.all (fun c => negb (Ascii.eqb c "}")) var = true ->
  resolve (getEntry k w) entryProp (heap w) (JS.split_dot var) = Ok v ->
  toStr (heap w) v = Ok s ->
  JS.all (fun c => negb (Ascii.eqb c "$")) s = true ->
  convertTextVariables app (S fuel)
    (VStr (pre ++ "{{" ++ var ++ "}}" ++ post)) name key w
  = convertTextVariables app fuel (VStr (pre ++ s ++ post)) name key w
  /\ (JS.indexOf (pre ++ s ++ post) "{{" 0 = (-1)%Z ->
      convertTextVariables app (S fuel)
        (VStr (pre ++ "{{" ++ var ++ "}}" ++ post)) name key w
      = Ok (VStr (pre ++ s ++ post))).
Proof.
  intros Hks Hne Hk Hpre Hvar Hv Hs Hd.
  assert (convertTextVariables app (S fuel)
            (VStr (pre ++ "{{" ++ var ++ "}}" ++ post)) name key w
          = convertTextVariables app fuel (VStr (pre ++ s ++ post)) name key w)
    as Turn.
  { rewrite !(convertTextVariables_keyed app _ _ name key ks k w Hks Hne Hk).
    rewrite (interpolate_turn pre var post Hpre Hvar), Hv. simpl.
    assert (replaceWith (heap w) (pre ++ "{{" ++ var ++ "}}" ++ post)
                        ("{{" ++ var ++ "}}") v
            = Ok (pre ++ s ++ post)) as ->; [|reflexivity].
    unfold replaceWith.
    destruct v; try (rewrite Hs; simpl;
                     by rewrite (placeholder_replace pre var post Hpre)).
    discriminate Hs. }
  split; [exact Turn|]. intros Hplain. rewrite Turn.
  rewrite (convertTextVariables_keyed app _ _ name key ks k w Hks Hne Hk).
  by rewrite interpolate_plain.
Qed.

Lemma placeholder_replaced_witness :
  convertTextVariables counterApp 1 (VStr "Count: {{state.count}}!")
                       (VStr "counter") (VStr "k") oneInstance
  = convertTextVariables counterApp 0 (VStr "Count: 0!")
                         (VStr "counter") (VStr "k") oneInstance
  /\ (JS.indexOf "Count: 0!" "{{" 0 = (-1)%Z ->
      convertTextVariables counterApp 1 (VStr "Count: {{state.count}}!")
                           (VStr "counter") (VStr "k") oneInstance
      = Ok (VStr "Count: 0!")).
Proof.
  apply (placeholder_replaced counterApp 0 (VStr "counter") (VStr "k") "k"
           "counterk" oneInstance "Count: " "state.count" "!" (VNum 0) "0");
    try reflexivity.
  discriminate.
Defined.

Lemma all_append p (a b : string) :
  JS.all p (a ++ b) = JS.all p a && JS.all p b.
Proof.
  induction a as [|c a IH]; [reflexivity|].
  change (p c && JS.all p (a ++ b) = p c && JS.all p a && JS.all p b).
  by rewrite IH, andb_assoc.
Qed.

Lemma split_dot_nonempty s : exists h t, JS.split_dot s = h :: t.
Proof.
  induction s as [|c s (h & t & IH)]; simpl; [eauto|].
  destruct (Ascii.eqb c "."); [eauto|]. rewrite IH. eauto.
Qed.

Lemma split_dot_append a b :
  JS.split_dot (a ++ "." ++ b) = (JS.split_dot a ++ JS.split_dot b)%list.
Proof.
  induction a as [|c a IH]; [reflexivity|].
  change (JS.split_dot (String c (a ++ "." ++ b))
          = (JS.split_dot (String c a) ++ JS.split_dot b)%list).
  simpl. rewrite IH. destruct (Ascii.eqb c "."); [reflexivity|].
  by destruct (split_dot_nonempty a) as (h & t & ->).
Qed.

Lemma walk_app h ps1 ps2 :
  forall v, walk h v (ps1 ++ ps2)
            = let* v' := walk h v ps1 in walk h v' ps2.
Proof.
  induction ps1 as [|p ps1 IH]; intros v; simpl; [reflexivity|].
  destruct (getProp h v p); simpl; auto.
Qed.

Lemma resolve_app {R} (root : Res R) member h ps1 ps2 :
  ps1 <> [] ->
  resolve root member h (ps1 ++ ps2)
  = let* v := resolve root member h ps1 in walk h v ps2.
Proof.
  destruct ps1 as [|p ps1]; [done|]. intros _. simpl.
  destruct root as [r| | |]; simpl; try reflexivity.
  destruct (member r p); simpl; try reflexivity. apply walk_app.
Qed.

(** X11.  A placeholder whose path goes on after a member that is missing
    (or [null]) makes render-time interpolation throw a [TypeError]: the
    next segment is read from [undefined]. *)
Theorem placeholder_through_missing app fuel name key ks k w pre path q post
  v :
  toStringMethod key = Ok ks -> ks <> "" ->
  add (heap w) name (VStr ks) = Ok k ->
  JS.all (fun c => negb (Ascii.eqb c "{")) pre = true ->
  JS.all (fun c => negb (Ascii.eqb c "}")) path = true ->
  JS.all (fun c => negb (Ascii.eqb c "}")) q = true ->
  resolve (getEntry k w) entryProp (heap w) (JS.split_dot path) = Ok v ->
  v = VUndef \/ v = VNull ->
  convertTextVariables app (S fuel)
    (VStr (pre ++ "{{" ++ (path ++ "." ++ q) ++ "}}" ++ post)) name key w
  = Throw TypeError.
Proof.
  intros Hks Hne Hk Hpre Hpath Hq Hv Hmissing.
  rewrite (convertTextVariables_keyed app _ _ name key ks k w Hks Hne Hk).
  rewrite interpolate_turn; [|exact Hpre|].
  - rewrite split_dot_append, resolve_app, Hv.
    + destruct (split_dot_nonempty q) as (h & t & ->). simpl.
      by destruct Hmissing as [-> | ->].
    + by destruct (split_dot_nonempty path) as (h & t & ->).
  - rewrite !all_append, Hpath, Hq. reflexivity.
Qed.

Lemma placeholder_through_missing_witness :
  convertTextVariables counterApp 1
    (VStr ("Total: " ++ "{{" ++ ("state.total" ++ "." ++ "value") ++ "}}"
           ++ "!"))
    (VStr "counter") (VStr "k") oneInstance
  = Throw TypeError.
Proof.
  apply (placeholder_through_missing counterApp 0 (VStr "counter") (VStr "k")
           "k" "counterk" oneInstance "Total: " "state.total" "value" "!"
           VUndef);
    try reflexivity.
  - discriminate.
  - by left.
Defined.

(** ** Page-level mounting without a placeholder *)

#[local] Arguments Dom.getAttribute : simpl never.
#[local] Arguments Dom.newElement : simpl never.

Lemma connectPage_element app fuel d tag attrs cs w :
  connectPage app fuel d (SNode tag attrs cs) w
  = let elem := length (nodes w) in
    let w1 := with_nodes (nodes w ++ [Dom.newElement tag]) w in
    let* w2 := forEach (pageAttr elem) attrs w1 in
    let componentName := Dom.getAttribute elem "lucid-component" (nodes w2) in
    let componentKey := Dom.getAttribute elem "lucid-key" (nodes w2) in
    let* w3 :=
      if truthy componentName || truthy componentKey
      then connectPlaceholder app fuel elem componentName componentKey w2
      else Ok w2 in
    let* w4 := forEach (fun c => connectPage app fuel elem c) cs w3 in
    liftDom (Dom.appendChild d elem) w4.
Proof. reflexivity. Qed.

Lemma assoc_set_other {A} k k' (v : A) l :
  k' <> k -> assoc k' (assoc_set k v l) = assoc k' l.
Proof.
  intros Hne. induction l as [|[k0 v0] l IH]; simpl.
  - by destruct (String.eqb_spec k' k).
  - destruct (String.eqb_spec k k0) as [<-|]; simpl.
    + by destruct (String.eqb_spec k' k).
    + destruct (String.eqb k' k0); [done | exact IH].
Qed.

Lemma pageAttr_created base e news attr w w' :
  nodes w = (base ++ e :: news)%list ->
  pageAttr (length base) attr w = Ok w' ->
  domOnly w w'
  /\ exists e',
       nodes w' = (base ++ e' :: news)%list /\ links e' = links e
       /\ forall k, k <> fst attr ->
            assoc k (attributes e') = assoc k (attributes e).
Proof.
  intros Hn H. destruct attr as [k v]. unfold pageAttr in H.
  split_bind H as s Es. split; [by eapply liftDom_domOnly|].
  unfold liftDom in H. split_bind H as ns' E. injection H as <-.
  rewrite Hn in E. unfold Dom.setAttribute in E.
  rewrite lookup_created in E.
  destruct (Dom.isElement e), (Dom.plainName k); try discriminate.
  injection E as <-. rewrite insert_created. eexists.
  split; [reflexivity|]. split; [reflexivity|]. simpl. intros k' Hne.
  by apply assoc_set_other.
Qed.

Lemma pageAttrs_created base news attrs :
  forall e w w',
    nodes w = (base ++ e :: news)%list ->
    forEach (pageAttr (length base)) attrs w = Ok w' ->
    domOnly w w'
    /\ exists e',
         nodes w' = (base ++ e' :: news)%list /\ links e' = links e
         /\ forall k, existsb (fun a => String.eqb (fst a) k) attrs = false ->
              assoc k (attributes e') = assoc k (attributes e).
Proof.
  induction attrs as [|a attrs IH]; intros e w w' Hn H; simpl in H.
  - injection H as <-. split; [apply domOnly_refl|]. eauto.
  - split_bind H as w1 E1.
    destruct (pageAttr_created _ _ _ _ _ _ Hn E1) as (D1 & e1 & Hn1 & L1 & A1).
    destruct (IH e1 w1 w' Hn1 H) as (D' & e' & Hn' & L' & A').
    split; [by eapply domOnly_trans|].
    exists e'. split; [done|]. split; [congruence|].
    intros k Hk. simpl in Hk. apply orb_false_iff in Hk as [Hk1 Hk2].
    rewrite A' by done. apply A1. intros ->.
    by rewrite String.eqb_refl in Hk1.
Qed.

Lemma getAttribute_created base e news k :
  Dom.getAttribute (length base) k (base ++ e :: news)
  = match assoc k (attributes e) with Some v => VStr v | None => VNull end.
Proof. unfold Dom.getAttribute. by rewrite lookup_created. Qed.

Lemma no_marker_attribute attrs :
  existsb isMarker attrs = false ->
  existsb (fun a : string * JSVal => String.eqb (fst a) "lucid-component")
          attrs = false
  /\ existsb (fun a : string * JSVal => String.eqb (fst a) "lucid-key")
             attrs = false.
Proof.
  induction attrs as [|a attrs IH]; simpl; [done|]. intros H.
  apply orb_false_iff in H as [Ha H]. unfold isMarker in Ha.
  apply orb_false_iff in Ha as [-> ->]. by apply IH.
Qed.

Lemma children_same (body body' : Skeleton -> World -> Res World) base cs :
  Forall (fun c => forall w w',
            body c w = Ok w' -> (length base < length (nodes w))%nat ->
            mountedUnder (length base) (size c) (nodes w) (nodes w')
            /\ body' c w = Ok w') cs ->
  forall e news w w',
    nodes w = (base ++ e :: news)%list ->
    forEach body cs w = Ok w' -> forEach body' cs w = Ok w'.
Proof.
  induction 1 as [|c cs Hc _ IH]; intros e news w w' Hn H; simpl in H |- *;
    [done|].
  split_bind H as w1 E1.
  destruct (Hc w w1 E1) as ((dn & root & new & Ld & Hn1 & _) & ->).
  { rewrite Hn, length_app. simpl. lia. }
  simpl. rewrite Hn, lookup_created in Ld. injection Ld as <-.
  rewrite Hn, insert_created in Hn1. rewrite <- app_assoc in Hn1.
  simpl in Hn1. by apply (IH _ _ w1 w' Hn1).
Qed.

Lemma connectPage_plain app fuel sk :
  noMarkers sk = true ->
  forall d w w',
    connectPage app fuel d sk w = Ok w' ->
    (d < length (nodes w))%nat ->
    domOnly w w' /\ mountedUnder d (size sk) (nodes w) (nodes w')
    /\ forall app' fuel', connectPage app' fuel' d sk w = Ok w'.
Proof.
  induction sk as [text | tag attrs cs IH] using Skeleton_nested_ind;
    intros Hm d w w' H Hd.
  - split; [|split; [|intros; exact H]];
      simpl in H; unfold createTextNode, liftDom in H; simpl in H;
      split_bind H as ns' E; injection H as <-; [reflexivity|]. simpl.
    apply (appendChild_created (nodes w) _ []) in E as (dn & Ldn & ->);
      [|done|done].
    exists dn, (Dom.with_parent (Some d) (Dom.newText text)), [].
    by repeat split.
  - simpl in Hm. apply andb_true_iff in Hm as [Ha Hc].
    apply negb_true_iff, no_marker_attribute in Ha as [Ha1 Ha2].
    apply Forall_forallb in Hc.
    assert (Forall (fun c => forall d w w',
              connectPage app fuel d c w = Ok w' ->
              (d < length (nodes w))%nat ->
              domOnly w w' /\ mountedUnder d (size c) (nodes w) (nodes w')
              /\ forall app' fuel', connectPage app' fuel' d c w = Ok w')
              cs) as IH'.
    { eapply Forall_impl; [apply Forall_and; split; [exact IH|exact Hc]|].
      simpl. intros c [Hc1 Hc2]. by apply Hc1. }
    clear IH Hc.
    pose proof H as H0.
    rewrite connectPage_element in H. cbv zeta in H.
    split_bind H as w2 E2.
    destruct (pageAttrs_created (nodes w) [] attrs (Dom.newElement tag)
                (with_nodes (nodes w ++ [Dom.newElement tag]) w) w2
                eq_refl E2) as (D2 & e2 & Hn2 & L2 & A2).
    assert (truthy (Dom.getAttribute (length (nodes w)) "lucid-component"
                                     (nodes w2))
            || truthy (Dom.getAttribute (length (nodes w)) "lucid-key"
                                        (nodes w2)) = false) as Hplain.
    { rewrite Hn2, !getAttribute_created. by rewrite !A2 by done. }
    rewrite Hplain in H. simpl in H.
    split_bind H as w4 E4.
    split; [|split].
    + unfold liftDom in H. split_bind H as ns' E. injection H as <-.
      destruct (children_mounted
                  (fun c => connectPage app fuel (length (nodes w)) c)
                  (nodes w) cs) with (e := e2) (news := @nil Node)
                                     (w := w2) (w' := w4)
        as (D4 & _); [|done|done|].
      { eapply Forall_impl; [exact IH'|]. simpl.
        intros c Hc1 wa wb Hab Hlt.
        destruct (Hc1 _ wa wb Hab Hlt) as (? & ? & _). by split. }
      rewrite D4, D2. reflexivity.
    + unfold liftDom in H. split_bind H as ns' E. injection H as <-.
      destruct (children_mounted
                  (fun c => connectPage app fuel (length (nodes w)) c)
                  (nodes w) cs) with (e := e2) (news := @nil Node)
                                     (w := w2) (w' := w4)
        as (D4 & e4 & news & Hn4 & Hp4 & Hl4); [|done|done|].
      { eapply Forall_impl; [exact IH'|]. simpl.
        intros c Hc1 wa wb Hab Hlt.
        destruct (Hc1 _ wa wb Hab Hlt) as (? & ? & _). by split. }
      rewrite Hn4 in E.
      apply appendChild_created in E as (dn & Ldn & ->); [|done|].
      * exists dn, (Dom.with_parent (Some d) e4), news.
        repeat split; [done|]. simpl in Hl4. by rewrite Hl4.
      * rewrite Hp4. by injection L2.
    + intros app' fuel'. rewrite connectPage_element. cbv zeta.
      rewrite E2. simpl. rewrite Hplain. simpl.
      rewrite (children_same
                 (fun c => connectPage app fuel (length (nodes w)) c)
                 (fun c => connectPage app' fuel' (length (nodes w)) c)
                 (nodes w) cs) with (e := e2) (news := @nil Node) (w' := w4);
        [exact H| |done|done].
      eapply Forall_impl; [exact IH'|]. simpl.
      intros c Hc1 wa wb Hab Hlt.
      destruct (Hc1 _ wa wb Hab Hlt) as (_ & ? & ?). by split.
Qed.

(** X12.  A page skeleton in which no element carries a marker attribute
    is mounted as plain host nodes, whatever the application: one node for
    each text and element, the root appended to its parent as the last
    child, no other node touched.  Nothing is registered, no hook is
    called, no skeleton is built, and the result does not depend on the
    components: the texts of a page are not interpolated. *)
Theorem connectPage_static app fuel sk d w w' :
  noMarkers sk = true ->
  connectPage app fuel d sk w = Ok w' ->
  (d < length (nodes w))%nat ->
  domOnly w w' /\ mountedUnder d (size sk) (nodes w) (nodes w')
  /\ forall app' fuel', connectPage app' fuel' d sk w = Ok w'.
Proof. intros Hm. by apply connectPage_plain. Qed.

Lemma connectPage_static_witness :
  exists w',
    connectPage hookedApp 1 0
      (SNode "DIV" [("class", VStr "box")]
             [SText "{{state.count}}"; SNode "P" [] [SText "hello"]])
      startWorld = Ok w'
    /\ domOnly startWorld w'
    /\ mountedUnder 0
         (size (SNode "DIV" [("class", VStr "box")]
                      [SText "{{state.count}}"; SNode "P" [] [SText "hello"]]))
         (nodes startWorld) (nodes w')
    /\ forall app' fuel',
         connectPage app' fuel' 0
           (SNode "DIV" [("class", VStr "box")]
                  [SText "{{state.count}}"; SNode "P" [] [SText "hello"]])
           startWorld = Ok w'.
Proof.
  eexists. split; [vm_compute; reflexivity|].
  apply (connectPage_static hookedApp 1
           (SNode "DIV" [("class", VStr "box")]
                  [SText "{{state.count}}"; SNode "P" [] [SText "hello"]])
           0 startWorld);
    [reflexivity | vm_compute; reflexivity | vm_compute; lia].
Defined.

(** ** A placeholder with one marker only *)

#[local] Arguments JS.startsWith : simpl never.
#[local] Arguments Dom.getAttribute : simpl never.
#[local] Arguments Dom.newElement : simpl never.

Lemma convertTextVariables_null app fuel text name key w :
  key = VNull \/ key = VUndef ->
  convertTextVariables app fuel text name key w = Throw TypeError.
Proof. by intros [-> | ->]. Qed.

Lemma connectAttr_event app fuel name key k v base e news w :
  JS.startsWith k "on" = true ->
  nodes w = (base ++ e :: news)%list ->
  connectAttr app fuel (length base) name key (k, v) w
  = Ok (with_nodes
          (base ++ Dom.with_listener (mkListener (JS.substr k 2) v name key) e
                :: news) w).
Proof.
  intros Hk Hn. unfold connectAttr. rewrite Hk.
  unfold liftDom, Dom.addEventListener. rewrite Hn, lookup_created. simpl.
  by rewrite insert_created.
Qed.

Lemma forEach_cons {A} (body : A -> World -> Res World) x l w :
  forEach body (x :: l) w = let* w' := body x w in forEach body l w'.
Proof. reflexivity. Qed.

(** The loop over the attributes of a skeleton node: event attributes
    subscribe and go on; with a key that is [null] or [undefined] the first
    of the other attributes throws. *)
Lemma connectAttrs_cases app fuel name key base news attrs :
  forall e w,
    nodes w = (base ++ e :: news)%list ->
    (existsb (fun a => negb (JS.startsWith (fst a) "on")) attrs = false ->
       exists w' e',
         forEach (connectAttr app fuel (length base) name key) attrs w = Ok w'
         /\ nodes w' = (base ++ e' :: news)%list
         /\ kind e' = kind e /\ links e' = links e)
    /\ (existsb (fun a => negb (JS.startsWith (fst a) "on")) attrs = true ->
          key = VNull \/ key = VUndef ->
          forEach (connectAttr app fuel (length base) name key) attrs w
          = Throw TypeError).
Proof.
  induction attrs as [|[k v] attrs IH]; intros e w Hn.
  - split; [|discriminate]. intros _. exists w, e. by repeat split.
  - rewrite forEach_cons. simpl existsb. simpl fst.
    destruct (JS.startsWith k "on") eqn:Hk; simpl negb; simpl orb.
    + rewrite (connectAttr_event app fuel name key k v base e news w Hk Hn).
      simpl bind.
      destruct (IH (Dom.with_listener (mkListener (JS.substr k 2) v name key)
                                      e)
                   (with_nodes
                      (base ++ Dom.with_listener
                                 (mkListener (JS.substr k 2) v name key) e
                            :: news) w) eq_refl) as [Hok Hthrow].
      split; [|exact Hthrow]. intros Hall.
      destruct (Hok Hall) as (w' & e' & Hw' & Hn' & Hkind & Hlinks).
      exists w', e'. by repeat split.
    + split; [discriminate|]. intros _ Hkey.
      unfold connectAttr. rewrite Hk.
      by rewrite convertTextVariables_null.
Qed.

Lemma connectComponent_cases app fuel sk :
  forall d dn name key w,
    nodes w !! d = Some dn -> Dom.isElement dn = true ->
    (hasContent sk = false ->
       exists w', connectComponent app fuel d sk name key w = Ok w')
    /\ (hasContent sk = true -> key = VNull \/ key = VUndef ->
          connectComponent app fuel d sk name key w = Throw TypeError).
Proof.
  induction sk as [text | tag attrs cs IH] using Skeleton_nested_ind;
    intros d dn name key w Hd Hdn.
  - split; [discriminate|]. intros _ Hkey. simpl.
    by rewrite convertTextVariables_null.
  - pose proof (lookup_lt_Some _ _ _ Hd) as Hlt.
    assert (forall e news w2,
              nodes w2 = (nodes w ++ e :: news)%list ->
              Dom.isElement e = true ->
              (existsb hasContent cs = false ->
                 exists w3 e3 news3,
                   forEach (fun c => connectComponent app fuel
                                       (length (nodes w)) c name key)
                           cs w2 = Ok w3
                   /\ nodes w3 = (nodes w ++ e3 :: news3)%list
                   /\ parentNode e3 = parentNode e)
              /\ (existsb hasContent cs = true ->
                    key = VNull \/ key = VUndef ->
                    forEach (fun c => connectComponent app fuel
                                        (length (nodes w)) c name key)
                            cs w2 = Throw TypeError)) as Hcs.
    { induction IH as [|c cs Hc _ IHcs]; intros e news w2 Hn2 He.
      - split; [|discriminate]. intros _. exists w2, e, news. by repeat split.
      - rewrite forEach_cons. simpl existsb.
        destruct (Hc (length (nodes w)) e name key w2) as [Hok Hthrow];
          [by rewrite Hn2, lookup_created | done |].
        destruct (hasContent c) eqn:Ec; simpl orb.
        + split; [discriminate|]. intros _ Hkey. by rewrite Hthrow.
        + destruct (Hok eq_refl) as [w3 E3]. rewrite E3. simpl bind.
          destruct (connectComponent_structure _ _ _ _ _ _ _ _ E3)
            as (_ & dn3 & root & new & L3 & N3 & _).
          { rewrite Hn2, length_app. simpl. lia. }
          rewrite Hn2, lookup_created in L3. injection L3 as <-.
          rewrite Hn2, insert_created, <- app_assoc in N3. simpl in N3.
          destruct (IHcs _ _ w3 N3 He) as [Hok' Hthrow'].
          split; [|exact Hthrow']. intros Hall.
          destruct (Hok' Hall) as (w4 & e4 & news4 & E4 & N4 & P4).
          exists w4, e4, news4. by repeat split. }
    simpl connectComponent. unfold createElement.
    destruct (connectAttrs_cases app fuel name key (nodes w) [] attrs
                (Dom.newElement tag)
                (with_nodes (nodes w ++ [Dom.newElement tag]) w) eq_refl)
      as [Aok Athrow].
    simpl hasContent.
    destruct (existsb (fun a => negb (JS.startsWith (fst a) "on")) attrs)
      eqn:Ea; simpl.
    + split; [discriminate|]. intros _ Hkey. by rewrite Athrow.
    + destruct (Aok eq_refl) as (w2 & e2 & E2 & N2 & K2 & L2). rewrite E2.
      simpl.
      destruct (Hcs e2 [] w2 N2) as [Cok Cthrow].
      { unfold Dom.isElement. by rewrite K2. }
      split.
      * intros Hall. destruct (Cok Hall) as (w3 & e3 & news3 & E3 & N3 & P3).
        rewrite E3. simpl. unfold liftDom. rewrite N3.
        rewrite (appendChild_known _ d (length (nodes w)) dn e3);
          [simpl; eauto | by rewrite lookup_app_l | apply lookup_created
           | done | lia |].
        rewrite P3. by injection L2.
      * intros Hall Hkey. by rewrite Cthrow.
Qed.

Lemma childLoop_ext (f g : Markup -> Res (option Skeleton)) cs :
  Forall (fun c => f c = g c) cs ->
  forall acc, childLoop f cs acc = childLoop g cs acc.
Proof.
  induction 1 as [|c cs Hc _ IH]; intros acc; simpl; [reflexivity|].
  rewrite Hc. destruct (g c) as [[s|]| | |]; simpl; auto.
Qed.

(** [createSkeleton] does not read the world. *)
Lemma createSkeleton_world app fuel name w w' m :
  createSkeleton app fuel m name w = createSkeleton app fuel m name w'.
Proof.
  induction m as [v | tag attrs cs IH] using Markup_nested_ind;
    [reflexivity|].
  rewrite !createSkeleton_element.
  change (fun value => convertTextVariables app fuel (VStr value) name VUndef w)
    with (fun value : string => @Throw JSVal TypeError).
  change (fun value =>
            convertTextVariables app fuel (VStr value) name VUndef w')
    with (fun value : string => @Throw JSVal TypeError).
  by rewrite (childLoop_ext _ _ cs IH).
Qed.

Lemma buildSkeleton_with_nodes app fuel name ns w :
  buildSkeleton app fuel name (with_nodes ns w)
  = let* wb := buildSkeleton app fuel name w in Ok (with_nodes ns wb).
Proof.
  unfold buildSkeleton.
  rewrite (cachedSkeleton_frame app name w (with_nodes ns w)) by reflexivity.
  destruct (cachedSkeleton app name w) as [[sk|]| | |]; try reflexivity.
  simpl. rewrite (getComponent_heap app name w (with_nodes ns w))
    by reflexivity.
  destruct (getComponent app name w) as [c| | |]; try reflexivity. simpl.
  destruct (toStr (heap w) name) as [k| | |]; try reflexivity. simpl.
  destruct (firstElement (c_render c)) as [child|]; [|reflexivity].
  rewrite (createSkeleton_world app fuel name (with_nodes ns w) w).
  by destruct (createSkeleton app fuel child name w) as [[sk|]| | |].
Qed.

Lemma pageAttr_one tag k v w :
  Dom.plainName k = true ->
  forEach (pageAttr (length (nodes w))) [(k, VStr v)]
          (with_nodes (nodes w ++ [Dom.newElement tag]) w)
  = Ok (with_nodes
          (nodes w ++ [Dom.with_attributes [(k, v)] (Dom.newElement tag)]) w).
Proof.
  intros Hk. rewrite forEach_cons. unfold pageAttr, liftDom. simpl.
  by rewrite setAttribute_last.
Qed.

(** X13.  In [connectPage] an element with one marker only is taken for a
    placeholder as well.  With the key marker alone, the component name is
    [null]: unless a component is defined under the name [null], mounting
    the page throws a [TypeError]. *)
Theorem key_marker_alone app fuel d tag key cs w :
  key <> "" -> components app !! "null" = None ->
  connectPage app fuel d (SNode tag [("lucid-key", VStr key)] cs) w
  = Throw TypeError.
Proof.
  intros Hkey Hnull. rewrite connectPage_element. cbv zeta.
  rewrite pageAttr_one by done. simpl.
  rewrite (getAttribute_created (nodes w) _ [] "lucid-component").
  rewrite (getAttribute_created (nodes w) _ [] "lucid-key").
  simpl assoc. simpl truthy.
  destruct (String.eqb_spec key ""); [done|]. simpl.
  unfold connectPlaceholder, buildSkeleton, cachedSkeleton, getComponent.
  simpl. by rewrite Hnull.
Qed.

Lemma registered_mount_without_key app fuel elem e name key c sk k s w1 :
  noHooks app ->
  key = VNull \/ key = VUndef ->
  components app !! name = Some c ->
  skeletons w1 !! name = Some sk -> hasContent sk = true ->
  nodes w1 !! elem = Some e -> Dom.isElement e = true ->
  page_elements w1 !! k = Some (Some (mkEntry s elem)) ->
  fireHook app created (VStr name) key w1 = Ok w1
  /\ getEntry k w1 = Ok (mkEntry s elem)
  /\ getSkeleton app (VStr name) w1 = Ok sk
  /\ connectComponent app fuel elem sk (VStr name) key w1 = Throw TypeError.
Proof.
  intros no_hooks Hkey Hc Hsk Hcontent He Helem Hk.
  split; [|split; [|split]].
  - apply (fireHook_absent app created (VStr name) key name c); try done.
    by apply (no_hooks name c).
  - unfold getEntry. by rewrite Hk.
  - unfold getSkeleton, cachedSkeleton, getComponent. simpl.
    rewrite Hc. simpl. by rewrite Hsk.
  - by apply (connectComponent_cases app fuel sk elem e).
Qed.

Lemma key_marker_alone_witness :
  connectPage counterApp 1 0 (SNode "DIV" [("lucid-key", VStr "k")]
                                    [SText "inside"]) startWorld
  = Throw TypeError.
Proof.
  apply (key_marker_alone counterApp 1 0 "DIV" "k" [SText "inside"]
           startWorld).
  - discriminate.
  - vm_compute. reflexivity.
Defined.

(** X14.  With the component marker alone, the key is [null]: the
    instance is registered under the name followed by [null], and mounting
    the page throws a [TypeError] as soon as the skeleton of the component
    has a text or an attribute that is not an event attribute (no hooks in
    the application). *)
Theorem name_marker_alone app fuel d tag name cs c sk w wb :
  noHooks app ->
  name <> "" -> components app !! name = Some c ->
  buildSkeleton app fuel (VStr name) w = Ok wb ->
  skeletons wb !! name = Some sk -> hasContent sk = true ->
  connectPage app fuel d (SNode tag [("lucid-component", VStr name)] cs) w
  = Throw TypeError.
Proof.
  intros no_hooks Hname Hc Hb Hsk Hcontent.
  rewrite connectPage_element. cbv zeta.
  rewrite pageAttr_one by done. simpl.
  rewrite (getAttribute_created (nodes w) _ [] "lucid-component").
  rewrite (getAttribute_created (nodes w) _ [] "lucid-key").
  simpl assoc. simpl truthy.
  destruct (String.eqb_spec name ""); [done|]. simpl.
  unfold connectPlaceholder.
  rewrite buildSkeleton_with_nodes, Hb. simpl.
  unfold getComponent at 1. simpl. rewrite Hc. simpl.
  pose proof (buildSkeleton_nodes _ _ _ _ _ Hb) as Hn.
  match goal with
  | |- context [fireHook app created _ _ ?w1] =>
      destruct (registered_mount_without_key app fuel (length (nodes w))
                  (Dom.with_attributes [("lucid-component", name)]
                                       (Dom.newElement tag))
                  name VNull c sk (name ++ "null") (c_state c) w1)
        as (F & G & S & C);
        [done | by left | done | done | done
         | simpl; apply lookup_snoc_last | done
         | simpl; apply lookup_insert_eq |]
  end.
  rewrite F. simpl bind. rewrite G. simpl bind. rewrite S. simpl bind.
  simpl e_dom. by rewrite C.
Qed.

Lemma name_marker_alone_witness :
  connectPage counterApp 1 0 (SNode "DIV" [("lucid-component", VStr "counter")]
                                    [SText "inside"]) startWorld
  = Throw TypeError.
Proof.
  eapply (name_marker_alone counterApp 1 0 "DIV" "counter" [SText "inside"]).
  - apply spanApp_noHooks.
  - discriminate.
  - vm_compute. reflexivity.
  - vm_compute. reflexivity.
  - vm_compute. reflexivity.
  - reflexivity.
Defined.

(** X15.  [renderComponent] called without a key ([undefined], or
    [null]) throws a [TypeError] for every component whose skeleton has a
    text or an attribute that is not an event attribute: the key is
    converted by its own [toString] method (no hooks in the
    application). *)
Theorem renderComponent_without_key app fuel d name key c sk w wb :
  noHooks app ->
  key = VNull \/ key = VUndef ->
  components app !! name = Some c ->
  buildSkeleton app fuel (VStr name) w = Ok wb ->
  skeletons wb !! name = Some sk -> hasContent sk = true ->
  renderComponent app fuel d (VStr name) key w = Throw TypeError.
Proof.
  intros no_hooks Hkey Hc Hb Hsk Hcontent. unfold renderComponent.
  rewrite Hb. simpl. unfold createElement. simpl.
  pose proof (buildSkeleton_nodes _ _ _ _ _ Hb) as Hn.
  unfold liftDom at 1. simpl. rewrite Hn.
  rewrite setAttribute_last by done. simpl.
  assert (exists ks, toStr (heap wb) key = Ok ks
                     /\ add (heap wb) (VStr name) key = Ok (name ++ ks))
    as (ks & -> & Hadd).
  { destruct Hkey as [-> | ->]; eexists; by split. }
  simpl. unfold liftDom at 1. simpl.
  rewrite setAttribute_last by done. simpl. rewrite Hadd. simpl.
  unfold getComponent at 1. simpl. rewrite Hc. simpl.
  match goal with
  | |- context [fireHook app created _ _ ?w1] =>
      destruct (registered_mount_without_key app fuel (length (nodes w))
                  (Dom.with_attributes
                     [("lucid-component", name); ("lucid-key", ks)]
                     (Dom.with_attributes [("lucid-component", name)]
                                          (Dom.newElement "div")))
                  name key c sk (name ++ ks) (c_state c) w1)
        as (F & G & S & C);
        [done | done | done | done | done
         | simpl; apply lookup_snoc_last | done
         | simpl; apply lookup_insert_eq |]
  end.
  rewrite F. simpl bind. rewrite S. simpl bind. by rewrite C.
Qed.

Lemma renderComponent_without_key_witness :
  renderComponent counterApp 1 0 (VStr "counter") VUndef startWorld
  = Throw TypeError.
Proof.
  eapply (renderComponent_without_key counterApp 1 0 "counter" VUndef).
  - apply spanApp_noHooks.
  - by right.
  - vm_compute. reflexivity.
  - vm_compute. reflexivity.
  - vm_compute. reflexivity.
  - reflexivity.
Defined.

(** ** Event attributes and the entry points *)

Lemma pageAttr_two tag k1 v1 k2 v2 w :
  Dom.plainName k1 = true -> Dom.plainName k2 = true ->
  forEach (pageAttr (length (nodes w))) [(k1, VStr v1); (k2, VStr v2)]
          (with_nodes (nodes w ++ [Dom.newElement tag]) w)
  = Ok (with_nodes
          (nodes w
           ++ [Dom.with_attributes
                 (assoc_set k2 v2 [(k1, v1)]) (Dom.newElement tag)]) w).
Proof.
  intros H1 H2. unfold forEach, pageAttr, liftDom. simpl.
  rewrite setAttribute_last by done. simpl.
  by rewrite setAttribute_last.
Qed.

(** X16.  A markup with an event attribute somewhere (under attribute
    names that a record stores in order) cannot be mounted.  As the first
    element of the page contents it makes [run] throw a [TypeError]; as
    the first element of the render output of a component that has no
    skeleton yet, it makes every mount of that component throw a
    [TypeError], through [renderComponent] and through a placeholder of
    the page. *)
Theorem event_markup_never_mounts m app fuel d w :
  hasEvent m = true -> storable m = true ->
  (firstElement (p_contents (page app)) = Some m ->
     run app fuel d w = Throw TypeError)
  /\ forall name c,
       components app !! name = Some c -> skeletons w !! name = None ->
       firstElement (c_render c) = Some m ->
       (forall key,
          renderComponent app fuel d (VStr name) key w = Throw TypeError)
       /\ (forall tag key cs,
             name <> "" ->
             connectPage app fuel d
               (SNode tag [("lucid-component", VStr name);
                           ("lucid-key", VStr key)] cs) w
             = Throw TypeError).
Proof.
  intros He Hs. split.
  - intros Hfirst. unfold run. rewrite Hfirst.
    by rewrite (proj2 (createSkeleton_cases m Hs) He).
  - intros name c Hc Hsk Hfirst.
    assert (buildSkeleton app fuel (VStr name) w = Throw TypeError) as Hb.
    { unfold buildSkeleton, cachedSkeleton, getComponent. simpl.
      rewrite Hc. simpl. rewrite Hsk, Hfirst.
      by rewrite (proj2 (createSkeleton_cases m Hs) He). }
    split.
    + intros key. unfold renderComponent. by rewrite Hb.
    + intros tag key cs Hname. rewrite connectPage_element. cbv zeta.
      rewrite pageAttr_two by done. simpl.
      rewrite (getAttribute_created (nodes w) _ [] "lucid-component").
      simpl assoc. simpl truthy.
      destruct (String.eqb_spec name ""); [done|]. simpl.
      unfold connectPlaceholder. by rewrite buildSkeleton_with_nodes, Hb.
Qed.

Lemma event_markup_never_mounts_witness :
  (firstElement (p_contents (page buttonApp)) = Some buttonMarkup ->
     run buttonApp 1 0 startWorld = Throw TypeError)
  /\ forall name c,
       components buttonApp !! name = Some c ->
       skeletons startWorld !! name = None ->
       firstElement (c_render c) = Some buttonMarkup ->
       (forall key,
          renderComponent buttonApp 1 0 (VStr name) key startWorld
          = Throw TypeError)
       /\ (forall tag key cs,
             name <> "" ->
             connectPage buttonApp 1 0
               (SNode tag [("lucid-component", VStr name);
                           ("lucid-key", VStr key)] cs) startWorld
             = Throw TypeError).
Proof.
  apply (event_markup_never_mounts buttonMarkup buttonApp 1 0 startWorld);
    reflexivity.
Defined.

(** ** A mount and the update pass agree *)

#[local] Arguments JS.startsWith : simpl never.

Lemma interpolate_frame fuel w w2 k :
  heap w2 = heap w -> page_elements w2 = page_elements w ->
  forall text, interpolate fuel w2 k text = interpolate fuel w k text.
Proof.
  intros Hh He. induction fuel as [|fuel IH]; intros text.
  - simpl. reflexivity.
  - rewrite !interpolate_S. cbv zeta. unfold getEntry. rewrite Hh, He.
    destruct (JS.indexOf text "{{" 0 >? -1)%Z; [|reflexivity].
    destruct (JS.indexOf text "}}" (JS.indexOf text "{{" 0 + 2) =? 0)%Z;
      [reflexivity|].
    destruct (resolve _ entryProp (heap w) _) as [v| | |]; try reflexivity.
    simpl. destruct (replaceWith _ _ _ v) as [t| | |]; try reflexivity.
    simpl. apply IH.
Qed.

Lemma convertTextVariables_frame app fuel text name key w w2 :
  heap w2 = heap w -> page_elements w2 = page_elements w ->
  convertTextVariables app fuel text name key w2
  = convertTextVariables app fuel text name key w.
Proof.
  intros Hh He. unfold convertTextVariables, getComponent.
  destruct (toStringMethod key) as [ks| | |]; try reflexivity. simpl.
  rewrite Hh. destruct (String.eqb ks ""); [reflexivity|].
  destruct (add (heap w) name (VStr ks)) as [k| | |]; try reflexivity.
  simpl. destruct text; try reflexivity.
  by rewrite (interpolate_frame fuel w w2 k Hh He).
Qed.

Lemma with_nodes_id w : with_nodes (nodes w) w = w.
Proof. by destruct w. Qed.

Lemma assoc_set_id {A} k (v : A) l :
  assoc k l = Some v -> assoc_set k v l = l.
Proof.
  induction l as [|[k' v'] l IH]; simpl; [discriminate|].
  destruct (String.eqb_spec k k') as [->|]; [by intros [= ->]|].
  intros H. by rewrite IH.
Qed.

Lemma pairwise_impl {A B} (R R' : A -> B -> Prop) l :
  Forall (fun a => forall b, R a b -> R' a b) l ->
  forall l', pairwise R l l' -> pairwise R' l l'.
Proof.
  induction 1 as [|a l Ha _ IH]; intros [|b l']; simpl; try done.
  intros [Hab Hl]. split; [by apply Ha | by apply IH].
Qed.

Lemma rendered_frame app fuel name key sk :
  forall w w2 node,
    rendered app fuel name key w sk node ->
    heap w2 = heap w -> page_elements w2 = page_elements w ->
    (forall j, (node <= j)%nat -> (j < length (nodes w))%nat ->
               nodes w2 !! j = nodes w !! j) ->
    rendered app fuel name key w2 sk node.
Proof.
  induction sk as [text | tag attrs cs IH] using Skeleton_nested_ind;
    intros w w2 node H Hh He Hn; simpl in H |- *.
  - destruct H as (n & s & Ln & Hk & Hc). exists n, s.
    rewrite Hn by (try done; by eapply lookup_lt_Some).
    by rewrite (convertTextVariables_frame _ _ _ _ _ w w2).
  - destruct H as (n & Ln & Hel & Ha & Hc). exists n.
    split; [rewrite Hn; try done; by eapply lookup_lt_Some|].
    split; [done|]. split.
    + eapply Forall_impl; [exact Ha|]. simpl.
      intros a [Hf | (s & Hp & Hs & Hv)]; [by left|]. right. exists s.
      by rewrite (convertTextVariables_frame _ _ _ _ _ w w2).
    + eapply pairwise_impl; [|exact Hc]. eapply Forall_impl; [exact IH|].
      simpl. intros c Hcc child [Hlt Hr]. split; [done|].
      apply (Hcc w w2 child Hr Hh He). intros j Hj Hjl. apply Hn; lia.
Qed.

Lemma lookup_drop_cons {A} (l : list A) i x rest :
  drop i l = x :: rest -> l !! i = Some x /\ drop (S i) l = rest.
Proof.
  revert i. induction l as [|y l IH]; intros [|i]; simpl; try discriminate.
  - intros [= -> ->]. split; [done | by rewrite drop_0].
  - intros H. by apply IH.
Qed.

Lemma lookup_drop_nil {A} (l : list A) i : drop i l = [] -> l !! i = None.
Proof.
  revert i. induction l as [|y l IH]; intros [|i]; simpl; try done.
  apply IH.
Qed.

Lemma children_updated (update : nat -> Skeleton -> World -> Res World)
  node n w (R : Skeleton -> nat -> Prop) :
  nodes w !! node = Some n ->
  forall cs ids i,
    Forall (fun c => forall child, R c child -> update child c w = Ok w) cs ->
    drop i (childNodes n) = ids ->
    pairwise R cs ids ->
    forEachChild update node cs i w = Ok w.
Proof.
  intros Ln cs. induction cs as [|c cs IH]; intros ids i Hall Hd Hp.
  - destruct ids; [|done]. simpl. unfold Dom.children. rewrite Ln.
    by rewrite (lookup_drop_nil _ _ Hd).
  - destruct ids as [|id ids]; [done|]. destruct Hp as [Hc Hp].
    destruct (lookup_drop_cons _ _ _ _ Hd) as [Li Hd'].
    apply Forall_cons_iff in Hall as [Hu Hall'].
    simpl. unfold Dom.children. rewrite Ln, Li.
    rewrite (Hu id Hc). simpl. by apply (IH ids (S i)).
Qed.

(** On a subtree that shows what its skeleton gives, the update pass
    changes nothing. *)
Lemma rendered_updates app fuel name key sk :
  forall w node,
    rendered app fuel name key w sk node ->
    updateComponent app fuel (Some node) sk name key w = Ok w.
Proof.
  induction sk as [text | tag attrs cs IH] using Skeleton_nested_ind;
    intros w node H; simpl in H.
  - destruct H as (n & s & Ln & Hk & Hc). simpl. rewrite Hc. simpl.
    unfold liftDom, Dom.setNodeValue. rewrite Ln, Hk.
    replace (Dom.with_kind (Text s) n) with n
      by (destruct n; simpl in *; by subst).
    rewrite list_insert_id by done. simpl. by rewrite with_nodes_id.
  - destruct H as (n & Ln & Hel & Ha & Hc).
    change (updateComponent app fuel (Some node) (SNode tag attrs cs) name key
                            w)
      with (let* w1 := forEach (updateAttr app fuel (Some node) name key)
                               attrs w in
            forEachChild
              (fun child c => updateComponent app fuel (Some child) c name
                                              key) node cs O w1).
    assert (forEach (updateAttr app fuel (Some node) name key) attrs w = Ok w)
      as ->.
    { clear Hc IH. induction Ha as [|[k v] attrs Hkv _ IHa]; [reflexivity|].
      rewrite forEach_cons.
      assert (updateAttr app fuel (Some node) name key (k, v) w = Ok w) as ->;
        [|exact IHa].
      unfold updateAttr. destruct (isFunction v) eqn:Hf; [reflexivity|].
      destruct Hkv as [Hf' | (s & Hp & Hs & Hv)]; [simpl in Hf'; congruence|].
      simpl in Hp, Hs, Hv. rewrite Hs. simpl.
      unfold liftDom, Dom.setAttribute. rewrite Ln, Hel, Hp.
      rewrite (assoc_set_id k s _ Hv).
      replace (Dom.with_attributes (attributes n) n) with n
        by (by destruct n).
      rewrite list_insert_id by done. simpl. by rewrite with_nodes_id. }
    simpl.
    apply (children_updated _ node n w
             (fun c child => (node < child)%nat
                             /\ rendered app fuel name key w c child)
             Ln cs (childNodes n) O); [|by rewrite drop_0|exact Hc].
    eapply Forall_impl; [exact IH|]. simpl. intros c Hcc child [_ Hr].
    by apply Hcc.
Qed.

Lemma convertTextVariables_string app fuel text name key ks w v :
  toStringMethod key = Ok ks -> ks <> "" ->
  convertTextVariables app fuel text name key w = Ok v ->
  exists s, v = VStr s.
Proof.
  intros Hks Hne. unfold convertTextVariables. rewrite Hks. simpl.
  destruct (String.eqb_spec ks ""); [done|]. intros H.
  split_bind H as k Ek. destruct text; try discriminate.
  split_bind H as t Et. injection H as <-. eauto.
Qed.

Lemma renderedAttr_frame app fuel name key w w2 n n2 a :
  heap w2 = heap w -> page_elements w2 = page_elements w ->
  assoc (fst a) (attributes n2) = assoc (fst a) (attributes n) ->
  renderedAttr app fuel name key w n a ->
  renderedAttr app fuel name key w2 n2 a.
Proof.
  intros Hh He Ha [Hf | (s & Hp & Hs & Hv)]; [by left|]. right. exists s.
  rewrite (convertTextVariables_frame _ _ _ _ _ w w2) by done.
  rewrite Ha. done.
Qed.

Lemma pairwise_mono {A B} (R R' : A -> B -> Prop) :
  (forall a b, R a b -> R' a b) ->
  forall l l', pairwise R l l' -> pairwise R' l l'.
Proof.
  intros Himp l. induction l as [|a l IH]; intros [|b l']; simpl; try done.
  intros [Hab Hl]. split; [by apply Himp | by apply IH].
Qed.

Lemma lookup_tail {A} (base : list A) e e' tail added j :
  (length base < j)%nat -> (j < length (base ++ e :: tail))%nat ->
  (base ++ e' :: tail ++ added)%list !! j = (base ++ e :: tail)%list !! j.
Proof.
  intros Hlo Hhi. rewrite length_app in Hhi. simpl in Hhi.
  rewrite !lookup_app_r by lia.
  destruct (j - length base)%nat as [|m] eqn:Hm; [lia|]. simpl.
  apply lookup_app_l. lia.
Qed.

Lemma lookup_grown {A} (l : list A) d x e news :
  (<[d := x]> l ++ e :: news)%list !! length l = Some e.
Proof. rewrite <- (length_insert l d x). apply lookup_created. Qed.

Section Keyed.

Variable app : App.
Variable fuel : nat.
Variables name key : JSVal.
Variable ks : string.
Hypothesis key_string : toStringMethod key = Ok ks.
Hypothesis key_given : ks <> "".

Lemma connectAttr_sets a base e news w w' :
  settledAttr a = true ->
  nodes w = (base ++ e :: news)%list ->
  connectAttr app fuel (length base) name key a w = Ok w' ->
  exists e',
    nodes w' = (base ++ e' :: news)%list
    /\ kind e' = kind e /\ links e' = links e
    /\ renderedAttr app fuel name key w e' a
    /\ (forall k, k <> fst a ->
                  assoc k (attributes e') = assoc k (attributes e)).
Proof.
  destruct a as [k v]. unfold settledAttr, connectAttr. simpl.
  intros Hs Hn H. destruct (JS.startsWith k "on").
  - unfold liftDom, Dom.addEventListener in H.
    rewrite Hn, lookup_created in H. simpl in H. injection H as <-.
    simpl. rewrite insert_created. eexists. split; [reflexivity|].
    repeat split; try done. by left.
  - split_bind H as r Er. split_bind H as s Es.
    destruct (convertTextVariables_string _ _ _ _ _ _ _ _
                key_string key_given Er) as (s0 & ->).
    simpl in Es. injection Es as ->.
    unfold liftDom, Dom.setAttribute in H. rewrite Hn, lookup_created in H.
    destruct (Dom.isElement e); [|discriminate].
    destruct (Dom.plainName k) eqn:Hp; [|discriminate].
    simpl in H. injection H as <-. simpl. rewrite insert_created.
    eexists. split; [reflexivity|]. repeat split; try done.
    + right. exists s. simpl. by rewrite assoc_set_same.
    + intros k' Hne. simpl. by apply assoc_set_other.
Qed.

Lemma connectAttrs_set base news attrs :
  forall e w w',
    uniqueKeys attrs = true -> forallb settledAttr attrs = true ->
    nodes w = (base ++ e :: news)%list ->
    forEach (connectAttr app fuel (length base) name key) attrs w = Ok w' ->
    exists e',
      nodes w' = (base ++ e' :: news)%list
      /\ kind e' = kind e /\ links e' = links e
      /\ Forall (renderedAttr app fuel name key w e') attrs
      /\ (forall k, existsb (fun a => String.eqb (fst a) k) attrs = false ->
                    assoc k (attributes e') = assoc k (attributes e)).
Proof.
  induction attrs as [|[k v] attrs IH]; intros e w w' Hu Hs Hn H.
  - simpl in H. injection H as <-. exists e. by repeat split.
  - rewrite forEach_cons in H. split_bind H as w1 E1.
    simpl in Hu, Hs. apply andb_true_iff in Hu as [Hk Hu].
    apply andb_true_iff in Hs as [Hs1 Hs].
    apply negb_true_iff in Hk.
    pose proof (connectAttr_domOnly _ _ _ _ _ _ _ _ E1) as D1.
    destruct (connectAttr_sets _ _ _ _ _ _ Hs1 Hn E1)
      as (e1 & Hn1 & K1 & L1 & R1 & F1).
    destruct (IH e1 w1 w' Hu Hs Hn1 H) as (e' & Hn' & K' & L' & R' & F').
    exists e'. split; [done|]. split; [congruence|]. split; [congruence|].
    split.
    + constructor.
      * eapply renderedAttr_frame; [reflexivity|reflexivity| |exact R1].
        simpl. by apply F'.
      * eapply Forall_impl; [exact R'|]. simpl. intros a Ha.
        eapply renderedAttr_frame; [| | reflexivity | exact Ha].
        -- symmetry. by apply domOnly_heap.
        -- symmetry. by apply domOnly_elements.
    + intros k' Hk'. simpl in Hk'. apply orb_false_iff in Hk' as [Hne Hk'].
      rewrite (F' k' Hk'). apply F1. simpl.
      intros ->. by rewrite String.eqb_refl in Hne.
Qed.

Lemma children_rendered base cs :
  Forall (fun c => forall w w',
            connectComponent app fuel (length base) c name key w = Ok w' ->
            (length base < length (nodes w))%nat ->
            rendered app fuel name key w' c (length (nodes w))) cs ->
  forall e news w w',
    nodes w = (base ++ e :: news)%list ->
    forEach (fun c => connectComponent app fuel (length base) c name key)
            cs w = Ok w' ->
    exists e' added ids,
      nodes w' = (base ++ e' :: news ++ added)%list
      /\ kind e' = kind e /\ attributes e' = attributes e
      /\ parentNode e' = parentNode e
      /\ childNodes e' = (childNodes e ++ ids)%list
      /\ pairwise (fun c child =>
                     (length base < child)%nat
                     /\ rendered app fuel name key w' c child) cs ids.
Proof.
  induction 1 as [|c cs Hc _ IH]; intros e news w w' Hn H.
  - simpl in H. injection H as <-. exists e, [], [].
    rewrite !app_nil_r. by repeat split.
  - rewrite forEach_cons in H. split_bind H as w1 E1.
    assert (length base < length (nodes w))%nat as Hlt
        by (rewrite Hn, length_app; simpl; lia).
    specialize (Hc w w1 E1 Hlt).
    destruct (connectComponent_structure _ _ _ _ _ _ _ _ E1 Hlt)
      as (D1 & dn & root & new & Ld & Hn1 & _ & _).
    rewrite Hn, lookup_created in Ld. injection Ld as <-.
    rewrite Hn, insert_created in Hn1. rewrite <- app_assoc in Hn1.
    simpl in Hn1.
    assert (domOnly w1 w') as D'.
    { revert H. apply (forEach_preserves domOnly);
        [apply domOnly_refl | apply domOnly_trans|].
      apply Forall_forall. intros x _ wa wb. apply connectComponent_domOnly. }
    destruct (IH _ _ w1 w' Hn1 H) as (e' & added & ids & Hn' & K & A & P & C
                                      & R).
    exists e', (root :: new ++ added)%list, (length (nodes w) :: ids).
    split; [by rewrite Hn', <- app_assoc|].
    split; [done|]. split; [done|]. split; [done|].
    split; [simpl in C; rewrite C, Hn, <- app_assoc; reflexivity|].
    split; [|exact R]. split; [done|].
    apply (rendered_frame _ _ _ _ _ w1 w' _ Hc).
    + by apply domOnly_heap.
    + by apply domOnly_elements.
    + intros j Hlo Hhi. rewrite Hn', Hn1. rewrite Hn1 in Hhi.
      apply lookup_tail; [lia | done].
Qed.

Lemma connect_rendered sk :
  forall d w w',
    settled sk = true ->
    connectComponent app fuel d sk name key w = Ok w' ->
    (d < length (nodes w))%nat ->
    rendered app fuel name key w' sk (length (nodes w)).
Proof.
  induction sk as [text | tag attrs cs IH] using Skeleton_nested_ind;
    intros d w w' Hs H Hd; simpl in H.
  - split_bind H as v Ev. split_bind H as data Ed.
    destruct (convertTextVariables_string _ _ _ _ _ _ _ _
                key_string key_given Ev) as (s & ->).
    simpl in Ed. injection Ed as ->.
    unfold createTextNode, liftDom in H. simpl in H.
    split_bind H as ns' E. injection H as <-.
    apply (appendChild_created (nodes w) _ []) in E as (dn & Ldn & ->);
      [|done|done].
    simpl. exists (Dom.with_parent (Some d) (Dom.newText data)), data.
    split; [|split; [done|]].
    + apply lookup_grown.
    + rewrite <- Ev. by apply convertTextVariables_frame.
  - unfold createElement in H.
    split_bind H as w2 E2. split_bind H as w3 E3.
    unfold liftDom in H. split_bind H as ns' E. injection H as <-.
    simpl in Hs. apply andb_true_iff in Hs as [Hs Hcs].
    apply andb_true_iff in Hs as [Hu Hs].
    assert (domOnly w w2) as D2.
    { apply (domOnly_trans w (with_nodes (nodes w ++ [Dom.newElement tag]) w)
                           w2); [apply domOnly_with_nodes|].
      revert E2. apply (forEach_preserves domOnly);
        [apply domOnly_refl | apply domOnly_trans|].
      apply Forall_forall. intros x _ wa wb. apply connectAttr_domOnly. }
    destruct (connectAttrs_set (nodes w) [] attrs (Dom.newElement tag)
                (with_nodes (nodes w ++ [Dom.newElement tag]) w) w2
                Hu Hs eq_refl E2) as (e2 & Hn2 & K2 & L2 & R2 & _).
    assert (domOnly w2 w3) as D3.
    { revert E3. apply (forEach_preserves domOnly);
        [apply domOnly_refl | apply domOnly_trans|].
      apply Forall_forall. intros x _ wa wb. apply connectComponent_domOnly. }
    destruct (children_rendered (nodes w) cs) with (e := e2)
                                                   (news := @nil Node)
                                                   (w := w2) (w' := w3)
      as (e3 & added & ids & Hn3 & K3 & A3 & P3 & C3 & R3); [|done|done|].
    { apply Forall_forallb in Hcs.
      pose proof (proj2 (Forall_and _ _) (conj IH Hcs)) as Hall.
      eapply Forall_impl; [exact Hall|]. simpl.
      intros c [Hc Hsc] wa wb Hab Hlt. by apply (Hc _ wa wb Hsc Hab). }
    simpl in Hn3. rewrite Hn3 in E.
    injection L2 as C2 P2. simpl in C2, P2, K2.
    apply appendChild_created in E as (dn & Ldn & ->);
      [|done|by rewrite P3].
    simpl. exists (Dom.with_parent (Some d) e3).
    split.
    { apply lookup_grown. }
    split; [unfold Dom.isElement; simpl; by rewrite K3, K2|].
    split.
    + eapply Forall_impl; [exact R2|]. simpl. intros a Ha.
      eapply renderedAttr_frame; [| | |exact Ha]; simpl.
      * rewrite (domOnly_heap _ _ D3). by apply domOnly_heap.
      * rewrite (domOnly_elements _ _ D3). by apply domOnly_elements.
      * by rewrite A3.
    + cbn [childNodes Dom.with_parent]. rewrite C3, C2. simpl.
      eapply pairwise_mono; [|exact R3]. simpl.
      intros c child [Hlt Hr]. split; [done|].
      apply (rendered_frame _ _ _ _ _ w3 _ _ Hr).
      * reflexivity.
      * reflexivity.
      * intros j Hlo Hhi. simpl. rewrite Hn3.
        rewrite !lookup_app_r by (rewrite ?length_insert; lia).
        rewrite length_insert.
        destruct (j - length (nodes w))%nat as [|m] eqn:Hm; [lia|].
        reflexivity.
Qed.

End Keyed.

(** X17.  A mount and the update pass agree.  When the key of the instance
    has a string that is not empty, the names of the attributes of each
    node of the skeleton are distinct and every attribute named as an event
    holds a function, the update pass run on the subtree that a mount has
    just added changes nothing: not a text, not an attribute, not any other
    part of the world. *)
Theorem update_after_mount app fuel sk d name key ks w w' :
  toStringMethod key = Ok ks -> ks <> "" -> settled sk = true ->
  connectComponent app fuel d sk name key w = Ok w' ->
  (d < length (nodes w))%nat ->
  updateComponent app fuel (Some (length (nodes w))) sk name key w' = Ok w'.
Proof.
  intros Hks Hne Hs H Hd. apply rendered_updates.
  by apply (connect_rendered app fuel name key ks Hks Hne sk d w w').
Qed.

Lemma update_after_mount_witness :
  exists w',
    connectComponent counterApp 2 0 badgeSkeleton (VStr "counter") (VStr "k")
                     oneInstance = Ok w'
    /\ updateComponent counterApp 2 (Some (length (nodes oneInstance)))
                       badgeSkeleton (VStr "counter") (VStr "k") w' = Ok w'.
Proof.
  eexists. split; [vm_compute; reflexivity|].
  apply (update_after_mount counterApp 2 badgeSkeleton 0 (VStr "counter")
           (VStr "k") "k" oneInstance);
    [reflexivity | discriminate | reflexivity | vm_compute; reflexivity
     | vm_compute; lia].
Defined.

Lemma with_elements_same (w : World) k v :
  page_elements w !! k = Some v ->
  with_elements (<[k := v]> (page_elements w)) w = w.
Proof. intros H. rewrite insert_id by done. by destruct w. Qed.

Lemma existsb_assoc_set {A} k k' (v : A) l :
  k <> k' ->
  existsb (fun a => String.eqb (fst a) k') (assoc_set k v l)
  = existsb (fun a => String.eqb (fst a) k') l.
Proof.
  intros Hne. induction l as [|[k0 v0] l IH]; simpl.
  - by destruct (String.eqb_spec k k').
  - destruct (String.eqb_spec k k0) as [<-|]; simpl; [|by rewrite IH].
    by destruct (String.eqb_spec k k').
Qed.

Lemma uniqueKeys_assoc_set {A} k (v : A) l :
  uniqueKeys l = true -> uniqueKeys (assoc_set k v l) = true.
Proof.
  induction l as [|[k0 v0] l IH]; simpl; [done|]. intros H.
  apply andb_true_iff in H as [H1 H2].
  destruct (String.eqb_spec k k0) as [->|Hne]; simpl.
  - by rewrite H1, H2.
  - rewrite existsb_assoc_set by done. by rewrite H1, IH.
Qed.

(** The loop over the attributes keeps the names distinct, and stores
    strings only, none under the name of an event. *)
Lemma attributeLoop_settled app fuel name w l :
  forall acc r,
    uniqueKeys acc = true -> forallb plainAttr acc = true ->
    attributeLoop
      (fun value => convertTextVariables app fuel (VStr value) name VUndef w)
      l acc = Ok r ->
    uniqueKeys r = true /\ forallb plainAttr r = true.
Proof.
  induction l as [|[k v] l IH]; simpl; intros acc r Hu Hs H.
  - injection H as <-. by split.
  - destruct (JS.startsWith k "on") eqn:Hk; [discriminate|].
    unfold storeAttr in H.
    destruct (JS.isIndex k || String.eqb k "__proto__"); [discriminate|].
    simpl in H.
    apply (IH _ _ (uniqueKeys_assoc_set k (VStr v) acc Hu)); [|exact H].
    apply forallb_assoc_set; [|done]. unfold plainAttr. simpl.
    by rewrite Hk.
Qed.

Lemma plain_settled attrs :
  forallb plainAttr attrs = true -> forallb settledAttr attrs = true.
Proof.
  induction attrs as [|[k v] attrs IH]; simpl; [done|]. intros H.
  apply andb_true_iff in H as [Hp Hs]. rewrite (IH Hs).
  unfold plainAttr in Hp. simpl in Hp. apply andb_true_iff in Hp as [Hk _].
  apply negb_true_iff in Hk. unfold settledAttr. simpl. by rewrite Hk.
Qed.

Lemma createSkeleton_settles app fuel name w m :
  forall sk,
    createSkeleton app fuel m name w = Ok (Some sk) ->
    settled sk = true /\ built sk = true.
Proof.
  induction m as [v | tag attrs cs IH] using Markup_nested_ind; intros sk H.
  - simpl in H. destruct (String.eqb (JS.trim v) "") eqn:E; [discriminate|].
    injection H as <-. split; [done|]. simpl.
    by rewrite E, trim_idem, String.eqb_refl.
  - rewrite createSkeleton_element in H.
    split_bind H as ra Ea. split_bind H as rs Es. injection H as <-.
    apply attributeLoop_settled in Ea as [Hu Hp]; [|done|done].
    simpl. rewrite Hu, Hp, (plain_settled _ Hp). simpl.
    assert (forall acc rs,
              forallb settled acc = true -> forallb built acc = true ->
              childLoop (fun c => createSkeleton app fuel c name w) cs acc
              = Ok rs ->
              forallb settled rs = true /\ forallb built rs = true) as Hcs.
    { clear Es rs. induction IH as [|c cs Hc _ IHcs]; simpl;
        intros acc rs Hacc Hbuilt H.
      - injection H as <-. by split.
      - split_bind H as r Er. destruct r as [s|].
        + destruct (Hc s Er) as [Hs1 Hs2].
          apply (IHcs (acc ++ [s])%list); [| |exact H];
            by apply forallb_snoc.
        + by apply (IHcs acc). }
    destruct (Hcs [] rs eq_refl eq_refl Es) as [-> ->]. by split.
Qed.

(** X18.  Whatever the markup, the component and the world, a skeleton
    that [createSkeleton] returns has, on each of its elements, attributes
    with distinct names, each of them a string under a name that is not
    the name of an event, and its texts are trimmed and not empty.  It is
    then a skeleton on which a mount and the update pass agree (X17). *)
Theorem createSkeleton_settled app fuel m name w sk :
  createSkeleton app fuel m name w = Ok (Some sk) ->
  settled sk = true /\ built sk = true.
Proof. apply createSkeleton_settles. Qed.

Lemma createSkeleton_settled_witness :
  exists sk,
    createSkeleton emptyApp 0
      (MElement "DIV" [("class", "a"); ("id", "x")]
         [MCharData " {{state.count}} "])
      VUndef startWorld = Ok (Some sk)
    /\ settled sk = true /\ built sk = true.
Proof.
  eexists. split; [vm_compute; reflexivity|].
  apply (createSkeleton_settled emptyApp 0
           (MElement "DIV" [("class", "a"); ("id", "x")]
              [MCharData " {{state.count}} "])
           VUndef startWorld).
  vm_compute. reflexivity.
Defined.

(** The skeleton of a component after [buildSkeleton] is the one that was
    cached, or one that [createSkeleton] has just built. *)
Lemma buildSkeleton_settled app fuel name n w wb :
  toStr (heap w) name = Ok n ->
  (forall sk, skeletons w !! n = Some sk -> settled sk = true) ->
  buildSkeleton app fuel name w = Ok wb ->
  forall sk, skeletons wb !! n = Some sk -> settled sk = true.
Proof.
  intros Hn Hw H. unfold buildSkeleton in H. split_bind H as cached Ec.
  destruct cached; [by injection H as <-|].
  unfold cachedSkeleton in Ec. split_bind Ec as c0 Ec0.
  rewrite Hn in Ec. simpl in Ec. injection Ec as Lw.
  split_bind H as c Ecomp. rewrite Hn in H. simpl in H.
  destruct (firstElement (c_render c)) as [child|];
    [|by injection H as <-].
  split_bind H as s Es. destruct s as [sk0|]; injection H as <-; [|done].
  intros sk. simpl. rewrite lookup_insert_eq. intros [= <-].
  by apply (createSkeleton_settles app fuel name w child sk0).
Qed.

(** X19.  [setState] with the state an instance already has is a no-op
    right after the mount.  In an application without hooks, when the key
    has a string that is not empty and the skeleton cached for the
    component, if there is one, is as in X17, [renderComponent] leaves a
    world in which a call of [setState] with the initial state of the
    component returns and changes nothing. *)
Theorem setState_same_state app fuel d name key n ks ks' k c dom st w w' :
  noHooks app ->
  toStr (heap w) name = Ok n -> toStr (heap w) key = Ok ks ->
  toStringMethod key = Ok ks' -> ks' <> "" ->
  add (heap w) name key = Ok k ->
  components app !! n = Some c ->
  (forall sk, skeletons w !! n = Some sk -> settled sk = true) ->
  renderComponent app fuel d name key w = Ok w' ->
  (d < length (nodes w))%nat ->
  setState app fuel (mkThis name key dom st) (c_state c) w' = Ok w'.
Proof.
  intros Hq Hn Hks Hks' Hne Hk Lc Hset H Hd.
  destruct (renderComponent_steps _ _ _ _ _ _ _ _ _ _ Hq Hn Hks Hk H)
    as (c0 & sk & wb & w3 & w4 & Eb & Sb & E4 & E5 & Lc0 & Lsk & _ & N3 & H3
        & P3 & _).
  assert (c0 = c) as -> by congruence.
  assert (settled sk = true) as Hsettled.
  { apply (buildSkeleton_settled _ _ _ _ _ _ Hn Hset Eb). by rewrite <- Sb. }
  pose proof (connectComponent_domOnly _ _ _ _ _ _ _ _ E4) as D4.
  pose proof (liftDom_domOnly _ _ _ E5) as D5.
  assert (heap w' = heap w) as Hh'.
  { by rewrite (domOnly_heap _ _ D5), (domOnly_heap _ _ D4). }
  assert (page_elements w' !! k
          = Some (Some (mkEntry (c_state c) (length (nodes w))))) as Hp'.
  { rewrite (domOnly_elements _ _ D5), (domOnly_elements _ _ D4), P3.
    apply lookup_insert_eq. }
  assert (skeletons w' !! n = Some sk) as Hsk'.
  { by rewrite (domOnly_skeletons _ _ D5), (domOnly_skeletons _ _ D4). }
  assert (length (nodes w) < length (nodes w3))%nat as Hlt.
  { rewrite N3, length_app. simpl. lia. }
  pose proof (connect_rendered app fuel name key ks' Hks' Hne sk _ w3 w4
                Hsettled E4 Hlt) as R4.
  apply connectComponent_structure in E4 as (_ & dn4 & first & rest & L4 & N4
                                           & _ & _); [|done].
  rewrite N3 in L4, N4. rewrite lookup_snoc_last in L4. injection L4 as <-.
  rewrite insert_created in N4. rewrite <- app_assoc in N4.
  simpl in N4.
  unfold liftDom in E5. split_bind E5 as ns5 A5.
  rewrite N4 in A5.
  apply appendChild_created in A5 as (dn & Ldn & ->); [|done|done].
  injection E5 as E5.
  assert (rendered app fuel name key w' sk (length (nodes w3))) as R'.
  { apply (rendered_frame _ _ _ _ _ w4 w' _ R4);
      [by apply domOnly_heap | by apply domOnly_elements|].
    intros j Hlo Hhi. rewrite <- E5. cbn [nodes with_nodes]. rewrite N4.
    rewrite N3, length_app in Hlo. simpl in Hlo.
    rewrite !lookup_app_r by (rewrite ?length_insert; lia).
    rewrite length_insert.
    destruct (j - length (nodes w))%nat as [|m] eqn:Hm; [lia|].
    reflexivity. }
  assert (Dom.firstChild (length (nodes w)) (nodes w')
          = Some (length (nodes w3))) as Hfc.
  { rewrite <- E5. cbn [nodes with_nodes]. unfold Dom.firstChild.
    rewrite lookup_grown. simpl. by rewrite N3. }
  assert (getEntry k w' = Ok (mkEntry (c_state c) (length (nodes w)))) as Ge.
  { unfold getEntry. by rewrite Hp'. }
  assert (getComponent app name w' = Ok c) as Gc.
  { unfold getComponent. rewrite Hh', Hn. simpl. by rewrite Lc. }
  assert (getSkeleton app name w' = Ok sk) as Gs.
  { unfold getSkeleton, cachedSkeleton. rewrite Gc. simpl.
    rewrite Hh', Hn. simpl. by rewrite Hsk'. }
  clear E5 R4 Hh' H. unfold setState. cbn [this_name this_key].
  rewrite (domOnly_heap _ _ D5), (domOnly_heap _ _ D4), H3, Hk.
  cbn [bind]. rewrite Ge. cbn [bind e_dom].
  rewrite (with_elements_same w' k _ Hp').
  rewrite Ge. cbn [bind e_dom]. rewrite Gs. cbn [bind]. rewrite Hfc.
  rewrite (rendered_updates _ _ _ _ _ _ _ R'). cbn [bind].
  rewrite Gc. cbn [bind]. by rewrite (Hq n c Lc).
Qed.

Lemma setState_same_state_witness :
  renderComponent counterApp 1 0 (VStr "counter") (VStr "k") startWorld
  = Ok oneInstance
  /\ setState counterApp 1 counterThis (VObj 0) oneInstance = Ok oneInstance.
Proof.
  split; [vm_compute; reflexivity|].
  apply (setState_same_state counterApp 1 0 (VStr "counter") (VStr "k")
           "counter" "k" "k" "counterk"
           (spanComponent "counter" "{{state.count}}" (VObj 0))
           (Some 2%nat) (VObj 0) startWorld oneInstance).
  - apply spanApp_noHooks.
  - reflexivity.
  - reflexivity.
  - reflexivity.
  - discriminate.
  - reflexivity.
  - vm_compute. reflexivity.
  - intros sk Hsk. vm_compute in Hsk. discriminate.
  - vm_compute. reflexivity.
  - vm_compute. lia.
Defined.

(** ** An instance that has no host node yet *)

Lemma updateComponent_null app fuel sk name key w w' :
  updateComponent app fuel None sk name key w <> Ok w'.
Proof.
  destruct sk as [text | tag attrs cs]; simpl; intros H.
  - split_bind H as v Ev. split_bind H as s Es. discriminate.
  - split_bind H as w1 E1. discriminate.
Qed.

Lemma setState_stuck app fuel this newState k e w w' :
  add (heap w) (this_name this) (this_key this) = Ok k ->
  page_elements w !! k = Some (Some e) ->
  Dom.firstChild (e_dom e) (nodes w) = None ->
  setState app fuel this newState w <> Ok w'.
Proof.
  intros Hk He Hfc H. unfold setState in H. rewrite Hk in H.
  cbn [bind] in H. split_bind H as e0 E0.
  apply getEntry_Ok in E0. rewrite He in E0. injection E0 as <-.
  split_bind H as e1 E1. apply getEntry_Ok in E1. simpl in E1.
  rewrite lookup_insert_eq in E1. injection E1 as <-.
  split_bind H as sk Esk. simpl in H. rewrite Hfc in H.
  split_bind H as w1 E1. by apply updateComponent_null in E1.
Qed.

(** X20.  [setState] needs the rendered root of the instance.  Called for
    a registered instance whose wrapper has no child, as it is until the
    skeleton has been mounted under it, [setState] never returns
    normally. *)
Theorem setState_needs_child app fuel this newState k e w :
  add (heap w) (this_name this) (this_key this) = Ok k ->
  page_elements w !! k = Some (Some e) ->
  Dom.firstChild (e_dom e) (nodes w) = None ->
  forall w', setState app fuel this newState w <> Ok w'.
Proof. intros Hk He Hfc w'. by apply (setState_stuck _ _ _ _ k e). Qed.

Lemma setState_needs_child_witness :
  setState counterApp 1 counterThis (VObj 0) justRegistered
  <> Ok justRegistered.
Proof.
  apply (setState_needs_child counterApp 1 counterThis (VObj 0) "counterk"
           (mkEntry (VObj 0) 1) justRegistered);
    vm_compute; reflexivity.
Defined.

(** X21.  The [created] hook of a component runs before the instance has
    any host node but its wrapper.  [renderComponent] calls it in a world
    where the wrapper, with its two marker attributes, has been created
    and registered with the initial state of the component, but has no
    child and no parent; the context of the hook has no [dom] for that
    reason, and a [setState] of the instance cannot return there.  The
    skeleton is mounted, and the wrapper appended to the container, in the
    world that the hook returns. *)
Theorem created_before_mount app fuel d name key n ks k c hook w wb :
  toStr (heap w) name = Ok n -> toStr (heap w) key = Ok ks ->
  add (heap w) name key = Ok k ->
  components app !! n = Some c ->
  c_hooks c ≫= created = Some hook ->
  buildSkeleton app fuel name w = Ok wb ->
  let wrapper := length (nodes w) in
  let w0 :=
    with_elements
      (<[k := Some (mkEntry (c_state c) wrapper)]> (page_elements w))
      (with_nodes
         (nodes w ++ [mkNode (Element "DIV")
                             [("lucid-component", n); ("lucid-key", ks)]
                             [] None []]) wb) in
  let this := mkThis name key None (c_state c) in
  renderComponent app fuel d name key w
  = (let* w1 := hook this w0 in
     let* skeleton := getSkeleton app name w1 in
     let* w2 := connectComponent app fuel wrapper skeleton name key w1 in
     let* w3 := liftDom (Dom.appendChild d wrapper) w2 in
     fireHook app connected name key w3)
  /\ forall fuel' newState w',
       setState app fuel' this newState w0 <> Ok w'.
Proof.
  intros Hn Hks Hk Hc Hhook Hb wrapper w0 this. subst wrapper.
  pose proof (buildSkeleton_frame _ _ _ _ _ Hb) as ((Eh & Ee) & En).
  assert (getThisParameter name key w0 = Ok this) as Ht.
  { rewrite (getThisParameter_entry name key k) by (simpl; by rewrite Eh).
    unfold getEntry. simpl. rewrite lookup_insert_eq. simpl.
    unfold Dom.firstChild. by rewrite lookup_snoc_last. }
  split.
  - unfold renderComponent. rewrite Hb. cbn [bind]. unfold createElement.
    cbn [heap with_nodes]. rewrite Eh, Hn. cbn [bind].
    unfold liftDom at 1. cbn [nodes with_nodes]. rewrite En.
    rewrite setAttribute_last by done. cbn [bind heap with_nodes].
    rewrite Eh, Hks. cbn [bind].
    unfold liftDom at 1. cbn [nodes with_nodes].
    rewrite setAttribute_last by done. cbn [bind heap with_nodes].
    rewrite Eh, Hk. cbn [bind].
    unfold getComponent at 1. cbn [heap with_nodes]. rewrite Eh, Hn.
    cbn [bind]. rewrite Hc. cbn [bind page_elements with_nodes]. rewrite Ee.
    match goal with
    | |- context [fireHook app created name key ?x] => change x with w0
    end.
    unfold fireHook at 1. unfold getComponent at 1.
    replace (heap w0) with (heap w) by (simpl; by rewrite Eh).
    rewrite Hn. cbn [bind]. rewrite Hc. cbn [bind].
    destruct (c_hooks c) as [hs|]; [|discriminate]. simpl in Hhook.
    rewrite Hhook, Ht. reflexivity.
  - intros fuel' newState w'.
    apply (setState_stuck app fuel' this newState k
             (mkEntry (c_state c) (length (nodes w))) w0).
    + simpl. by rewrite Eh.
    + simpl. apply lookup_insert_eq.
    + simpl. unfold Dom.firstChild. by rewrite lookup_snoc_last.
Qed.

Lemma created_before_mount_witness :
  exists wb,
    buildSkeleton hookedApp 1 (VStr "counter") startWorld = Ok wb
    /\ let w0 :=
         with_elements
           (<["counterk" := Some (mkEntry (VObj 0) 1)]>
              (page_elements startWorld))
           (with_nodes
              (nodes startWorld
               ++ [mkNode (Element "DIV")
                          [("lucid-component", "counter"); ("lucid-key", "k")]
                          [] None []]) wb) in
       let this := mkThis (VStr "counter") (VStr "k") None (VObj 0) in
       renderComponent hookedApp 1 0 (VStr "counter") (VStr "k") startWorld
       = (let* w1 := logHook "created" this w0 in
          let* skeleton := getSkeleton hookedApp (VStr "counter") w1 in
          let* w2 := connectComponent hookedApp 1 1 skeleton (VStr "counter")
                                      (VStr "k") w1 in
          let* w3 := liftDom (Dom.appendChild 0 1) w2 in
          fireHook hookedApp connected (VStr "counter") (VStr "k") w3)
       /\ forall fuel' newState w',
            setState hookedApp fuel' this newState w0 <> Ok w'.
Proof.
  eexists. split; [vm_compute; reflexivity|].
  apply (created_before_mount hookedApp 1 0 (VStr "counter") (VStr "k")
           "counter" "k" "counterk" hookedComponent (logHook "created")
           startWorld);
    vm_compute; reflexivity.
Defined.

(** * A placeholder of the page *)

#[local] Arguments Dom.getAttribute : simpl never.
#[local] Arguments Dom.newElement : simpl never.

(** The loop of [connectPage] over the attributes of an element sets each
    of them on the new element; an attribute that is a string is read back
    as it is. *)
Lemma pageAttrs_set base news attrs :
  forall e w w',
    nodes w = (base ++ e :: news)%list ->
    uniqueKeys attrs = true ->
    forEach (pageAttr (length base)) attrs w = Ok w' ->
    domOnly w w'
    /\ exists e',
         nodes w' = (base ++ e' :: news)%list /\ links e' = links e
         /\ kind e' = kind e
         /\ forall k v, assoc k attrs = Some (VStr v) ->
              assoc k (attributes e') = Some v.
Proof.
  induction attrs as [|[k0 v0] attrs IH]; intros e w w' Hn Hu H.
  - simpl in H. injection H as <-. split; [apply domOnly_refl|].
    exists e. by repeat split.
  - rewrite forEach_cons in H. split_bind H as w1 E1.
    simpl in Hu. apply andb_true_iff in Hu as [Hk Hu].
    apply negb_true_iff in Hk.
    assert (domOnly w w1
            /\ exists s, toStr (heap w) v0 = Ok s
                 /\ Dom.isElement e = true
                 /\ nodes w1
                    = (base ++ Dom.with_attributes
                                 (assoc_set k0 s (attributes e)) e
                            :: news)%list) as (D1 & s & Es & Hel & Hn1).
    { unfold pageAttr in E1. split_bind E1 as s Es.
      split; [by eapply liftDom_domOnly|]. exists s. split; [done|].
      unfold liftDom in E1. split_bind E1 as ns' E. injection E1 as <-.
      rewrite Hn in E. unfold Dom.setAttribute in E.
      rewrite lookup_created in E.
      destruct (Dom.isElement e), (Dom.plainName k0); try discriminate.
      injection E as <-. by rewrite insert_created. }
    destruct (pageAttrs_created base news attrs _ w1 w' Hn1 H)
      as (_ & e1 & Hn' & _ & A').
    destruct (IH _ w1 w' Hn1 Hu H) as (D' & e' & Hn'' & L' & K' & V').
    rewrite Hn' in Hn''. apply app_inv_head in Hn''. injection Hn'' as <-.
    split; [by eapply domOnly_trans|].
    exists e1. split; [done|]. split; [exact L'|]. split; [exact K'|].
    intros k v Hkv. simpl in Hkv.
    destruct (String.eqb_spec k k0) as [->|Hne].
    + injection Hkv as ->. simpl in Es. injection Es as <-.
      rewrite (A' k0 Hk). simpl. apply assoc_set_same.
    + by apply V'.
Qed.

Section WithoutHooks.

Variable app : App.
Variable fuel : nat.
Hypothesis no_hooks : noHooks app.

(** The branch of [connectPage] for a placeholder, when no component has
    hooks: the skeleton of the definition is built if it was not cached,
    the instance is registered with the [state] of the definition and the
    element, and the skeleton is mounted under the element. *)
Lemma connectPlaceholder_steps elem name key w w' :
  connectPlaceholder app fuel elem (VStr name) (VStr key) w = Ok w' ->
  exists c sk wb,
    components app !! name = Some c
    /\ buildSkeleton app fuel (VStr name) w = Ok wb
    /\ skeletons wb !! name = Some sk
    /\ connectComponent app fuel elem sk (VStr name) (VStr key)
         (with_elements
            (<[name ++ key := Some (mkEntry (c_state c) elem)]>
               (page_elements wb)) wb) = Ok w'.
Proof.
  intros H. unfold connectPlaceholder in H.
  split_bind H as wb Eb. split_bind H as ek Eek. injection Eek as <-.
  split_bind H as c Ec. apply getComponent_Ok in Ec as (n & En & Lc).
  injection En as <-.
  split_bind H as w1 E1. apply (fireHook_noHooks app no_hooks) in E1.
  subst w1. split_bind H as e Ee. apply getEntry_Ok in Ee. simpl in Ee.
  rewrite lookup_insert_eq in Ee. injection Ee as <-.
  split_bind H as sk Esk. split_bind H as w3 E3.
  apply (fireHook_noHooks app no_hooks) in H. subst w3.
  unfold getSkeleton, cachedSkeleton in Esk.
  split_bind Esk as cached Ecached. split_bind Ecached as c0 Ec0.
  split_bind Ecached as k Ek. injection Ek as <-. injection Ecached as <-.
  simpl in Esk.
  destruct (skeletons wb !! name) as [sk'|] eqn:L; [|discriminate].
  injection Esk as ->. exists c, sk, wb. by repeat split.
Qed.

End WithoutHooks.

(** The skeleton [buildSkeleton] leaves for a component is the one that
    was cached or, when there was none, the one [createSkeleton] builds
    from the first element of the render output. *)
Lemma buildSkeleton_built app fuel name c sk w wb :
  components app !! name = Some c ->
  buildSkeleton app fuel (VStr name) w = Ok wb ->
  skeletons wb !! name = Some sk ->
  (forall sk0, skeletons w !! name = Some sk0 -> sk0 = sk)
  /\ (skeletons w !! name = None ->
      exists m, firstElement (c_render c) = Some m
                /\ createSkeleton app fuel m (VStr name) w = Ok (Some sk)).
Proof.
  intros Hc H Hsk. unfold buildSkeleton, cachedSkeleton, getComponent in H.
  simpl in H. rewrite Hc in H. simpl in H.
  destruct (skeletons w !! name) as [sk0|] eqn:L.
  - injection H as <-. split; [|done]. intros sk1 [= <-]. congruence.
  - split; [done|]. intros _.
    destruct (firstElement (c_render c)) as [m|];
      [|injection H as <-; congruence].
    split_bind H as r Er. destruct r as [sk1|];
      [|injection H as <-; congruence].
    injection H as <-. simpl in Hsk. rewrite lookup_insert_eq in Hsk.
    injection Hsk as ->. by exists m.
Qed.

(** C4, amended.  During page-level mounting under an existing node (with
    components that have no hooks), an element skeleton whose attributes,
    under distinct names, hold a component-name marker and an
    instance-key marker, neither empty, is a component placeholder.  The
    skeleton of the named definition is built from the first element of
    its render output if it was not cached.  A fresh instance is
    registered: its entry holds the [state] of the definition and the
    element, which has no child yet.  The skeleton of the definition is
    mounted under the element in that world, one host node for each of its
    nodes, the root as the first child.  The page children of the
    placeholder are then mounted too, one child of the element each, after
    that root, and the element is appended to its parent. *)
Theorem placeholder_mounts_then_recurses app fuel d tag attrs name key cs
  w w' :
  noHooks app ->
  uniqueKeys attrs = true ->
  assoc "lucid-component" attrs = Some (VStr name) ->
  assoc "lucid-key" attrs = Some (VStr key) ->
  name <> "" -> key <> "" -> (d < length (nodes w))%nat ->
  connectPage app fuel d (SNode tag attrs cs) w = Ok w' ->
  let elem := length (nodes w) in
  exists c sk w0 w1 w4 rest,
    components app !! name = Some c
    /\ skeletons w0 !! name = Some sk
    /\ (forall sk0, skeletons w !! name = Some sk0 -> sk0 = sk)
    /\ (skeletons w !! name = None ->
        exists m, firstElement (c_render c) = Some m
                  /\ createSkeleton app fuel m (VStr name) w = Ok (Some sk))
    /\ heap w0 = heap w
    /\ page_elements w0
       = <[name ++ key := Some (mkEntry (c_state c) elem)]>
           (page_elements w)
    /\ (exists e, nodes w0 = (nodes w ++ [e])%list
                  /\ kind e = Element (JS.toUpperCase tag)
                  /\ childNodes e = [] /\ parentNode e = None)
    /\ connectComponent app fuel elem sk (VStr name) (VStr key) w0 = Ok w1
    /\ Dom.children elem (nodes w1) = [S elem]
    /\ length (nodes w1) = (S elem + size sk)%nat
    /\ forEach (fun c => connectPage app fuel elem c) cs w1 = Ok w4
    /\ liftDom (Dom.appendChild d elem) w4 = Ok w'
    /\ Dom.children elem (nodes w') = S elem :: rest
    /\ length rest = length cs
    /\ Dom.parent (S elem) (nodes w') = Some elem
    /\ Dom.parent elem (nodes w') = Some d
    /\ skeletons w' !! name = Some sk
    /\ registered w' (name ++ key).
Proof.
  intros Hno Hu Hcn Hck Hname Hkey Hd H elem.
  assert (Forall (fun c => forall d w w',
                    connectPage app fuel d c w = Ok w' ->
                    (d < length (nodes w))%nat ->
                    appended d (linkMap w) (linkMap w')) cs) as Hcs.
  { apply Forall_forall. intros c _. by apply connectPage_appended. }
  destruct (connectPage_node app fuel Hno d tag _ cs w w' Hcs Hd H)
    as (w2 & w3 & w4 & first & rest & E2 & E4 & Hfin & Hif & Hrest & Len3
        & A & Le & O).
  fold elem in E2, E4, Hfin, Hif, Len3, Le, O.
  destruct (pageAttrs_set (nodes w) [] attrs (Dom.newElement tag)
              (with_nodes (nodes w ++ [Dom.newElement tag]) w) w2
              eq_refl Hu E2) as (D2 & e2 & Hn2 & L2 & K2 & V2).
  injection L2 as C2 P2.
  assert (Dom.getAttribute elem "lucid-component" (nodes w2) = VStr name)
    as Gn.
  { rewrite Hn2. unfold elem. rewrite getAttribute_created.
    by rewrite (V2 _ _ Hcn). }
  assert (Dom.getAttribute elem "lucid-key" (nodes w2) = VStr key) as Gk.
  { rewrite Hn2. unfold elem. rewrite getAttribute_created.
    by rewrite (V2 _ _ Hck). }
  rewrite Gn, Gk in Hif. simpl in Hif.
  assert (negb (String.eqb name "") = true) as Tn.
  { by destruct (String.eqb_spec name ""). }
  rewrite Tn in Hif. simpl in Hif. destruct Hif as (Ep & -> & Hp).
  destruct (connectPlaceholder_steps app fuel Hno _ _ _ _ _ Ep)
    as (c & sk & wb & Lc & Eb & Lsk & Ec).
  destruct (buildSkeleton_built app fuel name c sk w2 wb Lc Eb Lsk)
    as [Hsame Hbuilt].
  apply buildSkeleton_frame in Eb as ((Eh & Ee) & En).
  pose proof Ec as Ec0.
  apply connectComponent_structure in Ec as (D3 & dn & root & new & Ld & N3
                                           & S3 & P3);
    [|simpl; rewrite En, Hn2, length_app; simpl; unfold elem; lia].
  simpl in Ld, N3. rewrite En, Hn2 in Ld, N3.
  unfold elem in Ld, N3. rewrite lookup_created in Ld. injection Ld as <-.
  rewrite insert_created in N3. rewrite C2 in N3. simpl in N3.
  rewrite length_app in N3. simpl in N3. rewrite Nat.add_1_r in N3.
  rewrite <- app_assoc in N3. simpl in N3.
  exists c, sk.
  exists (with_elements
            (<[name ++ key := Some (mkEntry (c_state c) elem)]>
               (page_elements wb)) wb).
  exists w3, w4, rest.
  split; [exact Lc|]. split; [exact Lsk|].
  split; [intros sk0 L0; apply Hsame; by rewrite (domOnly_skeletons _ _ D2)|].
  split.
  { intros Lnone. destruct Hbuilt as (m & Hm & Hcr).
    { by rewrite (domOnly_skeletons _ _ D2). }
    exists m. split; [done|].
    by rewrite (createSkeleton_world app fuel (VStr name) w w2). }
  split; [simpl; by rewrite Eh, (domOnly_heap _ _ D2)|].
  split; [simpl; by rewrite Ee, (domOnly_elements _ _ D2)|].
  split.
  { exists e2. simpl. rewrite En, Hn2. by repeat split. }
  split; [exact Ec0|].
  split.
  { unfold Dom.children, elem. by rewrite N3, lookup_created. }
  split.
  { rewrite N3, length_app. simpl. unfold elem. lia. }
  split; [exact E4|]. split; [exact Hfin|].
  split; [by apply children_of_links in Le as [-> _]|].
  split; [exact Hrest|].
  assert (extends w3 w') as [X1 X2].
  { eapply extends_trans;
      [|apply domOnly_extends; eapply liftDom_domOnly; exact Hfin].
    eapply (forEach_preserves extends);
      [apply extends_refl | apply extends_trans | | exact E4].
    apply Forall_forall. intros c0 _ wa wb0.
    by apply connectPage_extends. }
  split.
  { apply parent_of_links. rewrite O; [exact Hp | | lia | lia].
    rewrite <- linkMap_length. apply lookup_lt_is_Some.
    destruct (linkMap w3 !! S elem); [eauto | discriminate]. }
  split; [by apply children_of_links in Le as [_ ->]|].
  split.
  - apply X1. by rewrite (domOnly_skeletons _ _ D3).
  - apply X2. unfold registered. rewrite (domOnly_elements _ _ D3). simpl.
    rewrite lookup_insert_eq. eauto.
Qed.

Lemma placeholder_mounts_then_recurses_witness :
  let elem := length (nodes startWorld) in
  exists c sk w0 w1 w4 rest,
    components counterApp !! "counter" = Some c
    /\ skeletons w0 !! "counter" = Some sk
    /\ (forall sk0, skeletons startWorld !! "counter" = Some sk0 -> sk0 = sk)
    /\ (skeletons startWorld !! "counter" = None ->
        exists m, firstElement (c_render c) = Some m
                  /\ createSkeleton counterApp 1 m (VStr "counter") startWorld
                     = Ok (Some sk))
    /\ heap w0 = heap startWorld
    /\ page_elements w0
       = <["counter" ++ "k" := Some (mkEntry (c_state c) elem)]>
           (page_elements startWorld)
    /\ (exists e, nodes w0 = (nodes startWorld ++ [e])%list
                  /\ kind e = Element (JS.toUpperCase "DIV")
                  /\ childNodes e = [] /\ parentNode e = None)
    /\ connectComponent counterApp 1 elem sk (VStr "counter") (VStr "k") w0
       = Ok w1
    /\ Dom.children elem (nodes w1) = [S elem]
    /\ length (nodes w1) = (S elem + size sk)%nat
    /\ forEach (fun c => connectPage counterApp 1 elem c) [SText "inside"] w1
       = Ok w4
    /\ liftDom (Dom.appendChild 0 elem) w4 = Ok pageMounted
    /\ Dom.children elem (nodes pageMounted) = S elem :: rest
    /\ length rest = length [SText "inside"]
    /\ Dom.parent (S elem) (nodes pageMounted) = Some elem
    /\ Dom.parent elem (nodes pageMounted) = Some 0%nat
    /\ skeletons pageMounted !! "counter" = Some sk
    /\ registered pageMounted ("counter" ++ "k").
Proof.
  apply (placeholder_mounts_then_recurses counterApp 1 0 "DIV"
           [("lucid-component", VStr "counter"); ("lucid-key", VStr "k")]
           "counter" "k" [SText "inside"] startWorld pageMounted).
  - apply spanApp_noHooks.
  - reflexivity.
  - reflexivity.
  - reflexivity.
  - discriminate.
  - discriminate.
  - vm_compute. lia.
  - vm_compute. reflexivity.
Defined.
